(* ===== verification/_CoqProject ===== *)
-Q . S2P
Prelude.v
JsString.v
Regex.v
Types.v
Dom.v
Effects.v
Extractor.v
Normalizer.v
Routes.v
DomExtractor.v
PdfGenerator.v
Exporter.v
Paginator.v
View.v
PreviewToolbar.v
SettingsForm.v
ExporterView.v
Pipeline.v
