(* ===== verification/Prelude.v ===== *)
(** * Notion exporter: a verification development

    The program turns an HTML export of a Notion page into a paginated PDF.
    Its sources are TypeScript files under src/; this library models them as
    executable Rocq definitions and proves what makes each part correct.

    ** The program's parts and the files that model them

    - [Prelude] (this file): JavaScript strings as lists of UTF-16 code
      units ([str], a code unit is an [N]), literals ([lit], [qlit]), the
      option combinators the models share, generic list lemmas, the tactics
      and the hint databases [js] (resolution) and [jsrw] (rewriting).
    - [JsString]: the methods of String.prototype the sources call: [trim],
      [substring], [includes], [endsWith], one-shot [replace] with a string
      pattern ([replace_first]), ASCII case folding, the white space and
      line terminator classes of ECMAScript.
    - [Regex]: the fragment of ECMAScript regular expressions the sources
      use (literals, quantified single-character classes, greedy or lazy,
      an optional literal, one capture per item), a backtracking matcher
      [exec_at], a declarative specification [Matches] with a priority
      order, leftmost [search] and the global [replace_all] loop.
    - [Types]: [NotionPageData] and [ExportSettings] of src/types/notion.ts,
      the defaults of src/components/notion-exporter.tsx and the partial
      update of [handleExportSettings].
    - [Effects]: the control flow of the async functions: a state and
      exception monad with [try_catch] and [try_finally].
    - [Extractor]: [parseNotionPage] and [cleanNotionContent] of
      src/app/api/fetch-notion/route.ts, regular expression by regular
      expression and in the order of the source.
    - [Normalizer]: which rules of cleanNotionContent fire on what the
      rules before them leave: the rule for code blocks, and the rules
      for table cells.
    - [Routes]: the two request handlers, [fetch_POST] (POST of
      src/app/api/fetch-notion/route.ts) and [export_POST] (POST of
      src/app/api/export-pdf/route.ts), over an outside world that is a
      parameter.
    - [Dom]: the document tree, the DOM operations generatePDF applies to
      its temporary container and the queries of the structural strategy.
    - [DomExtractor]: [fetchNotionPage] of src/app/actions/notion.ts, the
      structural strategy: validation, fetch, and the selectors that read
      the page data off the parsed document.
    - [PdfGenerator]: [generatePDF] of src/lib/pdf-generator.ts: the markup
      of the container, the preparation of its tree, the strips of the
      canvas, the page loop and the finally block.
    - [Exporter]: the state and the handlers of the upload component of
      src/components/notion-exporter.tsx, as a machine whose steps are the
      events of the page and the settlement of pending awaits.
    - [Paginator]: the page splitting effect and the navigation and zoom
      handlers of src/components/pdf-preview.tsx, behind the [Paginator]
      interface: the laws a pagination of a text must satisfy, of which
      the length-estimate strategy is an instance.
    - [View]: the trees that the components render: elements with a tag,
      properties, handlers and children, and the handlers a user can
      reach.
    - [PreviewToolbar]: the tree that PDFPreview returns
      (src/components/pdf-preview.tsx) and the zoom handlers on binary64
      numbers.
    - [SettingsForm]: the component ExportSettings of
      src/components/export-settings.tsx: its tree, its nine callbacks and
      what its controls report.
    - [ExporterView]: the tree that NotionExporter returns, the page
      around it (src/app/page.tsx, src/app/layout.tsx), the events of a
      user on the page and the theme switch.
    - [Pipeline]: extraction followed by the preview, and the end-to-end
      scenario of the specification.

    ** How the state and the operations correspond to the code

    A JavaScript string is a sequence of 16-bit code units and [length]
    counts code units, so [str] is [list N] and an emoji outside the basic
    plane is two elements.  Every pattern of the sources is ASCII; under the
    [i] flag ECMAScript canonicalises a code unit by its upper case unless
    that would map a non-ASCII unit to an ASCII one, so a literal of the
    sources can only be matched by ASCII input and [fold_case] (fold [a-z]
    to [A-Z], leave every other unit alone) decides the comparison exactly.
    The classes of the sources (any unit but [>], but [<], but the double
    quote, but [;]; white space; any unit but a line terminator; any unit)
    are closed under canonicalisation, so the flag does not change them.

    A regular expression is a list of items; the matcher returns one
    segment of the input per item, so that capture group [$1] is the
    segment of the item the source parenthesises.  [replace_all] runs on
    fuel [S (length s)]: every iteration consumes at least one code unit of
    the subject (an empty match advances by one unit, as the lastIndex
    rule of ECMAScript does), so that fuel is never exhausted; the theorem
    [replace_all_fuel_enough] states it.

    A handler is a computation of [Effects]: [await] is the bind of the
    monad, a [return] inside a try block is the value of the block, and
    the state is what the handler has done to the world.  For [fetch_POST]
    the world is the URL constructor ([hostname]) and the upstream
    ([fetch]), and the state is the list of requests sent.  For
    [export_POST] the world decides the outcome of each call on the
    headless browser from the calls made before it, and the state is that
    sequence of calls together with the local variable [browser].
    [NextResponse_json] is NextResponse.json with a status: it throws on
    a status that a response with a body cannot carry (outside 200 to
    599, or a null body status), which matters where the status is the
    one the upstream sent.  The body of a request is the list of the
    members of a JSON object, read as JSON.parse reads it (the last
    member wins for a key that occurs twice); a JSON number is kept as an
    integer, zero for the number zero, since a handler only tests whether
    a number is falsy.

    [generatePDF] runs over a [World] that fixes what the parser,
    html2canvas, the canvas context and jsPDF answer; its state is the
    number of temporary containers attached to the document and the trees
    handed to html2canvas.  Lengths in mm and in pixels are rationals: the
    geometry is exact in the model and rounded to doubles in the code, so
    the two can differ by a strip when a quotient is within rounding
    distance of an integer.  The width of a canvas is positive: the
    markup of the container gives it a width or a padding, and on a
    canvas of width 0 the loop of the source would not end (the height of
    a page in pixels is then 0 and the number of pages is Infinity).

    The upload component is a machine with pending tasks: a handler that
    awaits is split at its await ([handleFile_start] and
    [handleFile_settle], [handleExportPDF_start] and
    [handleExportPDF_settle]), the first half leaves a [task] and the
    action [Settle] runs the second half of any pending task, so that the
    traces of [dispatch] are the interleavings the event loop allows.  The
    structural strategy runs over a [Web] that fixes the URL constructor,
    the upstream, the parser and the serialiser; its selectors are
    evaluated on the tree of [Dom].  What a rejected promise carries is
    an Error with its message or another value ([thrown]), which is what
    the catch block of the action tells apart.  The download of the PDF
    is three calls of one synchronous block ([createObjectURL], [click],
    [revokeObjectURL]); no other handler runs between them.

    The preview component is a state machine: [PreviewState] holds the
    four state variables of the component, [handle] dispatches an [event]
    to [nextPage], [prevPage], [zoomIn], [zoomOut] or the effect, and
    [reaches] is the reflexive and transitive closure; [pageContent]
    gives the [PageView] the component renders (frame, scale, font size,
    cover, title block, colours, content and label).  Counts and indices
    are [nat].  The zoom level is kept in tenths as a [Z] by [Paginator]
    and as a binary64 number by [PreviewToolbar], which writes the
    handlers as the source does ([zoomIn_double], [zoomOut_double], with
    [Math_round] computed exactly from the mantissa and the exponent) and
    proves that the two agree on every level the component reaches.

    A render function is a function from the state to a tree of [View]:
    one element per JSX element, in document order, with the properties
    and the handlers of the JSX; a block under a condition is in the tree
    when the condition holds.  Class names and constant style objects are
    left out.  An event of a user has an effect only when the tree of the
    current state has its handler on an element that is not disabled
    ([handlers]); this is how the guards of the machines ([can_click] of
    [Exporter], the [disabled] conditions of the toolbar) are derived
    from the rendering.  The controls of the settings form come from a
    library: what a select, a slider and a switch report to their
    callbacks is fixed by [emits] from the properties that the form gives
    them (the items of the select; [min], [max] and [step] of a slider;
    [checked] of a switch).  The theme is the state of the theme provider
    of next-themes; [resolvedTheme] and [setTheme] are its contract.

    ** What the theorems show

    - [Regex]: the matcher is sound and complete for [Matches] and returns
      the decomposition ECMAScript's backtracking order prefers;
      [search] is leftmost; [replace_all] terminates within its fuel and
      leaves a subject without a match unchanged.
    - [Extractor]: the title rules (missing title, the Notion suffix,
      and for every title element what the rule does on a blank title and
      on a suffix text that is not at the end), the precedence of the
      emoji icon, where the content of the container ends, the shape of
      cleaned content (white space collapsed and trimmed, against the
      one-pass reference [squeeze]), and counterexamples to the
      properties the rewriting does not have (idempotence, absence of
      script elements).
    - [Normalizer]: the rule for code blocks is dead: for every content
      the rules before it leave no class attribute that starts with
      notion-code in front of a double quote, so its pattern matches
      nothing; the rule for table header cells rewrites every opening tag
      that starts with [<th], whatever its name.
    - [Routes]: [fetch_POST] never throws and computes the decision table
      [fetch_spec]; it sends a request only to a URL that passed the
      validation, which is a substring test on the host name.
      [export_POST] closes every browser it launched whenever it returns,
      returns a PDF only after the five calls have succeeded in order, and
      throws exactly on a body that is not JSON, on the body null, and
      when a call after the launch and the close of the catch block both
      fail.
    - [DomExtractor]: the outcome of the server action on every path
      (what it throws is always an Error), and that the page data it
      returns is well formed.
    - [PdfGenerator]: the temporary container is detached on every exit;
      the strips partition the canvas; on success the document has one
      page per strip with its image and page number; the tree that is
      rendered has no image when images are not preserved and carries the
      page break hints when they are asked for; preserveFormatting has no
      effect.
    - [Exporter]: an invariant of every reachable state of the upload
      component, what settling an export does, and the race between two
      uploads.
    - [ExporterView]: the page implements the machine of [Exporter]
      (every action is an event on the tree with the same effect, and
      every event is an action); the export settings never change, since
      the page mounts neither the settings form nor the preview; an empty
      file is accepted without any feedback; the theme button switches
      between light and dark.
    - [SettingsForm]: the form implements its table of updates; the
      settings it produces keep the ranges of the controls; a gesture
      changes what its control shows and nothing else; every setting in
      range can be reached; and for all of them the page loop of
      generatePDF is well defined.
    - [Paginator]: the number of preview pages, that the pages concatenate
      to the content with no loss or duplication, the bounds on each page,
      that navigation keeps the current page within range and reaches
      every page, what is shown on the first page only, and that the
      preview reads five of the settings and keeps image tags when
      [preserveImages] is off.
    - [PreviewToolbar]: a button of the toolbar is enabled exactly when
      its handler changes the state; the zoom on doubles never drifts
      from the zoom in tenths.
    - [Pipeline]: for every HTML text the preview pages are a partition of
      the cleaned content; the scenario of the meeting notes evaluates to
      three pages of 4000, 4000 and 1000 units.  The two extraction
      strategies are compared on the title: on a page whose title
      element the parser finds, the textual strategy trims the title and
      the structural one does not, and an empty title is Untitled for
      the structural strategy alone.
    - [Types]: the laws of the partial update of the settings.

    ** Plan (in this order)

    + Prelude, JsString, Regex, Types, Effects, Dom, Extractor, Routes,
      DomExtractor, PdfGenerator, Exporter, Paginator, Pipeline (above).
    + View, PreviewToolbar, SettingsForm, ExporterView: the render
      functions and the page (above).
    + The comparison of the two extraction strategies on the title
      (above); the same for the icon, the cover and the content, which
      needs a specification of the parser and of the serialiser.
    + Normalizer: the rules of cleanNotionContent along the chain
      (above); the same analysis for the rule for links, whose greedy
      pattern takes the last href of a tag.
    + Matching under the [i] flag as invariant under [ci_eq] of the
      subject.

    ** Not modelled

    Of the JSX, the class names, the constant style objects, the style
    sheet and the fonts are presentation and are left out; the libraries
    behind the elements (the controls, the dialog, the theme provider)
    are represented by the contracts stated above.  The HTML parser, the
    URL parser, the network, the headless browser and the canvas
    rasteriser are external: where a handler depends on them their
    outcome is a parameter of the model.  The rounding of binary64 in
    the geometry of generatePDF is not modelled (the zoom of the preview
    is).  The pipeline of [Pipeline] is the one the specification
    describes; no code under src/ connects the extraction to the
    preview.  The constant options of the external calls (request
    headers, launch arguments, the paper format of the print call) are not
    part of the model. *)

From stdpp Require Import prelude list numbers strings.
From Stdlib Require Import Lia.

(** * Strings as code units *)

Declare Scope js_scope.
Delimit Scope js_scope with js.

Abbreviation char := N (only parsing).
Abbreviation str := (list N) (only parsing).

(** A source literal: the code units of an ASCII Rocq string. *)
Definition lit (s : string) : str :=
  Ascii.N_of_ascii <$> String.list_ascii_of_string s.

(** A source literal that contains double quotes: in the Rocq text an
    apostrophe stands for each double quote of the source (no literal of
    the sources contains an apostrophe). *)
Definition qlit (s : string) : str :=
  (λ c, if (c =? 39)%N then 34%N else c) <$> lit s.

#[global] Arguments lit : simpl never.
#[global] Arguments qlit : simpl never.

(** * Option combinators *)

(** [a <|> b]: the first alternative that succeeds, as in a backtracking
    choice or in the [x || y] of JavaScript on nullable values.  It is a
    notation for the [match], so that [b] is evaluated only when [a] fails. *)
Notation "a <|> b" :=
  (match a with Some x => Some x | None => b end)
  (at level 51, right associativity, only parsing) : js_scope.
Open Scope js_scope.

Definition is_some {A} (o : option A) : bool :=
  match o with Some _ => true | None => false end.

(** * Longest prefix satisfying a boolean predicate *)

Section Span.
Context {A : Type} (p : A → bool).

Fixpoint take_while (l : list A) : list A :=
  match l with
  | x :: l' => if p x then x :: take_while l' else []
  | [] => []
  end.

Fixpoint drop_while (l : list A) : list A :=
  match l with
  | x :: l' => if p x then drop_while l' else l
  | [] => []
  end.

Definition all_b (l : list A) : bool := forallb p l.

Lemma take_drop_while l : take_while l ++ drop_while l = l.
Proof. induction l as [|x l IH]; simpl; [done|]. destruct (p x); simpl; by rewrite ?IH. Qed.

Lemma take_while_all l : all_b (take_while l) = true.
Proof.
  induction l as [|x l IH]; simpl; [done|].
  destruct (p x) eqn:E; simpl; [by rewrite E|done].
Qed.

Lemma drop_while_head l x l' : drop_while l = x :: l' → p x = false.
Proof.
  induction l as [|y l IH]; simpl; [done|].
  destruct (p y) eqn:E; [done|]. by intros [= <- _].
Qed.

Lemma take_while_app_all l k : all_b l = true → take_while (l ++ k) = l ++ take_while k.
Proof.
  induction l as [|x l IH]; simpl; [done|].
  intros [-> Hl]%andb_true_iff. by rewrite IH.
Qed.

Lemma drop_while_app_all l k : all_b l = true → drop_while (l ++ k) = drop_while k.
Proof.
  induction l as [|x l IH]; simpl; [done|].
  intros [-> Hl]%andb_true_iff. by rewrite IH.
Qed.

Lemma take_while_stop x l : p x = false → take_while (x :: l) = [].
Proof. simpl. by intros ->. Qed.

Lemma drop_while_stop x l : p x = false → drop_while (x :: l) = x :: l.
Proof. simpl. by intros ->. Qed.

Lemma drop_while_idemp l : drop_while (drop_while l) = drop_while l.
Proof.
  induction l as [|x l IH]; simpl; [done|].
  destruct (p x) eqn:E; [done|]. simpl. by rewrite E.
Qed.

Lemma all_b_app l k : all_b (l ++ k) = all_b l && all_b k.
Proof. apply forallb_app. Qed.

Lemma all_b_Forall l : all_b l = true ↔ Forall (λ x, p x = true) l.
Proof.
  unfold all_b. induction l as [|x l IH]; simpl; [by split|].
  rewrite andb_true_iff, Forall_cons, IH. done.
Qed.

Lemma all_b_elem l x : all_b l = true → x ∈ l → p x = true.
Proof. rewrite all_b_Forall, Forall_forall. auto. Qed.

Lemma length_drop_while l : length (drop_while l) ≤ length l.
Proof. induction l as [|x l IH]; simpl; [done|]. destruct (p x); simpl; lia. Qed.
End Span.

Lemma all_b_impl {A} (p q : A → bool) l :
  (∀ x, p x = true → q x = true) → all_b p l = true → all_b q l = true.
Proof. rewrite !all_b_Forall. intros H Hl. eapply Forall_impl; eauto. Qed.

(** * Option lemmas *)

Lemma orelse_Some {A} (a b : option A) x :
  (a <|> b) = Some x ↔ a = Some x ∨ (a = None ∧ b = Some x).
Proof. destruct a; simpl; intuition congruence. Qed.

Lemma orelse_None {A} (a b : option A) :
  (a <|> b) = None ↔ a = None ∧ b = None.
Proof. destruct a; simpl; intuition congruence. Qed.

Lemma orelse_None_r {A} (a : option A) : (a <|> None) = a.
Proof. by destruct a. Qed.

Lemma default_orelse {A} (x : A) (a b : option A) :
  default (default x a) b = default x (b <|> a).
Proof. by destruct b. Qed.

Lemma is_some_true {A} (o : option A) : is_some o = true ↔ is_Some o.
Proof. destruct o; simpl; split; eauto; (done || by inversion 1). Qed.

Lemma fmap_Some_inv {A B} (f : A → B) (o : option A) y :
  f <$> o = Some y → ∃ x, o = Some x ∧ y = f x.
Proof. destruct o; simpl; [intros [= <-]; eauto | done]. Qed.

(** * List lemmas *)

Lemma fmap_replicate_const {A B} (f : A → B) (c : B) (l : list A) :
  (∀ x, x ∈ l → f x = c) → f <$> l = replicate (length l) c.
Proof.
  induction l as [|x l IH]; intros H; simpl; [done|].
  rewrite H by left. f_equal. apply IH. intros. apply H. by right.
Qed.

Lemma elem_of_concat {A} (x : A) (ls : list (list A)) :
  x ∈ concat ls ↔ ∃ l, x ∈ l ∧ l ∈ ls.
Proof.
  induction ls as [|l ls IH]; simpl.
  - split; [by intros ?%elem_of_nil|by intros (? & _ & ?%elem_of_nil)].
  - rewrite elem_of_app, IH. split.
    + intros [?|(l' & ? & ?)]; [exists l|exists l']; split; (done || by constructor).
    + intros (l' & ? & [->|?]%elem_of_cons); eauto.
Qed.

Lemma elem_of_concat_fmap {A B} (f : A → list B) (l : list A) (x : B) :
  x ∈ concat (f <$> l) ↔ ∃ y, y ∈ l ∧ x ∈ f y.
Proof.
  rewrite elem_of_concat. split.
  - intros (k & Hx & (y & -> & Hy)%list_elem_of_fmap). eauto.
  - intros (y & Hy & Hx). exists (f y). split; [done|]. apply list_elem_of_fmap. eauto.
Qed.

(** * Hint databases and tactics *)

Create HintDb js discriminated.
Create Rewrite HintDb jsrw.

#[export] Hint Rewrite @app_nil_r @length_app @length_take @length_drop
  @take_drop @orelse_None_r : jsrw.
#[export] Hint Rewrite @take_drop_while @drop_while_idemp : jsrw.
#[export] Hint Resolve take_while_all length_drop_while : js.

(** Case analysis on the scrutinee of the first [match] or [if] of the goal,
    or of a hypothesis that equates such a term with a constructor. *)
Ltac case_scrut :=
  match goal with
  | |- context [match ?x with _ => _ end] => destruct x eqn:?
  | H : context [match ?x with _ => _ end] |- _ => destruct x eqn:?
  end.

(** Invert hypotheses of the shapes the option combinators produce. *)
Ltac opt_inv :=
  repeat match goal with
  | H : _ <$> _ = Some _ |- _ => apply fmap_Some_inv in H as (? & ? & ?)
  | H : (_ <|> _) = Some _ |- _ => apply orelse_Some in H as [?|[? ?]]
  | H : (_ <|> _) = None |- _ => apply orelse_None in H as [? ?]
  | H : Some _ = Some _ |- _ => injection H as ?
  | H : Some _ = None |- _ => discriminate H
  | H : None = Some _ |- _ => discriminate H
  end; subst.

(** Close a decidable goal on closed terms by evaluating its decision. *)
Ltac by_decide :=
  match goal with
  | |- ?P => apply (bool_decide_unpack P); vm_compute; exact I
  end.

Ltac js_simpl := autorewrite with jsrw in *; simpl in *.

(** Resolve every [min] and [max] of the goal that [lia] can decide. *)
Ltac minmax_simpl :=
  repeat match goal with
  | |- context [?a `min` ?b] =>
      first [rewrite (Nat.min_l a b) by lia | rewrite (Nat.min_r a b) by lia]
  | |- context [?a `max` ?b] =>
      first [rewrite (Nat.max_l a b) by lia | rewrite (Nat.max_r a b) by lia]
  end.
