(* ===== verification/JsString.v ===== *)
(** * JsString: the String.prototype methods the sources call

    [trim], [substring], [includes], [endsWith], [replace] with a string
    pattern, and the character classes of ECMAScript that the regular
    expressions and [trim] share.  A string is a list of UTF-16 code units
    ([str] of the prelude). *)

From stdpp Require Import prelude list numbers strings.
From Stdlib Require Import Lia.
From S2P Require Import Prelude.

Local Open Scope N_scope.

(** * Character classes *)

(** LineTerminator of ECMAScript: LF, CR, LS, PS. *)
Definition is_line_terminator (c : char) : bool :=
  (c =? 10) || (c =? 13) || (c =? 8232) || (c =? 8233).

(** WhiteSpace of ECMAScript: TAB, VT, FF, SP, NBSP, ZWNBSP and the
    space separators of Unicode. *)
Definition is_white_space (c : char) : bool :=
  (c =? 9) || (c =? 11) || (c =? 12) || (c =? 32) || (c =? 160) ||
  (c =? 5760) || ((8192 <=? c) && (c <=? 8202)) || (c =? 8239) ||
  (c =? 8287) || (c =? 12288) || (c =? 65279).

(** What [\s] matches and what [trim] strips. *)
Definition is_space (c : char) : bool :=
  is_white_space c || is_line_terminator c.

(** The canonical form of a code unit under the [i] flag, as far as a
    comparison with an ASCII pattern can tell. *)
Definition fold_case (c : char) : char :=
  if (97 <=? c) && (c <=? 122) then c - 32 else c.

Definition char_eqb (ci : bool) (a c : char) : bool :=
  if ci then fold_case a =? fold_case c else a =? c.

(** Equality of strings up to ASCII case. *)
Definition ci_eq (s t : str) : Prop := fold_case <$> s = fold_case <$> t.

Local Close Scope N_scope.

(** * trim *)

Definition trimStart (s : str) : str := drop_while is_space s.
Definition trimEnd (s : str) : str := reverse (drop_while is_space (reverse s)).
Definition trim (s : str) : str := trimEnd (trimStart s).

(** A string neither starts nor ends with white space. *)
Definition trimmed (s : str) : Prop :=
  (∀ c s', s = c :: s' → is_space c = false) ∧
  (∀ c s', s = s' ++ [c] → is_space c = false).

(** * Prefixes, search for a substring *)

(** [strip_prefix ci p s]: when [s] starts with [p] (up to case when [ci]),
    the units of [s] that matched and the rest of [s]. *)
Fixpoint strip_prefix (ci : bool) (p s : str) : option (str * str) :=
  match p, s with
  | [], _ => Some ([], s)
  | a :: p', c :: s' =>
      if char_eqb ci a c
      then (λ mr, (c :: mr.1, mr.2)) <$> strip_prefix ci p' s'
      else None
  | _ :: _, [] => None
  end.

Definition startsWith (p s : str) : bool := is_some (strip_prefix false p s).

Definition endsWith (p s : str) : bool := startsWith (reverse p) (reverse s).

(** [find ci p s]: the least index at which [p] occurs in [s], up to
    ASCII case when [ci]. *)
Fixpoint find (ci : bool) (p s : str) : option nat :=
  if is_some (strip_prefix ci p s) then Some 0
  else match s with
       | [] => None
       | _ :: s' => S <$> find ci p s'
       end.

Definition indexOf (p s : str) : option nat := find false p s.

Definition includes (p s : str) : bool := is_some (indexOf p s).

(** Does [p] occur in [s] up to ASCII case? *)
Definition occurs (ci : bool) (p s : str) : bool := is_some (find ci p s).

(** [m] matches the pattern [p] behind [x] in [x ++ m ++ y], and [p]
    matches at no index inside [x]. *)
Definition lit_prefix_at (ci : bool) (p x y m : str) : Prop :=
  Forall2 (λ a c, char_eqb ci a c = true) p m ∧
  ∀ j, j < length x → strip_prefix ci p (drop j (x ++ m ++ y)) = None.

(** Two strings differ at an index that both have. *)
Fixpoint clash (p s : str) : bool :=
  match p, s with
  | a :: p', c :: s' => if (a =? c)%N then clash p' s' else true
  | _, _ => false
  end.

(** [s.replace(p, r)] with a string pattern: the first occurrence only. *)
Definition replace_first (p r s : str) : str :=
  match indexOf p s with
  | Some i => take i s ++ r ++ drop (i + length p) s
  | None => s
  end.

(** [s.substring(a, b)]: both indices clamped to the length, swapped when
    out of order. *)
Definition substring (a b : nat) (s : str) : str :=
  let lo := (a `min` b) `min` length s in
  let hi := (a `max` b) `min` length s in
  take (hi - lo) (drop lo s).

(** * Case folding *)

Lemma fold_case_idemp c : fold_case (fold_case c) = fold_case c.
Proof.
  unfold fold_case.
  destruct ((97 <=? c)%N && (c <=? 122)%N) eqn:E; [|by rewrite E].
  apply andb_true_iff in E as [E1%N.leb_le E2%N.leb_le].
  destruct (97 <=? c - 32)%N eqn:E3; [|done].
  apply N.leb_le in E3. simpl. destruct (c - 32 <=? 122)%N; [lia|done].
Qed.

#[export] Instance ci_eq_equiv : Equivalence ci_eq.
Proof.
  unfold ci_eq. split.
  - by intros s.
  - by intros s t.
  - intros s t u. congruence.
Qed.

#[export] Instance ci_eq_app : Proper (ci_eq ==> ci_eq ==> ci_eq) (++).
Proof. unfold ci_eq. intros s s' Hs t t' Ht. by rewrite !fmap_app, Hs, Ht. Qed.

#[export] Instance ci_eq_length : Proper (ci_eq ==> (=)) (@length N).
Proof.
  unfold ci_eq. intros s t H.
  by rewrite <-(length_fmap fold_case s), H, length_fmap.
Qed.

#[export] Instance ci_eq_dec s t : Decision (ci_eq s t).
Proof. unfold ci_eq. apply _. Defined.

Lemma char_eqb_refl ci c : char_eqb ci c c = true.
Proof. unfold char_eqb. destruct ci; apply N.eqb_refl. Qed.

Lemma char_eqb_exact a c : char_eqb false a c = true ↔ a = c.
Proof. apply N.eqb_eq. Qed.

Lemma char_eqb_fold a c : char_eqb true a c = true ↔ fold_case a = fold_case c.
Proof. apply N.eqb_eq. Qed.

(** A unit that is no ASCII letter only matches itself, whatever the flag. *)
Lemma char_eqb_nonletter ci a c :
  fold_case a = a → (∀ x, fold_case x = a → x = a) →
  char_eqb ci a c = true ↔ c = a.
Proof.
  intros Ha Hinj. destruct ci.
  - rewrite char_eqb_fold, Ha. split; [intros H; by apply Hinj|by intros ->].
  - rewrite char_eqb_exact. naive_solver.
Qed.

(** * strip_prefix *)

Lemma strip_prefix_Some ci p s m r :
  strip_prefix ci p s = Some (m, r) ↔
  s = m ++ r ∧ Forall2 (λ a c, char_eqb ci a c = true) p m.
Proof.
  revert s m r. induction p as [|a p IH]; intros s m r; simpl.
  - split.
    + intros [= <- <-]. split; [done|constructor].
    + intros [-> H]. by inversion H.
  - destruct s as [|c s].
    { split; [done|]. intros [H1 H2]. inversion H2; subst. done. }
    destruct (char_eqb ci a c) eqn:E.
    + split.
      * intros ([m' r'] & [-> H2]%IH & [= -> ->])%fmap_Some_inv.
        split; [done|by constructor].
      * intros [H1 H2]. inversion H2 as [|? c' ? m' Hc Hm]; subst.
        injection H1 as <- ->.
        by rewrite (proj2 (IH (m' ++ r) m' r) (conj eq_refl Hm)).
    + split; [done|]. intros [H1 H2].
      inversion H2 as [|? c' ? m' Hc Hm]; subst. injection H1 as <- ->. congruence.
Qed.

Lemma strip_prefix_length ci p s m r :
  strip_prefix ci p s = Some (m, r) → length m = length p.
Proof. intros [_ H]%strip_prefix_Some. symmetry. by eapply Forall2_length. Qed.

Lemma strip_prefix_self ci p r : strip_prefix ci p (p ++ r) = Some (p, r).
Proof.
  apply strip_prefix_Some. split; [done|].
  induction p; constructor; auto using char_eqb_refl.
Qed.

Lemma strip_prefix_exact p s m r :
  strip_prefix false p s = Some (m, r) ↔ m = p ∧ s = p ++ r.
Proof.
  rewrite strip_prefix_Some. split.
  - intros [-> H]. assert (p = m) as ->; [|done].
    induction H as [|?????%char_eqb_exact]; congruence.
  - intros [-> ->]. split; [done|].
    induction p; constructor; auto using char_eqb_refl.
Qed.

Lemma strip_prefix_ci p s m r :
  strip_prefix true p s = Some (m, r) ↔ s = m ++ r ∧ ci_eq p m.
Proof.
  rewrite strip_prefix_Some. unfold ci_eq. split; intros [-> H]; split; try done.
  - induction H as [|a c p' m' Hc%char_eqb_fold _ IH]; [done|].
    rewrite !fmap_cons. by f_equal.
  - revert m H. induction p as [|a p IH]; intros [|c m]; rewrite ?fmap_cons; try done.
    intros [= H1 H2]. constructor; [by apply char_eqb_fold|by apply IH].
Qed.

Lemma strip_prefix_nil ci s : strip_prefix ci [] s = Some ([], s).
Proof. done. Qed.

Lemma strip_prefix_short ci p s :
  (length s < length p)%nat → strip_prefix ci p s = None.
Proof.
  intros Hlt. destruct (strip_prefix ci p s) as [[m r]|] eqn:E; [|done].
  pose proof (strip_prefix_length _ _ _ _ _ E).
  apply strip_prefix_Some in E as [-> _]. rewrite length_app in Hlt. lia.
Qed.

(** A pattern that starts with a unit matching only itself cannot be a
    prefix of a subject that starts with another unit. *)
Lemma strip_prefix_head_ne ci a p c s :
  char_eqb ci a c = false → strip_prefix ci (a :: p) (c :: s) = None.
Proof. simpl. by intros ->. Qed.

(** * trim *)

Lemma trimEnd_split s :
  ∃ w, s = trimEnd s ++ w ∧ all_b is_space w = true.
Proof.
  exists (reverse (take_while is_space (reverse s))). split.
  - unfold trimEnd. rewrite <-reverse_app, take_drop_while.
    by rewrite reverse_involutive.
  - rewrite all_b_Forall, Forall_reverse, <-all_b_Forall. apply take_while_all.
Qed.

Lemma trimEnd_last s c s' : trimEnd s = s' ++ [c] → is_space c = false.
Proof.
  unfold trimEnd. intros H%(f_equal reverse).
  rewrite reverse_involutive, reverse_snoc in H.
  by apply drop_while_head in H.
Qed.

Lemma trimStart_head s c s' : trimStart s = c :: s' → is_space c = false.
Proof. apply drop_while_head. Qed.

Lemma trimEnd_id s :
  (∀ c s', s = s' ++ [c] → is_space c = false) → trimEnd s = s.
Proof.
  intros H. unfold trimEnd. destruct (reverse s) as [|c r] eqn:E.
  - apply (f_equal reverse) in E. by rewrite reverse_involutive in E.
  - rewrite drop_while_stop, <-E, reverse_involutive; [done|].
    apply (H c (reverse r)). apply (f_equal reverse) in E.
    by rewrite reverse_involutive, reverse_cons in E.
Qed.

Lemma trimStart_id s :
  (∀ c s', s = c :: s' → is_space c = false) → trimStart s = s.
Proof.
  intros H. destruct s as [|c s]; [done|].
  apply drop_while_stop. by eapply H.
Qed.

Lemma trim_trimmed s : trimmed (trim s).
Proof.
  unfold trim. split; [|apply trimEnd_last].
  intros c s' E. destruct (trimEnd_split (trimStart s)) as (w & Hw & _).
  rewrite E in Hw. by apply trimStart_head in Hw.
Qed.

Lemma trim_id s : trimmed s → trim s = s.
Proof. intros [H1 H2]. unfold trim. by rewrite trimStart_id, trimEnd_id. Qed.

Lemma trim_idemp s : trim (trim s) = trim s.
Proof. apply trim_id, trim_trimmed. Qed.

Lemma trimStart_app_space w s :
  all_b is_space w = true → trimStart (w ++ s) = trimStart s.
Proof. apply drop_while_app_all. Qed.

Lemma trimEnd_app_space w s :
  all_b is_space w = true → trimEnd (s ++ w) = trimEnd s.
Proof.
  intros H. unfold trimEnd. rewrite reverse_app, drop_while_app_all; [done|].
  by rewrite all_b_Forall, Forall_reverse, <-all_b_Forall.
Qed.

Lemma trim_nil : trim [] = [].
Proof. done. Qed.

Lemma length_trim s : length (trim s) ≤ length s.
Proof.
  unfold trim, trimEnd, trimStart. rewrite length_reverse.
  etrans; [apply length_drop_while|]. rewrite length_reverse.
  apply length_drop_while.
Qed.

(** * substring *)

Lemma substring_take_drop a b s :
  a ≤ b → b ≤ length s → substring a b s = take (b - a) (drop a s).
Proof. intros. unfold substring. by rewrite !Nat.min_l, Nat.max_r by lia. Qed.

Lemma length_substring a b s :
  a ≤ b → length (substring a b s) = (b `min` length s) - (a `min` length s).
Proof.
  intros. unfold substring. rewrite length_take, length_drop.
  rewrite (Nat.min_l a b), (Nat.max_r a b) by lia. lia.
Qed.

Lemma substring_full s : substring 0 (length s) s = s.
Proof.
  rewrite substring_take_drop by lia. simpl.
  rewrite Nat.sub_0_r. apply firstn_all.
Qed.

Lemma substring_app a b c s :
  a ≤ b → b ≤ c → c ≤ length s →
  substring a b s ++ substring b c s = substring a c s.
Proof.
  intros. rewrite !substring_take_drop by lia.
  replace (c - a) with ((b - a) + (c - b)) by lia.
  rewrite <-take_take_drop, drop_drop. do 3 f_equal. lia.
Qed.

(** * indexOf and replace with a string pattern *)

Lemma startsWith_true p s : startsWith p s = true ↔ ∃ r, s = p ++ r.
Proof.
  unfold startsWith. rewrite is_some_true. split.
  - intros [[m r] [-> ->]%strip_prefix_exact]. eauto.
  - intros [r ->]. rewrite strip_prefix_self. eauto.
Qed.

Lemma find_unfold ci p s :
  find ci p s =
  if is_some (strip_prefix ci p s) then Some 0
  else match s with [] => None | _ :: s' => S <$> find ci p s' end.
Proof. by destruct s. Qed.

Lemma find_Some ci p s i :
  find ci p s = Some i ↔
  is_some (strip_prefix ci p (drop i s)) = true ∧ i ≤ length s ∧
  ∀ j, j < i → strip_prefix ci p (drop j s) = None.
Proof.
  revert i. induction s as [|c s IH]; intros i; rewrite find_unfold;
    destruct (strip_prefix ci p _) as [mr|] eqn:E; cbn [is_some].
  - split; [intros [= <-]; split_and!; [by rewrite drop_0, E|done|lia]|].
    intros (_ & Hi & _). f_equal. simpl in Hi. lia.
  - split; [done|]. intros (H & _ & _). rewrite drop_nil, E in H. done.
  - split; [intros [= <-]; split_and!; [by rewrite drop_0, E|lia|lia]|].
    intros (_ & _ & Hj). destruct i; [done|]. specialize (Hj 0 ltac:(lia)).
    rewrite drop_0 in Hj. congruence.
  - split.
    + intros (i' & (H1 & H2 & H3)%IH & ->)%fmap_Some_inv. split_and!; [done|simpl; lia|].
      intros [|j] Hj; [done|]. apply H3. lia.
    + intros (H1 & H2 & H3). destruct i as [|i]; [rewrite drop_0, E in H1; done|].
      simpl in H1, H2. rewrite (proj2 (IH i)); [done|]. split_and!; [done|lia|].
      intros j Hj. apply (H3 (S j)). lia.
Qed.

Lemma find_None ci p s :
  find ci p s = None ↔ ∀ j, j ≤ length s → strip_prefix ci p (drop j s) = None.
Proof.
  induction s as [|c s IH]; rewrite find_unfold;
    destruct (strip_prefix ci p _) as [mr|] eqn:E; cbn [is_some].
  - split; [done|]. intros H. specialize (H 0 ltac:(lia)). rewrite drop_0 in H. congruence.
  - split; [|done]. intros _ j _. by rewrite drop_nil.
  - split; [done|]. intros H. specialize (H 0 ltac:(lia)). rewrite drop_0 in H. congruence.
  - rewrite fmap_None, IH. split.
    + intros H [|j] Hj; [done|]. apply H. simpl in Hj. lia.
    + intros H j Hj. apply (H (S j)). simpl. lia.
Qed.

(** The first occurrence is behind a prefix in which none starts. *)
Lemma find_at ci p x y m :
  lit_prefix_at ci p x y m →
  find ci p (x ++ m ++ y) = Some (length x).
Proof.
  intros [Hm Hx]. apply find_Some. split_and!; [|rewrite length_app; lia|done].
  rewrite drop_app_length.
  by rewrite (proj2 (strip_prefix_Some ci p (m ++ y) m y) (conj eq_refl Hm)).
Qed.

(** The computational reading of [lit_prefix_at], for closed subjects. *)
Lemma lit_prefix_at_find ci p x y m :
  find ci p (x ++ m ++ y) = Some (length x) → length m = length p →
  lit_prefix_at ci p x y m.
Proof.
  intros (Hm & _ & Hx)%find_Some Hlen. split; [|done].
  rewrite drop_app_length in Hm.
  destruct (strip_prefix ci p (m ++ y)) as [[m' r]|] eqn:E; [|done].
  apply strip_prefix_Some in E as [E HF]. apply Forall2_length in HF as Hl.
  apply app_inj_1 in E as [-> _]; [done|lia].
Qed.

Lemma occurs_false ci p s :
  occurs ci p s = false ↔ ∀ j, j ≤ length s → strip_prefix ci p (drop j s) = None.
Proof. unfold occurs. rewrite <-find_None. by destruct (find ci p s). Qed.

(** A string that contains the pattern, whatever surrounds it. *)
Lemma occurs_app ci p x y : occurs ci p (x ++ p ++ y) = true.
Proof.
  destruct (occurs ci p (x ++ p ++ y)) eqn:E; [done|]. exfalso.
  pose proof (proj1 (occurs_false _ _ _) E (length x)) as H.
  rewrite drop_app_length, strip_prefix_self, length_app in H.
  by specialize (H ltac:(lia)).
Qed.

Lemma includes_app p x y : includes p (x ++ p ++ y) = true.
Proof. apply (occurs_app false). Qed.

Lemma startsWith_lookup p s i c :
  startsWith p s = true → p !! i = Some c → s !! i = Some c.
Proof. intros [r ->]%startsWith_true Hp. by apply lookup_app_l_Some. Qed.

(** The first occurrence is replaced when nothing earlier matches. *)
Lemma replace_first_at p r x y :
  (∀ j, j < length x → startsWith p (drop j (x ++ p ++ y)) = false) →
  replace_first p r (x ++ p ++ y) = x ++ r ++ y.
Proof.
  intros H. unfold replace_first, indexOf.
  rewrite (proj2 (find_Some false p (x ++ p ++ y) (length x))).
  - rewrite take_app_length, drop_app_add, drop_app_length. done.
  - split_and!; [by rewrite drop_app_length, strip_prefix_self|rewrite length_app; lia|].
    intros j Hj. specialize (H j Hj). unfold startsWith in H.
    by destruct (strip_prefix false p _).
Qed.

Lemma replace_first_suffix p r x :
  (∀ j, j < length x → startsWith p (drop j (x ++ p)) = false) →
  replace_first p r (x ++ p) = x ++ r.
Proof.
  intros H. pose proof (replace_first_at p r x []) as H'.
  rewrite !app_nil_r in H'. auto.
Qed.

Lemma replace_first_absent p r s : includes p s = false → replace_first p r s = s.
Proof. unfold includes, replace_first. by destruct (indexOf p s). Qed.

(** Strings that clash have no common extension. *)
Lemma clash_app p s y z : clash p s = true → p ++ y ≠ s ++ z.
Proof.
  revert s. induction p as [|a p IH]; intros [|c s]; simpl; try done.
  destruct (N.eqb_spec a c) as [->|Hne]; [|congruence].
  intros H [= E]. by apply (IH s).
Qed.

(** An occurrence of [p] in [u ++ v] lies in [u], lies in [v], or has a
    part in each. *)
Lemma occurrence_app (x p y u v : str) :
  x ++ p ++ y = u ++ v →
  (∃ w, u = x ++ p ++ w ∧ y = w ++ v) ∨
  (∃ w, x = u ++ w ∧ v = w ++ p ++ y) ∨
  (∃ a b, a ≠ [] ∧ b ≠ [] ∧ p = a ++ b ∧ u = x ++ a ∧ v = b ++ y).
Proof.
  intros [(k & -> & ->)|(k & -> & E)]%app_eq_inv; [by right; left; exists k|].
  apply app_eq_inv in E as [(k' & -> & ->)|(k' & -> & ->)].
  - destruct k' as [|c k']; [left; exists []; by rewrite !app_nil_r|].
    destruct k as [|d k]; [right; left; exists []; by rewrite !app_nil_r|].
    right. right. by exists (d :: k), (c :: k').
  - left. by exists k'.
Qed.

(** A string that contains a pattern contains its units. *)
Lemma occurs_elem p s c : occurs false p s = true → c ∈ p → c ∈ s.
Proof.
  unfold occurs. destruct (find false p s) as [i|] eqn:E; [|done]. intros _ Hc.
  apply find_Some in E as (E & _). apply is_some_true in E as [[m r] E].
  apply strip_prefix_exact in E as [-> E]. rewrite <-(take_drop i s), E. set_solver.
Qed.

Lemma includes_absent p s c : c ∈ p → c ∉ s → includes p s = false.
Proof.
  intros Hp Hs. destruct (includes p s) eqn:E; [|done].
  destruct Hs. by apply (occurs_elem p).
Qed.

(** White space alone trims to the empty string. *)
Lemma trim_blank w : all_b is_space w = true → trim w = [].
Proof.
  intros H. unfold trim, trimStart. rewrite <-(app_nil_r w).
  by rewrite drop_while_app_all.
Qed.

(** A pattern does not start inside [x] when one of its units, at offset
    [i], is absent from [x] and from the units of the pattern before it. *)
Lemma no_start_before p x y i c :
  p !! i = Some c → c ∉ x → c ∉ take i p →
  ∀ j, j < length x → startsWith p (drop j (x ++ p ++ y)) = false.
Proof.
  intros Hp Hx Hpre j Hj. destruct (startsWith p _) eqn:E; [|done]. exfalso.
  pose proof (startsWith_lookup _ _ _ _ E Hp) as Hl. rewrite lookup_drop in Hl.
  destruct (decide (j + i < length x)) as [Hlt|Hge].
  - rewrite lookup_app_l in Hl by done. apply Hx. by eapply list_elem_of_lookup_2.
  - rewrite lookup_app_r in Hl by lia. apply lookup_lt_Some in Hp as Hi.
    rewrite lookup_app_l in Hl by lia.
    apply Hpre. apply list_elem_of_lookup. exists (j + i - length x).
    rewrite lookup_take_lt by lia. done.
Qed.

#[export] Hint Rewrite trim_idemp trim_nil substring_full : jsrw.
#[export] Hint Resolve trim_trimmed length_trim : js.
