(* ===== verification/Regex.v ===== *)
(** * Regex: the regular expressions of the sources

    The fragment of ECMAScript regular expressions that
    src/app/api/fetch-notion/route.ts and src/app/actions/notion.ts use:
    a sequence of items, each a literal, a quantified single-character
    class (greedy or lazy, with a minimal count) or an optional literal.
    [exec_items] is the backtracking matcher at one position, [Matches]
    its declarative specification and [better] the priority order of
    ECMAScript's backtracking; [search] finds the leftmost match as
    String.prototype.match and RegExp.prototype.exec do, [replace_all] is
    String.prototype.replace with a global regular expression. *)

From stdpp Require Import prelude list numbers strings.
From Stdlib Require Import Lia.
From S2P Require Import Prelude JsString.

Set Warnings "-clear-no-such-hyp".

(** * Syntax *)

(** The character classes of the sources. *)
Inductive cls :=
| AnyChar                 (* [\s\S] *)
| Dot                     (* .      : any unit but a line terminator *)
| Space                   (* \s *)
| NotChar (c : char).     (* [^c] *)

Inductive item :=
| Lit (p : str)                            (* the literal p *)
| Rep (greedy : bool) (min : nat) (k : cls) (* k*, k+, k*?, k+? *)
| Opt (p : str).                           (* (p)? *)

(** A regular expression: its [i] flag, its items and, for each capture
    group in order, the index of the item the group encloses. *)
Record regex := Regex {
  rx_ci : bool;
  rx_items : list item;
  rx_groups : list nat;
}.

#[export] Instance cls_eq_dec : EqDecision cls.
Proof. solve_decision. Defined.
#[export] Instance item_eq_dec : EqDecision item.
Proof. solve_decision. Defined.

Definition cls_test (k : cls) (c : char) : bool :=
  match k with
  | AnyChar => true
  | Dot => negb (is_line_terminator c)
  | Space => is_space c
  | NotChar x => negb (c =? x)%N
  end.

(** * The matcher *)

(** Stop iterating a quantified class: allowed once the minimal count is
    reached; the continuation [k] runs on what is left. *)
Definition rep_stop (k : str → option (list str)) (min : nat) (s : str)
    : option (str * list str) :=
  match min with
  | 0 => (λ r, ([], r)) <$> k s
  | S _ => None
  end.

(** [rep test k g min s]: consume units of class [test] from [s], at least
    [min] of them, then run the continuation [k] on what is left; a greedy
    quantifier tries one more unit before it tries to stop, a lazy one
    tries to stop first.  The result is the segment consumed and the
    segments of the continuation. *)
Fixpoint rep (test : char → bool) (k : str → option (list str))
    (g : bool) (min : nat) (s : str) : option (str * list str) :=
  let more (_ : unit) :=
    match s with
    | c :: s' =>
        if test c
        then (λ tr, (c :: tr.1, tr.2)) <$> rep test k g (pred min) s'
        else None
    | [] => None
    end in
  if g then more () <|> rep_stop k min s else rep_stop k min s <|> more ().

(** Iterate once more: the body of [rep] that consumes a unit. *)
Definition rep_more (test : char → bool) (k : str → option (list str))
    (g : bool) (min : nat) (s : str) : option (str * list str) :=
  match s with
  | c :: s' =>
      if test c then (λ tr, (c :: tr.1, tr.2)) <$> rep test k g (pred min) s' else None
  | [] => None
  end.

(** Match the literal [p] (up to case when [ci]), then run [k]. *)
Definition lit_step (ci : bool) (p : str) (k : str → option (list str)) (s : str)
    : option (list str) :=
  match strip_prefix ci p s with
  | Some (m, s') => cons m <$> k s'
  | None => None
  end.

(** [exec_items ci r s]: match the items [r] at the start of [s]; one
    segment of [s] per item. *)
Fixpoint exec_items (ci : bool) (r : list item) : str → option (list str) :=
  match r with
  | [] => λ _, Some []
  | Lit p :: r' => lit_step ci p (exec_items ci r')
  | Rep g min k :: r' => λ s,
      (λ tr, tr.1 :: tr.2) <$> rep (cls_test k) (exec_items ci r') g min s
  | Opt p :: r' => λ s,
      lit_step ci p (exec_items ci r') s <|> (cons [] <$> exec_items ci r' s)
  end.

Definition exec_at (re : regex) (s : str) : option (list str) :=
  exec_items (rx_ci re) (rx_items re) s.

(** A match: what precedes it, its segments, what follows it. *)
Record found := Found {
  f_pre : str;
  f_segs : list str;
  f_post : str;
}.

Definition f_text (m : found) : str := concat (f_segs m).

Definition shift (c : char) (m : found) : found :=
  Found (c :: f_pre m) (f_segs m) (f_post m).

(** [search re s]: the match at the least index of [s], if any. *)
Fixpoint search (re : regex) (s : str) : option found :=
  match exec_at re s with
  | Some segs => Some (Found [] segs (drop (length (concat segs)) s))
  | None =>
      match s with
      | [] => None
      | c :: s' => shift c <$> search re s'
      end
  end.

(** Capture group [n] (from 1) of a match; the empty string for a group
    that does not exist. *)
Definition group (re : regex) (n : nat) (segs : list str) : str :=
  match rx_groups re !! (n - 1) with
  | Some i => default [] (segs !! i)
  | None => []
  end.

(** [s.match(re)[1]] for a regular expression without the global flag. *)
Definition match1 (re : regex) (s : str) : option str :=
  (λ m, group re 1 (f_segs m)) <$> search re s.

(** * Replacement *)

(** A replacement string: literal text and references [$n]. *)
Inductive rpart :=
| RText (t : str)
| RGroup (n : nat).

Definition expand (re : regex) (tpl : list rpart) (segs : list str) : str :=
  concat ((λ p, match p with RText t => t | RGroup n => group re n segs end) <$> tpl).

(** One iteration of the loop of String.prototype.replace with a global
    regular expression: find the next match, emit what precedes it and its
    replacement, go on after it with [rest]; after an empty match, copy one
    unit and go on behind it. *)
Definition replace_step (re : regex) (tpl : list rpart) (rest : str → str)
    (s : str) : str :=
  match search re s with
  | None => s
  | Some m =>
      f_pre m ++ expand re tpl (f_segs m) ++
      match f_text m, f_post m with
      | [], c :: post' => c :: rest post'
      | [], [] => []
      | _ :: _, post => rest post
      end
  end.

Fixpoint replace_fuel (n : nat) (re : regex) (tpl : list rpart) (s : str) : str :=
  match n with
  | 0 => s
  | S n' => replace_step re tpl (replace_fuel n' re tpl) s
  end.

Definition replace_all (re : regex) (tpl : list rpart) (s : str) : str :=
  replace_fuel (S (length s)) re tpl s.

(** * Specification *)

Definition lit_ok (ci : bool) (p t : str) : Prop :=
  Forall2 (λ a c, char_eqb ci a c = true) p t.

(** The segments an item may consume. *)
Definition item_ok (ci : bool) (it : item) (t : str) : Prop :=
  match it with
  | Lit p => lit_ok ci p t
  | Rep _ min k => min ≤ length t ∧ all_b (cls_test k) t = true
  | Opt p => t = [] ∨ lit_ok ci p t
  end.

(** [segs] decomposes a prefix of [s] along the items [r]. *)
Definition Matches (ci : bool) (r : list item) (s : str) (segs : list str) : Prop :=
  Forall2 (item_ok ci) r segs ∧ ∃ rest, s = concat segs ++ rest.

(** The choice a backtracking matcher makes first at one item. *)
Definition prefer (it : item) (t t' : str) : Prop :=
  match it with
  | Lit _ => False
  | Rep true _ _ => length t' < length t
  | Rep false _ _ => length t < length t'
  | Opt _ => t ≠ [] ∧ t' = []
  end.

(** The order of backtracking on whole decompositions: the first item at
    which they differ decides. *)
Inductive better : list item → list str → list str → Prop :=
| better_here it r t t' segs segs' :
    prefer it t t' → better (it :: r) (t :: segs) (t' :: segs')
| better_later it r t segs segs' :
    better r segs segs' → better (it :: r) (t :: segs) (t :: segs').

(** * Examples *)

Example exec_greedy_backtracks :
  exec_items false [Rep true 0 (NotChar 62); Lit (lit "src="); Rep true 1 (NotChar 32)]
    (lit " src=a src=b c>") = Some [lit " src=a "; lit "src="; lit "b"].
Proof. reflexivity. Qed.

Example exec_lazy_stops_early :
  exec_items true [Lit (lit "<b>"); Rep false 0 AnyChar; Lit (lit "</b>")]
    (lit "<B>x</b>y</b>") = Some [lit "<B>"; lit "x"; lit "</b>"].
Proof. reflexivity. Qed.

Example replace_all_empty_matches :
  replace_all (Regex false [Rep true 0 (NotChar 98)] []) [RText (lit "-")] (lit "aab")
  = lit "--b-".
Proof. reflexivity. Qed.

(** * The quantifier loop *)

Section RepFacts.
Context (test : char → bool) (k : str → option (list str)).

#[local] Arguments rep_more : simpl never.
#[local] Arguments rep_stop : simpl never.

Lemma rep_unfold g min s :
  rep test k g min s =
  if g then rep_more test k g min s <|> rep_stop k min s
  else rep_stop k min s <|> rep_more test k g min s.
Proof. by destruct s. Qed.

Lemma rep_stop_Some min s t segs :
  rep_stop k min s = Some (t, segs) ↔ min = 0 ∧ t = [] ∧ k s = Some segs.
Proof.
  unfold rep_stop. destruct min; [|naive_solver].
  destruct (k s); simpl; naive_solver.
Qed.

Lemma rep_stop_None min s : rep_stop k min s = None ↔ (min = 0 → k s = None).
Proof.
  unfold rep_stop. destruct min; [|naive_solver].
  destruct (k s); simpl; naive_solver.
Qed.

Lemma rep_more_Some g min s t segs :
  rep_more test k g min s = Some (t, segs) ↔
  ∃ c s' t', s = c :: s' ∧ t = c :: t' ∧ test c = true ∧
             rep test k g (pred min) s' = Some (t', segs).
Proof.
  unfold rep_more. split.
  - destruct s as [|c s']; [done|]. destruct (test c) eqn:E; [|done].
    intros ([t' r] & Hr & [= -> ->])%fmap_Some_inv. by exists c, s', t'.
  - intros (c & s' & t' & -> & -> & -> & ->). done.
Qed.

Lemma rep_more_None g min s :
  rep_more test k g min s = None ↔
  ∀ c s', s = c :: s' → test c = true → rep test k g (pred min) s' = None.
Proof.
  unfold rep_more. split.
  - destruct s as [|c s']; [done|]. intros H c' s'' [= <- <-] Hc.
    rewrite Hc in H. by apply fmap_None in H.
  - destruct s as [|c s']; [done|]. intros H. destruct (test c) eqn:E; [|done].
    by rewrite (H c s').
Qed.

Lemma rep_Some g min s t segs :
  rep test k g min s = Some (t, segs) →
  ∃ s', s = t ++ s' ∧ all_b test t = true ∧ min ≤ length t ∧ k s' = Some segs.
Proof.
  revert min t. induction s as [|c s IH]; intros min t; rewrite rep_unfold.
  - destruct g; intros H; opt_inv;
      repeat match goal with
      | H : rep_stop _ _ _ = Some _ |- _ => apply rep_stop_Some in H as (-> & -> & ?)
      | H : rep_more _ _ _ _ _ = Some _ |- _ => apply rep_more_Some in H as (?&?&?&?&?); simplify_eq
      end; exists []; split_and!; done.
  - intros H.
    assert (rep_stop k min (c :: s) = Some (t, segs) ∨ rep_more test k g min (c :: s) = Some (t, segs)) as [Hs|Hm].
    { destruct g; opt_inv; auto. }
    + apply rep_stop_Some in Hs as (-> & -> & ?). exists (c :: s). split_and!; done.
    + apply rep_more_Some in Hm as (c' & s' & t' & ? & -> & Hc & Hr). simplify_eq.
      apply IH in Hr as (s'' & -> & Ht & Hmin & Hk). exists s''.
      split_and!; [done|simpl; by rewrite Hc|simpl; lia|done].
Qed.

Lemma rep_None g min s :
  rep test k g min s = None →
  ∀ t s', s = t ++ s' → all_b test t = true → min ≤ length t → k s' = None.
Proof.
  revert min. induction s as [|c s IH]; intros min; rewrite rep_unfold; intros H t s' Hs Ht Hmin.
  - destruct t; [|done]. simpl in *. subst s'.
    assert (rep_stop k min [] = None) as Hstop by (destruct g; by opt_inv).
    apply rep_stop_None in Hstop; [done|lia].
  - assert (rep_stop k min (c :: s) = None ∧ rep_more test k g min (c :: s) = None) as [Hstop Hmore].
    { destruct g; by opt_inv. }
    destruct t as [|c' t]; simpl in *.
    + subst s'. apply rep_stop_None in Hstop; [done|lia].
    + injection Hs as <- ->. apply andb_true_iff in Ht as [Hc Ht].
      eapply (IH (pred min)); [|done|done|lia].
      by eapply rep_more_None in Hmore.
Qed.

Lemma rep_prefers g min s t segs :
  rep test k g min s = Some (t, segs) →
  ∀ t' s', s = t' ++ s' → all_b test t' = true → min ≤ length t' → is_Some (k s') →
  if g then length t' ≤ length t else length t ≤ length t'.
Proof.
  revert min t. induction s as [|c s IH]; intros min t; rewrite rep_unfold; intros H t' s' Hs Ht' Hmin Hk.
  - rewrite <-rep_unfold in H. apply rep_Some in H as (s0 & Hs0 & _).
    symmetry in Hs0. apply app_eq_nil in Hs0 as [-> _].
    destruct t'; [|done]. destruct g; simpl; lia.
  - destruct g.
    + apply orelse_Some in H as [Hm|[Hm Hs0]].
      * apply rep_more_Some in Hm as (c' & s0 & t0 & ? & -> & Hc & Hr). simplify_eq.
        destruct t' as [|c1 t']; simpl in *; [lia|]. injection Hs as <- ->.
        apply andb_true_iff in Ht' as [_ Ht'].
        specialize (IH _ _ Hr t' s' eq_refl Ht' ltac:(lia) Hk). simpl in IH. lia.
      * apply rep_stop_Some in Hs0 as (-> & -> & Hk0).
        destruct t' as [|c1 t']; simpl in *; [lia|]. injection Hs as <- ->.
        apply andb_true_iff in Ht' as [Hc Ht'].
        eapply rep_more_None in Hm; [|done|done].
        eapply rep_None in Hm; [|done|done|simpl; lia].
        rewrite Hm in Hk. by destruct Hk.
    + apply orelse_Some in H as [Hs0|[Hs0 Hm]].
      * apply rep_stop_Some in Hs0 as (-> & -> & Hk0). simpl. lia.
      * apply rep_more_Some in Hm as (c' & s0 & t0 & ? & -> & Hc & Hr). simplify_eq.
        destruct t' as [|c1 t']; simpl in *.
        -- subst s'. apply rep_stop_None in Hs0; [|lia]. rewrite Hs0 in Hk. by destruct Hk.
        -- injection Hs as <- ->. apply andb_true_iff in Ht' as [_ Ht'].
           specialize (IH _ _ Hr t' s' eq_refl Ht' ltac:(lia) Hk). simpl in IH. lia.
Qed.
End RepFacts.


#[local] Arguments rep : simpl never.

Lemma Matches_nil ci s segs : Matches ci [] s segs ↔ segs = [].
Proof.
  unfold Matches. split.
  - intros [H _]. by inversion H.
  - intros ->. split; [constructor|by exists s].
Qed.

Lemma Matches_cons ci it r s segs0 :
  Matches ci (it :: r) s segs0 ↔
  ∃ t segs s', segs0 = t :: segs ∧ s = t ++ s' ∧ item_ok ci it t ∧ Matches ci r s' segs.
Proof.
  unfold Matches. split.
  - intros [H [rest ->]]. inversion H as [|? t ? segs Ht Hsegs]; subst.
    exists t, segs, (concat segs ++ rest). simpl. rewrite <-app_assoc. eauto 10.
  - intros (t & segs & s' & -> & -> & Ht & Hsegs & rest & ->).
    split; [by constructor|]. exists rest. simpl. by rewrite <-app_assoc.
Qed.

Lemma lit_ok_length ci p t : lit_ok ci p t → length t = length p.
Proof. intros H. symmetry. by eapply Forall2_length. Qed.

Lemma strip_prefix_None ci p s :
  strip_prefix ci p s = None → ∀ t s', s = t ++ s' → ¬ lit_ok ci p t.
Proof.
  intros H t s' -> Hok.
  by rewrite (proj2 (strip_prefix_Some ci p (t ++ s') t s') (conj eq_refl Hok)) in H.
Qed.

Lemma lit_step_Some ci p k s segs0 :
  lit_step ci p k s = Some segs0 ↔
  ∃ t segs s', segs0 = t :: segs ∧ s = t ++ s' ∧ lit_ok ci p t ∧ k s' = Some segs.
Proof.
  unfold lit_step. split.
  - destruct (strip_prefix ci p s) as [[m s']|] eqn:E; [|done].
    intros (segs & Hk & ->)%fmap_Some_inv.
    apply strip_prefix_Some in E as [-> Hm]. by exists m, segs, s'.
  - intros (t & segs & s' & -> & -> & Ht & Hk).
    rewrite (proj2 (strip_prefix_Some ci p (t ++ s') t s') (conj eq_refl Ht)).
    by rewrite Hk.
Qed.

Lemma lit_step_None ci p k s :
  lit_step ci p k s = None ↔
  ∀ t s', s = t ++ s' → lit_ok ci p t → k s' = None.
Proof.
  unfold lit_step. split.
  - destruct (strip_prefix ci p s) as [[m s0]|] eqn:E.
    + intros Hk%fmap_None t s' -> Ht.
      apply strip_prefix_Some in E as [E Hm].
      apply app_inj_1 in E as [-> ->]; [done|].
      by rewrite (lit_ok_length _ _ _ Ht), (lit_ok_length _ _ _ Hm).
    + intros _ t s' Hs Ht. by destruct (strip_prefix_None _ _ _ E _ _ Hs).
  - intros H. destruct (strip_prefix ci p s) as [[m s0]|] eqn:E; [|done].
    apply strip_prefix_Some in E as [-> Hm]. by rewrite (H m s0).
Qed.

Lemma exec_items_cons ci it r s :
  exec_items ci (it :: r) s =
  match it with
  | Lit p => lit_step ci p (exec_items ci r) s
  | Rep g min k => (λ tr, tr.1 :: tr.2) <$> rep (cls_test k) (exec_items ci r) g min s
  | Opt p => lit_step ci p (exec_items ci r) s <|> (cons [] <$> exec_items ci r s)
  end.
Proof. by destruct it. Qed.

(** Soundness: what the matcher returns decomposes a prefix of the subject
    along the items. *)
Lemma exec_items_sound ci r s segs :
  exec_items ci r s = Some segs → Matches ci r s segs.
Proof.
  revert s segs. induction r as [|it r IH]; intros s segs.
  { intros [= <-]. by apply Matches_nil. }
  rewrite exec_items_cons, Matches_cons. destruct it as [p|g min k|p].
  - intros (t & segs' & s' & -> & -> & Ht & Hk)%lit_step_Some. eauto 10.
  - intros ([t segs'] & (s' & -> & Ht & Hmin & Hk)%rep_Some & ->)%fmap_Some_inv.
    exists t, segs', s'. simpl. eauto 10.
  - intros [H|[_ H]]%orelse_Some.
    + apply lit_step_Some in H as (t & segs' & s' & -> & -> & Ht & Hk).
      exists t, segs', s'. simpl. eauto 10.
    + apply fmap_Some_inv in H as (segs' & Hk & ->).
      exists [], segs', s. simpl. eauto 10.
Qed.

Lemma exec_items_None ci r s segs :
  exec_items ci r s = None → ¬ Matches ci r s segs.
Proof.
  revert s segs. induction r as [|it r IH]; intros s segs; [done|].
  rewrite exec_items_cons, Matches_cons.
  intros H (t & segs' & s' & -> & -> & Ht & Hm).
  assert (exec_items ci r s' = None → False) as Hne by (intros; by eapply IH).
  destruct it as [p|g min k|p]; simpl in Ht.
  - eapply lit_step_None in H; eauto.
  - apply fmap_None in H. destruct Ht as [Hmin Ht].
    eapply rep_None in H; eauto.
  - apply orelse_None in H as [H1 H2]. apply fmap_None in H2.
    destruct Ht as [->|Ht]; [by apply Hne|].
    eapply lit_step_None in H1; eauto.
Qed.

(** Completeness: the matcher succeeds whenever some decomposition
    exists. *)
Lemma exec_items_complete ci r s segs :
  Matches ci r s segs → is_Some (exec_items ci r s).
Proof.
  intros H. destruct (exec_items ci r s) eqn:E; [eauto|].
  by destruct (exec_items_None _ _ _ _ E H).
Qed.

Lemma better_cons_eq it r t segs segs' :
  segs' = segs ∨ better r segs segs' →
  t :: segs' = t :: segs ∨ better (it :: r) (t :: segs) (t :: segs').
Proof. intros [->|H]; [by left|right; by constructor]. Qed.

Lemma same_length_split {A} (t t' s s' : list A) :
  t ++ s = t' ++ s' → length t = length t' → t = t' ∧ s = s'.
Proof. intros. by apply app_inj_1. Qed.

(** Priority: no decomposition is preferred to the one the matcher
    returns. *)
Lemma exec_items_best ci r s segs segs' :
  exec_items ci r s = Some segs → Matches ci r s segs' →
  segs' = segs ∨ better r segs segs'.
Proof.
  revert s segs segs'. induction r as [|it r IH]; intros s segs segs0.
  { intros [= <-] ->%Matches_nil. by left. }
  rewrite exec_items_cons, Matches_cons.
  intros H (t' & segs' & s' & -> & -> & Ht' & Hm').
  pose proof (exec_items_complete _ _ _ _ Hm') as Hk'.
  assert (∀ t s1 segs1, t ++ s1 = t' ++ s' → length t = length t' →
            exec_items ci r s1 = Some segs1 →
            t' :: segs' = t :: segs1 ∨ better (it :: r) (t :: segs1) (t' :: segs')) as Hsame.
  { intros t s1 segs1 Hs Hl Hk. apply same_length_split in Hs as [-> ->]; [|done].
    apply better_cons_eq. eauto. }
  destruct it as [p|g min k|p]; simpl in Ht'.
  - apply lit_step_Some in H as (t & segs1 & s1 & -> & Hs & Ht & Hk).
    eapply Hsame; eauto. by rewrite (lit_ok_length _ _ _ Ht), (lit_ok_length _ _ _ Ht').
  - apply fmap_Some_inv in H as ([t segs1] & Hr & ->). simpl. destruct Ht' as [Hmin Ht'].
    pose proof (rep_prefers _ _ _ _ _ _ _ Hr t' s' eq_refl Ht' Hmin Hk') as Hp.
    apply rep_Some in Hr as (s1 & Hs & _ & _ & Hk).
    destruct (decide (length t = length t')) as [Heq|Hne]; [by eapply Hsame|].
    right. constructor. destruct g; simpl; lia.
  - apply orelse_Some in H as [H|[Hnone H]].
    + apply lit_step_Some in H as (t & segs1 & s1 & -> & Hs & Ht & Hk).
      destruct Ht' as [->|Ht'].
      * destruct t as [|c t]; [by eapply Hsame|]. right. by constructor.
      * eapply Hsame; eauto. by rewrite (lit_ok_length _ _ _ Ht), (lit_ok_length _ _ _ Ht').
    + apply fmap_Some_inv in H as (segs1 & Hk & ->).
      destruct Ht' as [->|Ht']; [by eapply (Hsame [])|].
      eapply lit_step_None in Hnone; eauto. rewrite Hnone in Hk'. by destruct Hk'.
Qed.

Lemma prefer_irrefl it t : ¬ prefer it t t.
Proof. destruct it as [|[]|]; simpl; [tauto|lia|lia|]. by intros [? ?]. Qed.

Lemma prefer_asym it t t' : prefer it t t' → ¬ prefer it t' t.
Proof. destruct it as [|[]|]; simpl; [tauto|lia|lia|]. by intros [? ->] [? _]. Qed.

Lemma better_asym r segs segs' : better r segs segs' → ¬ better r segs' segs.
Proof.
  induction 1 as [it r t t' segs segs' Hp|it r t segs segs' Hb IH]; inversion 1; subst.
  - by eapply prefer_asym.
  - by eapply prefer_irrefl.
  - by eapply prefer_irrefl.
  - done.
Qed.

(** * Leftmost search *)

Section Search.
Context (re : regex).

Lemma exec_at_split s segs :
  exec_at re s = Some segs → s = concat segs ++ drop (length (concat segs)) s.
Proof.
  intros [_ [rest ->]]%exec_items_sound. by rewrite drop_app_length.
Qed.

Lemma search_unfold s :
  search re s =
  match exec_at re s with
  | Some segs => Some (Found [] segs (drop (length (concat segs)) s))
  | None => match s with [] => None | c :: s' => shift c <$> search re s' end
  end.
Proof. by destruct s. Qed.

Lemma search_Some s m :
  search re s = Some m →
  s = f_pre m ++ f_text m ++ f_post m ∧
  exec_at re (f_text m ++ f_post m) = Some (f_segs m) ∧
  ∀ j, j < length (f_pre m) → exec_at re (drop j s) = None.
Proof.
  revert m. induction s as [|c s IH]; intros m; rewrite search_unfold;
    destruct (exec_at re _) as [segs|] eqn:E; try done.
  1,2: intros [= <-]; unfold f_text; cbn [f_pre f_segs f_post app length];
    split_and!; [by apply exec_at_split|by rewrite <-exec_at_split|lia].
  intros (m' & (H1 & H2 & H3)%IH & ->)%fmap_Some_inv. unfold f_text in *.
  cbn [shift f_pre f_segs f_post]. split_and!; [by rewrite H1 at 1|done|].
  intros [|j] Hj; [done|]. apply H3. simpl in Hj. lia.
Qed.

Lemma search_None s :
  search re s = None ↔ ∀ j, j ≤ length s → exec_at re (drop j s) = None.
Proof.
  induction s as [|c s IH]; rewrite search_unfold;
    destruct (exec_at re _) as [segs|] eqn:E.
  1,3: split; [done|]; intros H; specialize (H 0 ltac:(lia)); simpl in H; congruence.
  - split; [|done]. intros _ j _. by rewrite drop_nil.
  - rewrite fmap_None, IH. split.
    + intros H [|j] Hj; [done|]. apply H. simpl in Hj. lia.
    + intros H j Hj. apply (H (S j)). simpl. lia.
Qed.

(** The match is found behind a prefix at which nothing matches. *)
Lemma search_at pre s segs :
  (∀ j, j < length pre → exec_at re (drop j (pre ++ s)) = None) →
  exec_at re s = Some segs →
  search re (pre ++ s) = Some (Found pre segs (drop (length (concat segs)) s)).
Proof.
  intros Hpre Hs. induction pre as [|c pre IH]; rewrite search_unfold.
  - simpl. by rewrite Hs.
  - pose proof (Hpre 0 ltac:(simpl; lia)) as H0. rewrite drop_0 in H0.
    rewrite H0. simpl. rewrite IH; [done|].
    intros j Hj. apply (Hpre (S j)). simpl. lia.
Qed.

Lemma search_length s m :
  search re s = Some m → length s = length (f_pre m) + length (f_text m) + length (f_post m).
Proof. intros (H & _)%search_Some. rewrite H at 1. rewrite !length_app. lia. Qed.
End Search.

Section Replace.
Context (re : regex) (tpl : list rpart).

Lemma replace_fuel_S n s :
  replace_fuel (S n) re tpl s = replace_step re tpl (replace_fuel n re tpl) s.
Proof. done. Qed.

Lemma replace_step_ext (f g : str → str) s :
  (∀ s', length s' < length s → f s' = g s') → replace_step re tpl f s = replace_step re tpl g s.
Proof.
  intros H. unfold replace_step. destruct (search re s) as [m|] eqn:E; [|done].
  apply search_length in E. do 2 f_equal.
  destruct (f_text m) eqn:Et, (f_post m) eqn:Ep; simpl in *; try done.
  all: rewrite ?Et, ?Ep in E; simpl in E.
  all: try f_equal; apply H; simpl; lia.
Qed.

Lemma replace_fuel_irrel n m s :
  length s < n → length s < m → replace_fuel n re tpl s = replace_fuel m re tpl s.
Proof.
  revert m s. induction n as [|n IH]; intros [|m] s Hn Hm; try lia.
  rewrite !replace_fuel_S. apply replace_step_ext. intros s' Hs'. apply IH; lia.
Qed.

Lemma replace_fuel_enough n s :
  length s < n → replace_fuel n re tpl s = replace_all re tpl s.
Proof. intros. apply replace_fuel_irrel; lia. Qed.

(** The loop equation of [replace_all]. *)
Lemma replace_all_unfold s :
  replace_all re tpl s = replace_step re tpl (replace_all re tpl) s.
Proof.
  unfold replace_all at 1. rewrite replace_fuel_S. apply replace_step_ext.
  intros s' Hs'. by apply replace_fuel_enough.
Qed.

Lemma replace_all_nomatch s : search re s = None → replace_all re tpl s = s.
Proof. intros H. rewrite replace_all_unfold. unfold replace_step. by rewrite H. Qed.

(** The replacement at the first match, when nothing matches before it
    and the match is not empty. *)
Lemma replace_all_at pre s segs :
  (∀ j, j < length pre → exec_at re (drop j (pre ++ s)) = None) →
  exec_at re s = Some segs → concat segs ≠ [] →
  replace_all re tpl (pre ++ s)
  = pre ++ expand re tpl segs ++ replace_all re tpl (drop (length (concat segs)) s).
Proof.
  intros Hpre Hs Hne. rewrite replace_all_unfold. unfold replace_step.
  rewrite (search_at _ _ _ _ Hpre Hs). unfold f_text. cbn [f_pre f_segs f_post].
  by destruct (concat segs).
Qed.

(** Induction along the loop of a global replace whose matches are not
    empty: a relation between subject and result holds when it holds for
    a subject without a match and is kept by the replacement of the
    first match. *)
Lemma replace_all_ind (P : str → str → Prop) :
  (∀ s m, search re s = Some m → f_text m ≠ []) →
  (∀ s, search re s = None → P s s) →
  (∀ s m out, search re s = Some m → P (f_post m) out →
     P s (f_pre m ++ expand re tpl (f_segs m) ++ out)) →
  ∀ s, P s (replace_all re tpl s).
Proof.
  intros Hne Hnone Hstep s. remember (length s) as n eqn:Hn. revert s Hn.
  induction (lt_wf n) as [n _ IH]. intros s ->. rewrite replace_all_unfold.
  unfold replace_step. destruct (search re s) as [m|] eqn:E; [|by apply Hnone].
  pose proof (Hne _ _ E) as Ht. pose proof (search_length _ _ _ E) as Hl.
  destruct (f_text m) as [|c t] eqn:Et; [done|]. apply Hstep; [done|].
  eapply IH; [|done]. simpl in Hl. lia.
Qed.

Lemma replace_all_nil : replace_all re tpl [] = match exec_at re [] with
                                                 | Some segs => expand re tpl segs
                                                 | None => []
                                                 end.
Proof.
  rewrite replace_all_unfold. unfold replace_step. simpl.
  destruct (exec_at re []) as [segs|] eqn:E; [|done]. simpl.
  apply exec_at_split in E. unfold f_text. simpl in *. rewrite drop_nil in *.
  rewrite app_nil_r in E. rewrite <-E. by rewrite app_nil_r.
Qed.
End Replace.

(** * Matching a subject of a known shape *)

Section RepRun.
Context (test : char → bool) (k : str → option (list str)).

Lemma rep_is_Some g min t s :
  all_b test t = true → min ≤ length t → is_Some (k s) →
  is_Some (rep test k g min (t ++ s)).
Proof.
  intros Ht Hmin [segs Hk]. destruct (rep test k g min (t ++ s)) eqn:E; [eauto|].
  eapply rep_None in E; [|done..]. congruence.
Qed.

(** A lazy quantifier stops at the first index where the rest matches. *)
Lemma rep_lazy_scan t s segs :
  all_b test t = true →
  (∀ j, j < length t → k (drop j (t ++ s)) = None) →
  k s = Some segs →
  rep test k false 0 (t ++ s) = Some (t, segs).
Proof.
  intros Ht Hj Hk.
  destruct (rep_is_Some false 0 t s Ht ltac:(lia) ltac:(eauto)) as [[t' segs'] Hr].
  pose proof (rep_prefers _ _ _ _ _ _ _ Hr t s eq_refl Ht ltac:(lia) ltac:(eauto)) as Hle.
  apply rep_Some in Hr as Hr'. destruct Hr' as (s' & Hs & _ & _ & Hk'). simpl in Hle.
  destruct (decide (length t' = length t)) as [Heq|Hne].
  - apply app_inj_1 in Hs as [-> ->]; [|lia]. rewrite Hr. congruence.
  - specialize (Hj (length t') ltac:(lia)). rewrite Hs, drop_app_length in Hj. congruence.
Qed.

(** A greedy quantifier takes the whole run when the rest matches behind
    it. *)
Lemma rep_greedy_run min t s segs :
  all_b test t = true → min ≤ length t →
  (∀ c s', s = c :: s' → test c = false) →
  k s = Some segs →
  rep test k true min (t ++ s) = Some (t, segs).
Proof.
  intros Ht Hmin Hstop Hk.
  destruct (rep_is_Some true min t s Ht Hmin ltac:(eauto)) as [[t' segs'] Hr].
  pose proof (rep_prefers _ _ _ _ _ _ _ Hr t s eq_refl Ht Hmin ltac:(eauto)) as Hle.
  apply rep_Some in Hr as Hr'. destruct Hr' as (s' & Hs & Ht' & _ & Hk'). simpl in Hle.
  destruct (decide (length t' = length t)) as [Heq|Hne].
  - apply app_inj_1 in Hs as [-> ->]; [|lia]. rewrite Hr. congruence.
  - exfalso. assert (t' = t ++ take (length t' - length t) s) as Ht'eq.
    { apply (f_equal (take (length t'))) in Hs.
      rewrite take_app_length, take_app_ge in Hs by lia. by symmetry. }
    destruct s as [|c s0]; [rewrite take_nil, app_nil_r in Ht'eq; subst; lia|].
    rewrite Ht'eq, all_b_app in Ht'. apply andb_true_iff in Ht' as [_ Ht'].
    destruct (length t' - length t) as [|n] eqn:En; [lia|]. simpl in Ht'.
    rewrite (Hstop c s0 eq_refl) in Ht'. done.
Qed.

(** What a lazy quantifier consumed is minimal: the rest matches at no
    earlier index at which it could have stopped. *)
Lemma rep_lazy_minimal min s t segs :
  rep test k false min s = Some (t, segs) →
  ∀ j, min ≤ j → j < length t → k (drop j s) = None.
Proof.
  intros Hr j Hmin Hj. destruct (k (drop j s)) as [segs'|] eqn:E; [exfalso|done].
  apply rep_Some in Hr as Hr'. destruct Hr' as (s' & -> & Ht & _ & _).
  assert (all_b test (take j t) = true) as Htj.
  { rewrite <-(take_drop j t), all_b_app in Ht. by apply andb_true_iff in Ht as [? _]. }
  pose proof (rep_prefers _ _ _ _ _ _ _ Hr (take j t) (drop j t ++ s')) as Hle.
  rewrite app_assoc, take_drop in Hle. rewrite drop_app_le in E by lia.
  specialize (Hle eq_refl Htj). rewrite length_take in Hle.
  specialize (Hle ltac:(lia) ltac:(eauto)). simpl in Hle. lia.
Qed.
End RepRun.

Section Literal.
Context (re : regex) (p : str) (r : list item) (Hre : rx_items re = Lit p :: r).

Lemma exec_at_lit s :
  exec_at re s = lit_step (rx_ci re) p (exec_items (rx_ci re) r) s.
Proof. unfold exec_at. by rewrite Hre. Qed.

Lemma exec_at_lit_None s : strip_prefix (rx_ci re) p s = None → exec_at re s = None.
Proof. intros H. rewrite exec_at_lit. unfold lit_step. by rewrite H. Qed.

(** No match without an occurrence of the leading literal. *)
Lemma search_lit_none s : occurs (rx_ci re) p s = false → search re s = None.
Proof.
  rewrite occurs_false, search_None. intros H j Hj. by apply exec_at_lit_None, H.
Qed.

(** The match is at the first occurrence of the leading literal when the
    rest matches there. *)
Lemma search_lit_at s i segs :
  find (rx_ci re) p s = Some i → exec_at re (drop i s) = Some segs →
  search re s = Some (Found (take i s) segs (drop (length (concat segs)) (drop i s))).
Proof.
  intros (_ & Hi & Hj)%find_Some He. rewrite <-(take_drop i s) at 1.
  apply search_at; [|done]. rewrite length_take. intros j Hlt.
  rewrite take_drop. apply exec_at_lit_None, Hj. lia.
Qed.
End Literal.

Section Shapes.
Context (ci : bool).

Lemma lit_ok_refl p : lit_ok ci p p.
Proof. induction p; constructor; auto using char_eqb_refl. Qed.

Lemma lit_ok_exact p t : lit_ok false p t → t = p.
Proof. induction 1 as [|?????%char_eqb_exact]; congruence. Qed.

Lemma lit_step_app p k m s :
  lit_ok ci p m → lit_step ci p k (m ++ s) = cons m <$> k s.
Proof.
  intros Hm. unfold lit_step.
  by rewrite (proj2 (strip_prefix_Some ci p (m ++ s) m s) (conj eq_refl Hm)).
Qed.

(** A pattern whose first unit matches no unit of [t] matches at no index
    inside [t]. *)
Lemma strip_prefix_absent_head a p t rest j :
  (∀ c, c ∈ t → char_eqb ci a c = false) → j < length t →
  strip_prefix ci (a :: p) (drop j (t ++ rest)) = None.
Proof.
  intros Ht Hj. destruct (lookup_lt_is_Some_2 t j Hj) as [c Hc].
  rewrite drop_app_le by lia. rewrite (drop_S t c j Hc). simpl.
  rewrite Ht; [done|]. by eapply list_elem_of_lookup_2.
Qed.

Lemma exec_lit p r m s :
  lit_ok ci p m →
  exec_items ci (Lit p :: r) (m ++ s) = cons m <$> exec_items ci r s.
Proof. intros. rewrite exec_items_cons. by apply lit_step_app. Qed.

Lemma exec_rep_lazy k r t s segs :
  all_b (cls_test k) t = true →
  (∀ j, j < length t → exec_items ci r (drop j (t ++ s)) = None) →
  exec_items ci r s = Some segs →
  exec_items ci (Rep false 0 k :: r) (t ++ s) = Some (t :: segs).
Proof. intros. rewrite exec_items_cons. by erewrite rep_lazy_scan. Qed.

Lemma exec_rep_greedy k r min t s segs :
  all_b (cls_test k) t = true → min ≤ length t →
  (∀ c s', s = c :: s' → cls_test k c = false) →
  exec_items ci r s = Some segs →
  exec_items ci (Rep true min k :: r) (t ++ s) = Some (t :: segs).
Proof. intros. rewrite exec_items_cons. by erewrite rep_greedy_run. Qed.

Lemma exec_lit_None_head a p r t rest j :
  (∀ c, c ∈ t → char_eqb ci a c = false) → j < length t →
  exec_items ci (Lit (a :: p) :: r) (drop j (t ++ rest)) = None.
Proof.
  intros. rewrite exec_items_cons. unfold lit_step.
  by rewrite strip_prefix_absent_head.
Qed.

(** The segment of a lazy quantifier followed by a last literal contains
    no occurrence of that literal. *)
Lemma exec_rep_lazy_minimal k min p s t segs :
  exec_items ci [Rep false min k; Lit p] s = Some (t :: segs) →
  ∀ j, min ≤ j → j < length t → strip_prefix ci p (drop j s) = None.
Proof.
  rewrite exec_items_cons. intros ([t' segs'] & Hr & [= <- <-])%fmap_Some_inv j Hmin Hj.
  pose proof (rep_lazy_minimal _ _ _ _ _ _ Hr j Hmin Hj) as Hk.
  simpl in Hk. unfold lit_step in Hk. by destruct (strip_prefix ci p (drop j s)) as [[]|].
Qed.

Lemma exec_items_cons_inv it r s segs0 :
  exec_items ci (it :: r) s = Some segs0 →
  ∃ t segs s', segs0 = t :: segs ∧ s = t ++ s' ∧ item_ok ci it t ∧
               exec_items ci r s' = Some segs.
Proof.
  rewrite exec_items_cons. destruct it as [p|g min k|p].
  - intros (t & segs & s' & -> & -> & Ht & Hk)%lit_step_Some. by exists t, segs, s'.
  - intros ([t segs] & (s' & -> & Ht & Hmin & Hk)%rep_Some & ->)%fmap_Some_inv.
    by exists t, segs, s'.
  - intros [H|[_ H]]%orelse_Some.
    + apply lit_step_Some in H as (t & segs & s' & -> & -> & Ht & Hk).
      exists t, segs, s'. simpl. eauto.
    + apply fmap_Some_inv in H as (segs & Hk & ->). exists [], segs, s. simpl. eauto.
Qed.

Lemma exec_items_nil_inv s segs : exec_items ci [] s = Some segs → segs = [].
Proof. by intros [= <-]. Qed.
End Shapes.

(** * The matcher implements the specification *)

(** C1: the backtracking matcher returns exactly the decomposition that
    the specification singles out: it decomposes a prefix of the subject
    along the items, and no other decomposition is preferred to it in the
    order of ECMAScript's backtracking (a greedy quantifier takes the
    longest segment that lets the rest match, a lazy one the shortest). *)
Theorem exec_items_spec (ci : bool) (r : list item) (s : str) (segs : list str) :
  exec_items ci r s = Some segs ↔
  Matches ci r s segs ∧
  ∀ segs', Matches ci r s segs' → segs' = segs ∨ better r segs segs'.
Proof.
  split.
  - intros H. split; [by apply exec_items_sound|]. intros. by eapply exec_items_best.
  - intros [Hm Hbest]. destruct (exec_items_complete _ _ _ _ Hm) as [segs0 H0].
    rewrite H0. f_equal.
    destruct (Hbest _ (exec_items_sound _ _ _ _ H0)) as [|Hb]; [done|].
    destruct (exec_items_best _ _ _ _ _ H0 Hm) as [|Hb']; [done|].
    by destruct (better_asym _ _ _ Hb).
Qed.

(** The matcher fails exactly when no decomposition of a prefix of
    the subject along the items exists: backtracking explores them all. *)
Lemma exec_items_fails (ci : bool) (r : list item) (s : str) :
  exec_items ci r s = None ↔ ∀ segs, ¬ Matches ci r s segs.
Proof.
  split; [intros H segs; by apply exec_items_None|].
  intros H. destruct (exec_items ci r s) as [segs|] eqn:E; [|done].
  by destruct (H segs (exec_items_sound _ _ _ _ E)).
Qed.

(** C16: [search] returns the leftmost match: the subject is what precedes
    the match, the matched text and what follows; the matcher succeeds at
    that index with these segments and fails at every smaller index. *)
Theorem search_leftmost (re : regex) (s : str) (m : found) :
  search re s = Some m ↔
  s = f_pre m ++ f_text m ++ f_post m ∧
  exec_at re (f_text m ++ f_post m) = Some (f_segs m) ∧
  ∀ j, j < length (f_pre m) → exec_at re (drop j s) = None.
Proof.
  split; [apply search_Some|]. intros (Hs & He & Hj). destruct m as [pre segs post].
  unfold f_text in *. simpl in *. rewrite Hs in *. rewrite (search_at re pre _ segs); [|done|done].
  rewrite drop_app_length. done.
Qed.

(** C17: the loop of a global replace terminates within its fuel: with any
    fuel above the length of the subject the result is that of
    [replace_all], which satisfies the loop equation. *)
Theorem replace_all_fuel_enough (re : regex) (tpl : list rpart) (n : nat) (s : str) :
  length s < n →
  replace_fuel n re tpl s = replace_all re tpl s ∧
  replace_all re tpl s = replace_step re tpl (replace_all re tpl) s.
Proof. intros. split; [by apply replace_fuel_enough|apply replace_all_unfold]. Qed.

Lemma replace_all_fuel_enough_witness :
  replace_fuel 9 (Regex false [Rep true 1 Space] []) [RText (lit "_")] (lit "a  b c")
  = replace_all (Regex false [Rep true 1 Space] []) [RText (lit "_")] (lit "a  b c") ∧
  replace_all (Regex false [Rep true 1 Space] []) [RText (lit "_")] (lit "a  b c")
  = replace_step (Regex false [Rep true 1 Space] []) [RText (lit "_")]
      (replace_all (Regex false [Rep true 1 Space] []) [RText (lit "_")]) (lit "a  b c").
Proof. apply replace_all_fuel_enough. simpl. lia. Defined.
