(* ===== verification/Types.v ===== *)
(** * Types: the data model of src/types/notion.ts

    [NotionPageData] is what an extraction yields, [ExportSettings] the
    configuration of one export.  The defaults and the partial update are
    those of src/components/notion-exporter.tsx.  A TypeScript [number] is
    a rational here. *)

From stdpp Require Import prelude list numbers strings.
From Stdlib Require Import QArith.
From S2P Require Import Prelude.

(** The [type] field of a page icon. *)
Inductive icon_kind := Emoji | Image.

#[export] Instance icon_kind_eq_dec : EqDecision icon_kind.
Proof. solve_decision. Defined.

(** Numbers are compared as fractions, numerator and denominator. *)
#[export] Instance Q_eq_dec : EqDecision Q.
Proof. solve_decision. Defined.

Record Icon := mkIcon {
  icon_type : icon_kind;
  icon_content : str;
}.

Record NotionPageData := mkPage {
  title : str;
  icon : option Icon;
  coverImage : option str;
  content : str;
  backgroundColor : option str;
  originalHtml : str;
  author : option str;
}.

Record ExportSettings := mkSettings {
  pageSize : str;
  margins : Q;
  preserveImages : bool;
  preserveFormatting : bool;
  smartPageBreaks : bool;
  includeIcon : bool;
  includeCover : bool;
  includeBackground : bool;
  fontScale : Q;
}.

(** [Partial<ExportSettings>]: every field may be absent. *)
Record PartialSettings := mkPartial {
  p_pageSize : option str;
  p_margins : option Q;
  p_preserveImages : option bool;
  p_preserveFormatting : option bool;
  p_smartPageBreaks : option bool;
  p_includeIcon : option bool;
  p_includeCover : option bool;
  p_includeBackground : option bool;
  p_fontScale : option Q;
}.

(** A value that JavaScript takes for true in a condition: a string that
    is present and not empty. *)
Definition truthy (o : option str) : bool :=
  match o with
  | Some (_ :: _) => true
  | _ => false
  end.

(** The initial state of [exportSettings]. *)
Definition defaultSettings : ExportSettings := {|
  pageSize := lit "a4";
  margins := 20;
  preserveImages := true;
  preserveFormatting := true;
  smartPageBreaks := true;
  includeIcon := true;
  includeCover := true;
  includeBackground := true;
  fontScale := 1;
|}.

Definition noChange : PartialSettings :=
  mkPartial None None None None None None None None None.

(** [{ ...exportSettings, ...newSettings }]: a field of the update wins
    when it is present. *)
Definition handleExportSettings (exportSettings : ExportSettings)
    (newSettings : PartialSettings) : ExportSettings := {|
  pageSize := default (pageSize exportSettings) (p_pageSize newSettings);
  margins := default (margins exportSettings) (p_margins newSettings);
  preserveImages := default (preserveImages exportSettings) (p_preserveImages newSettings);
  preserveFormatting :=
    default (preserveFormatting exportSettings) (p_preserveFormatting newSettings);
  smartPageBreaks := default (smartPageBreaks exportSettings) (p_smartPageBreaks newSettings);
  includeIcon := default (includeIcon exportSettings) (p_includeIcon newSettings);
  includeCover := default (includeCover exportSettings) (p_includeCover newSettings);
  includeBackground :=
    default (includeBackground exportSettings) (p_includeBackground newSettings);
  fontScale := default (fontScale exportSettings) (p_fontScale newSettings);
|}.

(** The update that carries every field of a settings object. *)
Definition total (s : ExportSettings) : PartialSettings := {|
  p_pageSize := Some (pageSize s);
  p_margins := Some (margins s);
  p_preserveImages := Some (preserveImages s);
  p_preserveFormatting := Some (preserveFormatting s);
  p_smartPageBreaks := Some (smartPageBreaks s);
  p_includeIcon := Some (includeIcon s);
  p_includeCover := Some (includeCover s);
  p_includeBackground := Some (includeBackground s);
  p_fontScale := Some (fontScale s);
|}.

(** Two updates in sequence as one update. *)
Definition after (first second : PartialSettings) : PartialSettings := {|
  p_pageSize := p_pageSize second <|> p_pageSize first;
  p_margins := p_margins second <|> p_margins first;
  p_preserveImages := p_preserveImages second <|> p_preserveImages first;
  p_preserveFormatting := p_preserveFormatting second <|> p_preserveFormatting first;
  p_smartPageBreaks := p_smartPageBreaks second <|> p_smartPageBreaks first;
  p_includeIcon := p_includeIcon second <|> p_includeIcon first;
  p_includeCover := p_includeCover second <|> p_includeCover first;
  p_includeBackground := p_includeBackground second <|> p_includeBackground first;
  p_fontScale := p_fontScale second <|> p_fontScale first;
|}.

(** * The partial update *)

Lemma handleExportSettings_noChange s : handleExportSettings s noChange = s.
Proof. by destruct s. Qed.

Lemma handleExportSettings_total s s' : handleExportSettings s (total s') = s'.
Proof. by destruct s'. Qed.

Lemma handleExportSettings_after s u v :
  handleExportSettings (handleExportSettings s u) v = handleExportSettings s (after u v).
Proof.
  unfold handleExportSettings, after. cbn. f_equal; apply default_orelse.
Qed.
