(* ===== verification/Dom.v ===== *)
(** * Dom: the document tree

    The part of the DOM that src/lib/pdf-generator.ts and
    src/app/actions/notion.ts work on: a node is a text or an element with
    a tag name, attributes, the declarations assigned through
    [element.style], and child nodes.  The operations are those the
    sources call: querySelectorAll with a list of tag names, the assignment
    of a style declaration to the elements found and their removal (on the
    temporary container of generatePDF); querySelector with a tag, class or
    attribute selector and an optional ancestor, getAttribute and
    textContent (on the parsed page).  Tag and attribute names are in lower
    case, as the HTML parser leaves them.  The HTML parser that builds the
    tree from a markup text is outside the model. *)

From stdpp Require Import prelude list strings.
From S2P Require Import Prelude JsString.

Section nested_ind.
#[local] Unset Elimination Schemes.

Inductive node :=
  | Text (data : str)
  | Element (tagName : string) (attributes : list (string * str))
      (style : list (string * str)) (childNodes : list node).

Variable P : node → Prop.
Hypothesis case_Text : ∀ data, P (Text data).
Hypothesis case_Element : ∀ tagName attributes style childNodes,
  Forall P childNodes → P (Element tagName attributes style childNodes).

Fixpoint node_ind (n : node) : P n :=
  match n with
  | Text data => case_Text data
  | Element t a s c =>
      case_Element t a s c
        ((fix fold (xs : list node) : Forall P xs :=
            match xs with
            | [] => List.Forall_nil _
            | x :: xs => List.Forall_cons _ x xs (node_ind x) (fold xs)
            end) c)
  end.
End nested_ind.

(** The elements of a tree, in document order. *)
Fixpoint elements (n : node) : list node :=
  match n with
  | Text _ => []
  | Element _ _ _ c => n :: concat (elements <$> c)
  end.

Definition tag_of (n : node) : option string :=
  match n with
  | Text _ => None
  | Element t _ _ _ => Some t
  end.

Definition style_of (n : node) : list (string * str) :=
  match n with
  | Text _ => []
  | Element _ _ s _ => s
  end.

(** Does the node match a selector that is a list of tag names? *)
Definition matches_tags (tags : list string) (n : node) : bool :=
  match n with
  | Text _ => false
  | Element t _ _ _ => bool_decide (t ∈ tags)
  end.

(** [container.querySelectorAll(tags)]: the descendants of the container
    that match, in document order. *)
Definition querySelectorAll (tags : list string) (children : list node) : list node :=
  filter (λ n, matches_tags tags n = true) (concat (elements <$> children)).

(** [found.forEach(e => e.style[k] = v)] for the elements a selector
    finds. *)
Fixpoint set_style (tags : list string) (k : string) (v : str) (n : node) : node :=
  match n with
  | Text d => Text d
  | Element t a s c =>
      Element t a (if bool_decide (t ∈ tags) then s ++ [(k, v)] else s)
        (set_style tags k v <$> c)
  end.

(** [found.forEach(e => e.remove())] for the elements a selector finds: a
    node becomes the list of nodes that replace it. *)
Fixpoint remove (tags : list string) (n : node) : list node :=
  match n with
  | Text d => [Text d]
  | Element t a s c =>
      if bool_decide (t ∈ tags) then []
      else [Element t a s (concat (remove tags <$> c))]
  end.

Definition remove_all (tags : list string) (children : list node) : list node :=
  concat (remove tags <$> children).

(** The tag names of the elements of a forest, in document order. *)
Definition tag_names (children : list node) : list string :=
  omap tag_of (concat (elements <$> children)).

(** * Queries on the parsed page *)

(** [n.getAttribute(k)] *)
Definition getAttribute (k : string) (n : node) : option str :=
  match n with
  | Text _ => None
  | Element _ a _ _ => snd <$> List.find (λ kv, bool_decide (kv.1 = k)) a
  end.

Definition children (n : node) : list node :=
  match n with
  | Text _ => []
  | Element _ _ _ c => c
  end.

(** [n.textContent]: the texts below the node, in document order. *)
Fixpoint textContent (n : node) : str :=
  match n with
  | Text d => d
  | Element _ _ _ c => concat (textContent <$> c)
  end.

(** ASCII white space, which separates the tokens of a class attribute. *)
Definition is_ascii_space (c : char) : bool :=
  bool_decide (c ∈ [9; 10; 12; 13; 32]%N).

(** The tokens of an attribute value; [cur] is the token being read, in
    reverse. *)
Fixpoint tokens_from (cur : str) (s : str) : list str :=
  match s with
  | [] => match cur with [] => [] | _ => [reverse cur] end
  | c :: s' =>
      if is_ascii_space c
      then match cur with
           | [] => tokens_from [] s'
           | _ => reverse cur :: tokens_from [] s'
           end
      else tokens_from (c :: cur) s'
  end.

Definition tokens (s : str) : list str := tokens_from [] s.

(** A selector without combinators: [tag], [.class] or [[k=v]]. *)
Inductive simple :=
  | ByTag (t : string)
  | ByClass (c : str)
  | ByAttr (k : string) (v : str).

(** A simple selector, or one below an ancestor: [anc sub]. *)
Record selector := Selector {
  sel_ancestor : option simple;
  sel_subject : simple;
}.

Definition matches_simple (s : simple) (n : node) : bool :=
  match s with
  | ByTag t => bool_decide (tag_of n = Some t)
  | ByClass c => bool_decide (c ∈ tokens (default [] (getAttribute "class" n)))
  | ByAttr k v => bool_decide (getAttribute k n = Some v)
  end.

(** The elements of a tree in document order, each with its ancestors,
    the nearest first. *)
Fixpoint walk (path : list node) (n : node) : list (list node * node) :=
  match n with
  | Text _ => []
  | Element _ _ _ c => (path, n) :: concat (walk (n :: path) <$> c)
  end.

Definition matches_selector (sel : selector) (pn : list node * node) : bool :=
  matches_simple (sel_subject sel) pn.2 &&
  match sel_ancestor sel with
  | Some a => existsb (matches_simple a) pn.1
  | None => true
  end.

(** [root.querySelector(sel)]: the first match in document order among
    the descendants of the root, whose children are [roots]. *)
Definition querySelector (sel : selector) (roots : list node) : option node :=
  snd <$> head (filter (λ pn, matches_selector sel pn = true) (concat (walk [] <$> roots))).

(** * Lemmas *)

Lemma querySelectorAll_nil tags : querySelectorAll tags [] = [].
Proof. done. Qed.

Lemma querySelectorAll_cons tags n l :
  querySelectorAll tags (n :: l)
  = filter (λ x, matches_tags tags x = true) (elements n) ++ querySelectorAll tags l.
Proof. unfold querySelectorAll. csimpl. by rewrite filter_app. Qed.

Lemma querySelectorAll_app tags l k :
  querySelectorAll tags (l ++ k) = querySelectorAll tags l ++ querySelectorAll tags k.
Proof.
  unfold querySelectorAll. by rewrite fmap_app, concat_app, filter_app.
Qed.

Lemma elements_Element t a s c :
  elements (Element t a s c) = Element t a s c :: concat (elements <$> c).
Proof. done. Qed.

(** What a selector finds is an element with one of its tag names. *)
Lemma querySelectorAll_tag tags l n :
  n ∈ querySelectorAll tags l → ∃ t, tag_of n = Some t ∧ t ∈ tags.
Proof.
  unfold querySelectorAll. intros [H _]%list_elem_of_filter.
  destruct n as [|t a s c]; [done|]. exists t. split; [done|].
  by apply bool_decide_eq_true in H.
Qed.

Lemma querySelectorAll_concat tags (ls : list (list node)) :
  querySelectorAll tags (concat ls) = concat (querySelectorAll tags <$> ls).
Proof.
  induction ls as [|l ls IH]; [done|]. csimpl. by rewrite querySelectorAll_app, IH.
Qed.

(** A property of the trees of a forest, mapped over the forest. *)
Lemma Forall_fmap_ext_concat {A B} (f g : A → list B) (c : list A) :
  Forall (λ x, f x = g x) c → concat (f <$> c) = concat (g <$> c).
Proof. induction 1 as [|x c Hx _ IH]; [done|]. csimpl. by rewrite Hx, IH. Qed.

Lemma concat_fmap_nil {A B} (c : list A) : concat ((λ _, @nil B) <$> c) = [].
Proof. by induction c. Qed.

Lemma concat_fmap_singleton {A} (c : list A) : concat ((λ x, [x]) <$> c) = c.
Proof. induction c as [|x c IH]; [done|]. csimpl. by rewrite IH. Qed.

(** After the removal the selector finds nothing. *)
Lemma remove_query tags n : querySelectorAll tags (remove tags n) = [].
Proof.
  induction n as [d|t a s c IH] using node_ind; [done|]. csimpl.
  case_bool_decide as Ht; [done|].
  rewrite querySelectorAll_cons, querySelectorAll_nil, app_nil_r, elements_Element.
  rewrite filter_cons_False by (simpl; by rewrite bool_decide_eq_false_2).
  change (querySelectorAll tags (concat (remove tags <$> c)) = []).
  rewrite querySelectorAll_concat, <-list_fmap_compose.
  by rewrite (Forall_fmap_ext_concat (querySelectorAll tags ∘ remove tags) (λ _, []) c IH),
    concat_fmap_nil.
Qed.

Lemma remove_all_query tags l : querySelectorAll tags (remove_all tags l) = [].
Proof.
  unfold remove_all. rewrite querySelectorAll_concat, <-list_fmap_compose.
  rewrite (Forall_fmap_ext_concat (querySelectorAll tags ∘ remove tags) (λ _, [])),
    ?concat_fmap_nil; [done|].
  apply Forall_forall. intros n _. apply remove_query.
Qed.

(** The removal with no tag name is the identity. *)
Lemma remove_nil n : remove [] n = [n].
Proof.
  induction n as [d|t a s c IH] using node_ind; [done|]. csimpl.
  do 2 f_equal.
  by rewrite (Forall_fmap_ext_concat _ (λ x, [x]) c IH), concat_fmap_singleton.
Qed.

(** Assigning a style changes neither the shape of the tree nor the tag
    names, so selectors find the elements at the same places. *)
Lemma set_style_tag_names tags k v n :
  omap tag_of (elements (set_style tags k v n)) = omap tag_of (elements n).
Proof.
  induction n as [d|t a s c IH] using node_ind; [done|]. csimpl. f_equal.
  rewrite <-list_fmap_compose. induction IH as [|x c Hx _ IHc]; [done|].
  csimpl. by rewrite !omap_app, Hx, IHc.
Qed.

Lemma set_style_tag_names_all tags k v l :
  tag_names (set_style tags k v <$> l) = tag_names l.
Proof.
  unfold tag_names. induction l as [|n l IH]; [done|].
  csimpl. by rewrite !omap_app, set_style_tag_names, IH.
Qed.

(** The elements a selector finds carry the declaration afterwards. *)
Lemma set_style_marks tags k v n x :
  x ∈ elements (set_style tags k v n) → matches_tags tags x = true →
  (k, v) ∈ style_of x.
Proof.
  revert x. induction n as [d|t a s c IH] using node_ind; intros x; [by intros ?%elem_of_nil|].
  simpl. intros [->|Hx]%elem_of_cons Hm.
  - simpl in *. rewrite Hm. set_solver.
  - rewrite <-list_fmap_compose in Hx. apply elem_of_concat_fmap in Hx as (y & Hy & Hx).
    rewrite Forall_forall in IH. by apply (IH y Hy).
Qed.

Lemma set_style_marks_all tags k v l x :
  x ∈ concat (elements <$> (set_style tags k v <$> l)) → matches_tags tags x = true →
  (k, v) ∈ style_of x.
Proof.
  rewrite <-list_fmap_compose. intros (y & Hy & Hx)%elem_of_concat_fmap.
  by apply (set_style_marks _ _ _ y).
Qed.

(** An element that is left after a removal was there before, with its tag
    name and its style. *)
Lemma remove_elements tags n x :
  x ∈ concat (elements <$> remove tags n) →
  ∃ y, y ∈ elements n ∧ tag_of x = tag_of y ∧ style_of x = style_of y.
Proof.
  revert x. induction n as [d|t a s c IH] using node_ind; intros x; [by intros ?%elem_of_nil|].
  simpl. case_bool_decide; [by intros ?%elem_of_nil|]. simpl. rewrite app_nil_r.
  intros [->|Hx]%elem_of_cons; [eexists; split; [by left|done]|].
  apply elem_of_concat_fmap in Hx as (z & (n & Hn & Hz)%elem_of_concat_fmap & Hx).
  rewrite Forall_forall in IH. destruct (IH n Hn x) as (y & Hy & ?).
  { apply elem_of_concat_fmap. eauto. }
  exists y. split; [|done]. right. apply elem_of_concat_fmap. eauto.
Qed.

Lemma remove_all_elements tags l x :
  x ∈ concat (elements <$> remove_all tags l) →
  ∃ y, y ∈ concat (elements <$> l) ∧ tag_of x = tag_of y ∧ style_of x = style_of y.
Proof.
  unfold remove_all.
  intros (z & (n & Hn & Hz)%elem_of_concat_fmap & Hx)%elem_of_concat_fmap.
  destruct (remove_elements tags n x) as (y & Hy & ?).
  { apply elem_of_concat_fmap. eauto. }
  exists y. split; [|done]. apply elem_of_concat_fmap. eauto.
Qed.

Lemma matches_tags_tag tags x y : tag_of x = tag_of y → matches_tags tags x = matches_tags tags y.
Proof. destruct x, y; simpl; try done. by intros [= ->]. Qed.

(** ** The parsed page *)

Lemma walk_elements path n : (walk path n).*2 = elements n.
Proof.
  revert path. induction n as [d|t a s c IH] using node_ind; intros path; [done|].
  csimpl. f_equal. generalize (Element t a s c :: path) as p. intros p.
  induction IH as [|x c Hx _ IHc]; [done|]. csimpl. by rewrite fmap_app, Hx, IHc.
Qed.

(** What querySelector finds is an element of the tree that matches the
    subject of the selector. *)
Lemma querySelector_Some sel roots n :
  querySelector sel roots = Some n →
  n ∈ concat (elements <$> roots) ∧ matches_simple (sel_subject sel) n = true.
Proof.
  unfold querySelector. intros ((path & x) & Hh & ->)%fmap_Some_inv. simpl.
  apply head_Some_elem_of, list_elem_of_filter in Hh as [Hm Hx].
  apply andb_true_iff in Hm as [Hm _]. split; [|done].
  apply elem_of_concat_fmap in Hx as (r & Hr & Hx). apply elem_of_concat_fmap.
  exists r. split; [done|]. rewrite <-(walk_elements []). apply list_elem_of_fmap. by exists (path, x).
Qed.

(** It finds nothing exactly when no element matches. *)
Lemma querySelector_None sel roots :
  querySelector sel roots = None ↔
  ∀ pn, pn ∈ concat (walk [] <$> roots) → matches_selector sel pn = false.
Proof.
  unfold querySelector. rewrite fmap_None, head_None. split.
  - intros H pn Hpn. destruct (matches_selector sel pn) eqn:E; [|done].
    assert (pn ∈ filter (λ pn, matches_selector sel pn = true) (concat (walk [] <$> roots)))
      as Hin by by apply list_elem_of_filter.
    rewrite H in Hin. by apply elem_of_nil in Hin.
  - intros H. destruct (filter _ _) as [|pn l] eqn:E; [done|]. exfalso.
    assert (pn ∈ pn :: l) as Hin by left. rewrite <-E in Hin.
    apply list_elem_of_filter in Hin as [Hm Hpn]. by rewrite (H pn Hpn) in Hm.
Qed.

Lemma tokens_from_app_word cur x s :
  Forall (λ c, is_ascii_space c = false) x →
  tokens_from cur (x ++ s) = tokens_from (reverse x ++ cur) s.
Proof.
  revert cur. induction x as [|c x IH]; intros cur Hx; [done|].
  apply Forall_cons in Hx as [Hc Hx]. simpl. rewrite Hc, IH by done.
  by rewrite reverse_cons, <-app_assoc.
Qed.

(** A class attribute that is one word has that word as its only token. *)
Lemma tokens_word x :
  x ≠ [] → Forall (λ c, is_ascii_space c = false) x → tokens x = [x].
Proof.
  intros Hne Hx. unfold tokens. rewrite <-(app_nil_r x) at 1.
  rewrite tokens_from_app_word by done. simpl. rewrite app_nil_r.
  destruct (reverse x) eqn:E; [|by rewrite <-E, reverse_involutive].
  apply (f_equal reverse) in E. rewrite reverse_involutive in E. done.
Qed.
