(* ===== verification/Effects.v ===== *)
(** * Effects: state and exceptions of the handlers

    The request handlers and the export routines of the sources are async
    functions that call the outside world, may throw at any call, and clean
    up in [catch] and [finally] blocks.  This file holds the monad the
    models of those functions are written in: a computation takes the state
    (what the handler has done to the world so far) and gives a value or a
    thrown exception together with the new state.  [try_catch] and
    [try_finally] are the try statements of JavaScript; [await] on a
    settled promise is sequencing.  Computations are compared pointwise
    ([≡]); the combinators respect it. *)

From stdpp Require Import prelude strings.

(** * The monad *)

Inductive result (E A : Type) :=
  | Ret (a : A)
  | Throw (e : E).
Arguments Ret {E A} a.
Arguments Throw {E A} e.

Definition eff (S E A : Type) : Type := S → result E A * S.

(** The exceptions of the models. *)
Inductive exn :=
  | SyntaxError          (* a text that is not JSON *)
  | TypeError            (* a property of null, an invalid URL *)
  | RangeError           (* a status that a response cannot carry *)
  | Rejected (what : string).  (* an external call failed *)

Section Eff.
Context {S E : Type}.

Definition eff_ret {A} (a : A) : eff S E A := λ s, (Ret a, s).

Definition eff_bind {A B} (f : A → eff S E B) (m : eff S E A) : eff S E B :=
  λ s, match m s with
       | (Ret a, s') => f a s'
       | (Throw e, s') => (Throw e, s')
       end.

(** [throw e] *)
Definition throw {A} (e : E) : eff S E A := λ s, (Throw e, s).

Definition get : eff S E S := λ s, (Ret s, s).
Definition modify (f : S → S) : eff S E unit := λ s, (Ret (), f s).

(** [try { m } catch (e) { h e }] *)
Definition try_catch {A} (m : eff S E A) (h : E → eff S E A) : eff S E A :=
  λ s, match m s with
       | (Ret a, s') => (Ret a, s')
       | (Throw e, s') => h e s'
       end.

(** [try { m } finally { f }]: [f] runs on both exits; its exception, if
    any, replaces the outcome of [m]. *)
Definition try_finally {A} (m : eff S E A) (f : eff S E unit) : eff S E A :=
  λ s, match m s with
       | (r, s') =>
           match f s' with
           | (Ret _, s'') => (r, s'')
           | (Throw e, s'') => (Throw e, s'')
           end
       end.

(** [if (c) m]: a statement guarded by a condition. *)
Definition when (c : bool) (m : eff S E unit) : eff S E unit :=
  if c then m else eff_ret ().

Definition returns {A} (m : eff S E A) (s : S) : Prop := ∃ a s', m s = (Ret a, s').
Definition throws {A} (m : eff S E A) (s : S) : Prop := ∃ e s', m s = (Throw e, s').

End Eff.

#[export] Instance eff_mret {S E} : MRet (eff S E) := @eff_ret S E.
#[export] Instance eff_mbind {S E} : MBind (eff S E) := @eff_bind S E.
#[export] Instance eff_equiv {S E A} : Equiv (eff S E A) := λ m m', ∀ s, m s = m' s.

(** * Laws *)

Section Laws.
Context {S E : Type}.
Implicit Types s : S.

#[export] Instance eff_equivalence {A} : Equivalence (≡@{eff S E A}).
Proof.
  split; [by intros m s|by intros m m' H s|by intros a b c H1 H2 s; rewrite H1].
Qed.

#[export] Instance eff_bind_proper {A B} :
  Proper (pointwise_relation A (≡) ==> (≡) ==> (≡@{eff S E B})) mbind.
Proof.
  intros f g Hfg m m' Hm s. unfold mbind, eff_mbind, eff_bind. rewrite Hm.
  destruct (m' s) as [[a|e] s']; [apply Hfg|done].
Qed.

#[export] Instance try_catch_proper {A} :
  Proper ((≡) ==> pointwise_relation E (≡) ==> (≡@{eff S E A})) try_catch.
Proof.
  intros m m' Hm h h' Hh s. unfold try_catch. rewrite Hm.
  destruct (m' s) as [[a|e] s']; [done|apply Hh].
Qed.

#[export] Instance try_finally_proper {A} :
  Proper ((≡) ==> (≡) ==> (≡@{eff S E A})) try_finally.
Proof.
  intros m m' Hm f f' Hf s. unfold try_finally. rewrite Hm.
  destruct (m' s) as [r s']. by rewrite Hf.
Qed.

Lemma bind_unfold {A B} (m : eff S E A) (f : A → eff S E B) s :
  (m ≫= f) s = match m s with
               | (Ret a, s') => f a s'
               | (Throw e, s') => (Throw e, s')
               end.
Proof. reflexivity. Qed.

Lemma bind_ret_l {A B} (a : A) (f : A → eff S E B) : (mret a ≫= f) ≡ f a.
Proof. by intros s. Qed.

Lemma bind_ret_r {A} (m : eff S E A) : (m ≫= mret) ≡ m.
Proof. intros s. rewrite bind_unfold. by destruct (m s) as [[a|e] s']. Qed.

Lemma bind_assoc {A B C} (m : eff S E A) (f : A → eff S E B) (g : B → eff S E C) :
  ((m ≫= f) ≫= g) ≡ (m ≫= λ a, f a ≫= g).
Proof. intros s. rewrite !bind_unfold. by destruct (m s) as [[a|e] s']. Qed.

Lemma bind_throw {A B} (e : E) (f : A → eff S E B) : (throw e ≫= f) ≡ throw e.
Proof. by intros s. Qed.

Lemma try_catch_ret {A} (a : A) (h : E → eff S E A) : try_catch (mret a) h ≡ mret a.
Proof. by intros s. Qed.

Lemma try_catch_throw {A} (e : E) (h : E → eff S E A) : try_catch (throw e) h ≡ h e.
Proof. by intros s. Qed.

Lemma try_finally_ret {A} (m : eff S E A) : try_finally m (mret ()) ≡ m.
Proof. intros s. unfold try_finally. by destruct (m s). Qed.

(** A computation either returns or throws, never both. *)
Lemma returns_or_throws {A} (m : eff S E A) s : returns m s ∨ throws m s.
Proof.
  unfold returns, throws. destruct (m s) as [[a|e] s']; [left|right]; eauto.
Qed.

Lemma returns_not_throws {A} (m : eff S E A) s : returns m s → ¬ throws m s.
Proof. intros (a & s1 & H1) (e & s2 & H2). congruence. Qed.

(** A handler that returns catches everything. *)
Lemma try_catch_returns {A} (m : eff S E A) (h : E → eff S E A) s :
  (∀ e s', returns (h e) s') → returns (try_catch m h) s.
Proof.
  intros Hh. unfold returns, try_catch in *.
  destruct (m s) as [[a|e] s']; [eauto|apply Hh].
Qed.

(** The state after [try_finally] is a state the finaliser has left. *)
Lemma try_finally_runs {A} (m : eff S E A) (f : eff S E unit) s r s'' :
  try_finally m f s = (r, s'') → ∃ s' r', f s' = (r', s'').
Proof.
  unfold try_finally. destruct (m s) as [r0 s']. intros H. exists s'.
  destruct (f s') as [[[]|e] s1]; injection H as <- <-; eauto.
Qed.

End Laws.

(** Step through a computation applied to a state. *)
Ltac eff_step :=
  repeat first
    [ rewrite bind_unfold
    | progress unfold try_catch, try_finally, when, throw, get, modify,
        mret, eff_mret, eff_ret ].
