(* ===== verification/Extractor.v ===== *)
(** * Extractor: the textual strategy

    [parseNotionPage] and [cleanNotionContent] of
    src/app/api/fetch-notion/route.ts.  Each regular expression of the
    source is a definition [re_...] with the items in the order of the
    pattern; the two functions apply them in the order of the source.  In
    the literals an apostrophe stands for a double quote of the source. *)

From stdpp Require Import prelude list numbers strings.
From Stdlib Require Import Lia.
From S2P Require Import Prelude JsString Regex Types.

Set Warnings "-clear-no-such-hyp".

(** The units the classes of the patterns exclude. *)
Definition GT : char := 62%N.
Definition LT : char := 60%N.
Definition DQ : char := 34%N.
Definition SEMI : char := 59%N.

(** * The regular expressions of parseNotionPage *)

(** [<title>(.*?)<\/title>] with flag i *)
Definition re_title : regex :=
  Regex true [Lit (lit "<title>"); Rep false 0 Dot; Lit (lit "</title>")] [1].

(** [class='notion-emoji'[^>]*>([^<]+)<] with flag i *)
Definition re_emoji : regex :=
  Regex true
    [Lit (qlit "class='notion-emoji'"); Rep true 0 (NotChar GT); Lit (lit ">");
     Rep true 1 (NotChar LT); Lit (lit "<")] [3].

(** [class='notion-page-icon-image'[^>]*src='([^']+)'] with flag i *)
Definition re_icon_image : regex :=
  Regex true
    [Lit (qlit "class='notion-page-icon-image'"); Rep true 0 (NotChar GT);
     Lit (qlit "src='"); Rep true 1 (NotChar DQ); Lit (qlit "'")] [3].

(** [class='notion-page-cover-image'[^>]*src='([^']+)'] with flag i *)
Definition re_cover_image : regex :=
  Regex true
    [Lit (qlit "class='notion-page-cover-image'"); Rep true 0 (NotChar GT);
     Lit (qlit "src='"); Rep true 1 (NotChar DQ); Lit (qlit "'")] [3].

(** [class='notion-header-block'[^>]*>[\s\S]*?<img[^>]*src='([^']+)']
    with flag i *)
Definition re_header_block : regex :=
  Regex true
    [Lit (qlit "class='notion-header-block'"); Rep true 0 (NotChar GT); Lit (lit ">");
     Rep false 0 AnyChar; Lit (lit "<img"); Rep true 0 (NotChar GT);
     Lit (qlit "src='"); Rep true 1 (NotChar DQ); Lit (qlit "'")] [7].

(** [<div class='notion-page-content'[^>]*>([\s\S]*?)<\/div>] with flag i *)
Definition re_page_content : regex :=
  Regex true
    [Lit (qlit "<div class='notion-page-content'"); Rep true 0 (NotChar GT);
     Lit (lit ">"); Rep false 0 AnyChar; Lit (lit "</div>")] [3].

(** [<body[^>]*>([\s\S]*?)<\/body>] with flag i *)
Definition re_body : regex :=
  Regex true
    [Lit (lit "<body"); Rep true 0 (NotChar GT); Lit (lit ">");
     Rep false 0 AnyChar; Lit (lit "</body>")] [3].

(** [<tag[\s\S]*?<\/tag>] with flags g and i: an element to strip from the
    body. *)
Definition re_element (tag : string) : regex :=
  Regex true
    [Lit (lit "<" ++ lit tag); Rep false 0 AnyChar; Lit (lit "</" ++ lit tag ++ lit ">")] [].

(** [background-color:\s*([^;]+)] with flag i *)
Definition re_background : regex :=
  Regex true
    [Lit (lit "background-color:"); Rep true 0 Space; Rep true 1 (NotChar SEMI)] [2].

(** * The regular expressions of cleanNotionContent *)

(** [class='notion-NAME[^']*'] with flag g *)
Definition re_class (name : string) : regex :=
  Regex false
    [Lit (qlit "class='notion-" ++ lit name); Rep true 0 (NotChar DQ); Lit (qlit "'")] [].

(** [<img[^>]*class='notion-image[^']*'[^>]*src='([^']+)'[^>]*>] with
    flag g *)
Definition re_image : regex :=
  Regex false
    [Lit (lit "<img"); Rep true 0 (NotChar GT); Lit (qlit "class='notion-image");
     Rep true 0 (NotChar DQ); Lit (qlit "'"); Rep true 0 (NotChar GT);
     Lit (qlit "src='"); Rep true 1 (NotChar DQ); Lit (qlit "'");
     Rep true 0 (NotChar GT); Lit (lit ">")] [7].

(** [<a[^>]*href='([^']+)'[^>]*>] with flag g *)
Definition re_link : regex :=
  Regex false
    [Lit (lit "<a"); Rep true 0 (NotChar GT); Lit (qlit "href='");
     Rep true 1 (NotChar DQ); Lit (qlit "'"); Rep true 0 (NotChar GT); Lit (lit ">")] [3].

(** [<pre[^>]*class='notion-code-block[^']*'[^>]*>([\s\S]*?)<\/pre>] with
    flag g *)
Definition re_code_block : regex :=
  Regex false
    [Lit (lit "<pre"); Rep true 0 (NotChar GT); Lit (qlit "class='notion-code-block");
     Rep true 0 (NotChar DQ); Lit (qlit "'"); Rep true 0 (NotChar GT); Lit (lit ">");
     Rep false 0 AnyChar; Lit (lit "</pre>")] [7].

(** [<table[^>]*class='notion-table[^']*'[^>]*>] with flag g *)
Definition re_table : regex :=
  Regex false
    [Lit (lit "<table"); Rep true 0 (NotChar GT); Lit (qlit "class='notion-table");
     Rep true 0 (NotChar DQ); Lit (qlit "'"); Rep true 0 (NotChar GT); Lit (lit ">")] [].

(** [<TAG[^>]*>] with flag g: an opening tag whose name starts with TAG *)
Definition re_open_tag (tag : string) : regex :=
  Regex false [Lit (lit "<" ++ lit tag); Rep true 0 (NotChar GT); Lit (lit ">")] [].

(** [<TAG[^>]*>\s*<\/TAG>] with flag g: an element with no content but
    white space *)
Definition re_empty (tag : string) : regex :=
  Regex false
    [Lit (lit "<" ++ lit tag); Rep true 0 (NotChar GT); Lit (lit ">");
     Rep true 0 Space; Lit (lit "</" ++ lit tag ++ lit ">")] [].

(** [\s+] with flag g *)
Definition re_spaces : regex := Regex false [Rep true 1 Space] [].

(** * cleanNotionContent *)

(** One [.replace(re, text)] of the chain, for a replacement without a
    group reference. *)
Definition set_class (name : string) (classes : string) (s : str) : str :=
  replace_all (re_class name) [RText (qlit "class='" ++ lit classes ++ qlit "'")] s.

(** The class rules, in the order of the source. *)
Definition clean_classes (s : str) : str :=
  set_class "callout" "bg-blue-50 border border-blue-200 rounded p-4 mb-4"
  (set_class "code" "bg-gray-100 px-2 py-1 rounded font-mono text-sm"
  (set_class "quote" "border-l-4 border-gray-300 pl-4 italic mb-4"
  (set_class "numbered-list" "list-decimal pl-6 mb-4"
  (set_class "list" "list-disc pl-6 mb-4"
  (set_class "text" "mb-4"
  (set_class "h3" "text-xl font-medium mb-2"
  (set_class "h2" "text-2xl font-semibold mb-3"
  (set_class "h1" "text-3xl font-bold mb-4" s)))))))).

(** The element rules, one [.replace(re, text)] each: images, links, code
    blocks, tables and their cells. *)
Definition rewrite_images (s : str) : str :=
  replace_all re_image
    [RText (qlit "<img src='"); RGroup 1;
     RText (qlit "' class='max-w-full h-auto mb-4 rounded' alt='Notion image' />")] s.

Definition rewrite_links (s : str) : str :=
  replace_all re_link
    [RText (qlit "<a href='"); RGroup 1;
     RText (qlit "' class='text-blue-600 hover:underline' target='_blank' rel='noopener noreferrer'>")] s.

Definition rewrite_code_blocks (s : str) : str :=
  replace_all re_code_block
    [RText (qlit "<pre class='bg-gray-100 p-4 rounded mb-4 overflow-x-auto'><code>");
     RGroup 1; RText (lit "</code></pre>")] s.

Definition rewrite_tables (s : str) : str :=
  replace_all re_table [RText (qlit "<table class='w-full border-collapse mb-4'>")] s.

Definition set_cell (tag classes : string) (s : str) : str :=
  replace_all (re_open_tag tag)
    [RText (lit "<" ++ lit tag ++ qlit " class='" ++ lit classes ++ qlit "'>")] s.

Definition clean_elements (s : str) : str :=
  set_cell "td" "border border-gray-300 px-4 py-2"
  (set_cell "th" "border border-gray-300 px-4 py-2 bg-gray-100"
  (rewrite_tables (rewrite_code_blocks (rewrite_links (rewrite_images s))))).

(** Remove empty divs, then empty spans. *)
Definition remove_empty (s : str) : str :=
  replace_all (re_empty "span") [] (replace_all (re_empty "div") [] s).

(** Collapse runs of white space to one space, then trim. *)
Definition collapse_spaces (s : str) : str :=
  trim (replace_all re_spaces [RText (lit " ")] s).

Definition cleanNotionContent (content : str) : str :=
  collapse_spaces (remove_empty (clean_elements (clean_classes content))).

(** * parseNotionPage *)

Definition parse_title (html : str) : str :=
  match match1 re_title html with
  | Some t => trim (replace_first (lit " | Notion") [] t)
  | None => lit "Untitled"
  end.

Definition parse_icon (html : str) : option Icon :=
  match match1 re_emoji html with
  | Some e => Some (mkIcon Emoji (trim e))
  | None =>
      match match1 re_icon_image html with
      | Some src => Some (mkIcon Image src)
      | None => None
      end
  end.

Definition parse_cover (html : str) : option str :=
  match1 re_cover_image html <|> match1 re_header_block html.

(** The fallback: the body without scripts, styles, navigation, header
    and footer elements. *)
Definition strip_body (body : str) : str :=
  replace_all (re_element "footer") []
  (replace_all (re_element "header") []
  (replace_all (re_element "nav") []
  (replace_all (re_element "style") []
  (replace_all (re_element "script") [] body)))).

Definition raw_content (html : str) : str :=
  match match1 re_page_content html with
  | Some c => c
  | None =>
      match match1 re_body html with
      | Some body => strip_body body
      | None => []
      end
  end.

Definition parse_background (html : str) : option str :=
  trim <$> match1 re_background html.

Definition parseNotionPage (html : str) : NotionPageData := {|
  title := parse_title html;
  icon := parse_icon html;
  coverImage := parse_cover html;
  content := cleanNotionContent (raw_content html);
  backgroundColor := parse_background html;
  originalHtml := html;
  author := None;
|}.

(** * Reference definitions for the properties *)

(** The units a title may hold for the suffix rule to apply: no line
    terminator, no [<], no [|]. *)
Definition title_char (c : char) : bool :=
  negb (is_line_terminator c) && negb (c =? LT)%N && negb (c =? 124)%N.

Definition not_space (c : char) : bool := negb (is_space c).

(** The reference for the white space rule: copy the units, writing one
    space for each maximal run of white space. *)
Fixpoint squeeze (in_space : bool) (s : str) : str :=
  match s with
  | [] => []
  | c :: s' =>
      if is_space c
      then (if in_space then squeeze true s' else 32%N :: squeeze true s')
      else c :: squeeze false s'
  end.

(** White space is normal: every white space unit is a space and follows
    a unit that is not white space ([prev] tells whether the unit before
    the string is white space). *)
Fixpoint ws_normal (prev : bool) (s : str) : bool :=
  match s with
  | [] => true
  | c :: s' =>
      if is_space c then (c =? 32)%N && negb prev && ws_normal true s'
      else ws_normal false s'
  end.

(** * Matching the patterns of parseNotionPage *)

Lemma char_eqb_LT ci c : char_eqb ci LT c = true ↔ c = LT.
Proof.
  apply char_eqb_nonletter; [done|]. intros x. unfold fold_case, LT.
  destruct (_ && _) eqn:E; [|done]. apply andb_true_iff in E as [?%N.leb_le ?%N.leb_le]. lia.
Qed.

Lemma char_eqb_LT_false ci c : c ≠ LT → char_eqb ci LT c = false.
Proof. intros H. destruct (char_eqb ci LT c) eqn:E; [|done]. by apply char_eqb_LT in E. Qed.

Lemma title_char_spec c :
  title_char c = true ↔ is_line_terminator c = false ∧ c ≠ LT ∧ c ≠ 124%N.
Proof.
  unfold title_char. rewrite !andb_true_iff, !negb_true_iff, !N.eqb_neq. tauto.
Qed.

Lemma title_search pre open T close post :
  lit_prefix_at true (lit "<title>") pre (T ++ close ++ post) open →
  lit_ok true (lit "</title>") close →
  all_b (cls_test Dot) T = true → LT ∉ T →
  match1 re_title (pre ++ open ++ T ++ close ++ post) = Some T.
Proof.
  intros Hopen Hclose HT HLT. unfold match1.
  rewrite (search_lit_at re_title _ _ eq_refl _ (length pre) [open; T; close]).
  - done.
  - by apply find_at.
  - rewrite drop_app_length. unfold exec_at. simpl rx_ci. simpl rx_items.
    rewrite exec_lit by apply Hopen. erewrite exec_rep_lazy; [done|done| |].
    + intros j Hj. apply exec_lit_None_head; [|done].
      intros c Hc. apply char_eqb_LT_false. by intros ->.
    + by rewrite exec_lit.
Qed.

(** The suffix rule on a title that ends with the suffix and holds no
    [|] before it: the suffix goes and the rest stays. *)
Lemma suffix_stripped X :
  all_b title_char X = true → replace_first (lit " | Notion") [] (X ++ lit " | Notion") = X.
Proof.
  intros HX. rewrite replace_first_suffix; [apply app_nil_r|].
  rewrite <-(app_nil_r (X ++ _)), <-app_assoc.
  apply (no_start_before _ _ _ 1 124%N); [reflexivity| |by_decide].
  intros H. by apply (all_b_elem _ _ _ HX), title_char_spec in H as (_ & _ & ?).
Qed.

(** C4: a page whose first title element holds [X | Notion], where [X]
    holds no line terminator, no [<] and no [|], gets the title [X] with
    the white space around it trimmed. *)
Theorem title_suffix pre open X close post :
  lit_prefix_at true (lit "<title>") pre (X ++ lit " | Notion" ++ close ++ post) open →
  lit_ok true (lit "</title>") close →
  all_b title_char X = true →
  title (parseNotionPage (pre ++ open ++ X ++ lit " | Notion" ++ close ++ post)) = trim X.
Proof.
  intros Hopen Hclose HX. cbn [title parseNotionPage]. unfold parse_title.
  replace (X ++ lit " | Notion" ++ close ++ post)
    with ((X ++ lit " | Notion") ++ close ++ post) in * by by rewrite <-app_assoc.
  rewrite (title_search _ _ _ _ _ Hopen Hclose).
  - by rewrite suffix_stripped.
  - rewrite all_b_app. apply andb_true_iff. split; [|done].
    eapply all_b_impl; [|done]. intros c (Hc & _)%title_char_spec. simpl. by rewrite Hc.
  - rewrite elem_of_app. intros [H|H].
    + by apply (all_b_elem _ _ _ HX), title_char_spec in H as (_ & ? & _).
    + revert H. change (LT ∉ lit " | Notion"). by_decide.
Qed.

Lemma title_suffix_witness :
  title (parseNotionPage (lit "<html><head>" ++ lit "<TITLE>" ++ lit " Meeting Notes"
                          ++ lit " | Notion" ++ lit "</title>" ++ lit "</head></html>"))
  = trim (lit " Meeting Notes").
Proof.
  apply title_suffix; [|apply lit_ok_refl|reflexivity].
  apply lit_prefix_at_find; reflexivity.
Defined.

(** A page in which no opening title tag occurs, in any letter case,
    gets the title Untitled. *)
Lemma title_untitled html :
  occurs true (lit "<title>") html = false → title (parseNotionPage html) = lit "Untitled".
Proof.
  intros H. cbn [title parseNotionPage]. unfold parse_title, match1.
  by rewrite (search_lit_none re_title _ _ eq_refl).
Qed.

Lemma title_untitled_witness :
  title (parseNotionPage (lit "<html><body><h1>Title</h1></body></html>")) = lit "Untitled".
Proof. apply title_untitled. reflexivity. Defined.

Lemma cls_test_NotChar_head x s :
  ∀ c s', x :: s = c :: s' → cls_test (NotChar x) c = false.
Proof. intros c s' [= <- _]. simpl. by rewrite N.eqb_refl. Qed.

Lemma all_b_NotChar x t : x ∉ t → all_b (cls_test (NotChar x)) t = true.
Proof.
  intros H. apply all_b_Forall, Forall_forall. intros c Hc. simpl.
  apply negb_true_iff, N.eqb_neq. by intros ->.
Qed.

Lemma emoji_search pre m attrs E post :
  lit_prefix_at true (qlit "class='notion-emoji'") pre (attrs ++ [GT] ++ E ++ [LT] ++ post) m →
  GT ∉ attrs → LT ∉ E → E ≠ [] →
  match1 re_emoji (pre ++ m ++ attrs ++ [GT] ++ E ++ [LT] ++ post) = Some E.
Proof.
  intros Hm Hattrs HE Hne. unfold match1.
  rewrite (search_lit_at re_emoji _ _ eq_refl _ (length pre) [m; attrs; [GT]; E; [LT]]).
  - done.
  - by apply find_at.
  - rewrite drop_app_length. unfold exec_at. simpl rx_ci. simpl rx_items.
    rewrite exec_lit by apply Hm.
    erewrite exec_rep_greedy; [done|by apply all_b_NotChar|lia|apply cls_test_NotChar_head|].
    rewrite (exec_lit true (lit ">") _ [GT]) by apply lit_ok_refl.
    erewrite exec_rep_greedy; [done|by apply all_b_NotChar| |apply cls_test_NotChar_head|].
    + destruct E; [done|simpl; lia].
    + by rewrite (exec_lit true (lit "<") _ [LT]) by apply lit_ok_refl.
Qed.

(** When the emoji marker is followed by a tag end and a non-empty text
    up to the next [<], the icon is that text, trimmed, as an emoji; an
    icon image elsewhere in the page is not consulted. *)
Lemma icon_emoji pre m attrs E post :
  lit_prefix_at true (qlit "class='notion-emoji'") pre (attrs ++ [GT] ++ E ++ [LT] ++ post) m →
  GT ∉ attrs → LT ∉ E → E ≠ [] →
  icon (parseNotionPage (pre ++ m ++ attrs ++ [GT] ++ E ++ [LT] ++ post))
  = Some (mkIcon Emoji (trim E)).
Proof.
  intros. cbn [icon parseNotionPage]. unfold parse_icon. by rewrite emoji_search.
Qed.

Lemma icon_emoji_witness :
  icon (parseNotionPage
          (qlit "<img class='notion-page-icon-image' src='i.png'><span "
           ++ qlit "class='notion-emoji'" ++ qlit " role='img'" ++ [GT]
           ++ [55356; 57225]%N ++ [LT] ++ lit "/span>"))
  = Some (mkIcon Emoji (trim [55356; 57225]%N)).
Proof.
  apply icon_emoji; [|by_decide..].
  apply lit_prefix_at_find; reflexivity.
Defined.

(** C30: the content taken from the content container ends at the first
    closing div tag behind the opening tag of the container: the page
    splits around it, and no closing div tag starts inside it. *)
Theorem content_cut html c :
  match1 re_page_content html = Some c →
  ∃ pre open close post,
    html = pre ++ open ++ c ++ close ++ post ∧
    lit_ok true (lit "</div>") close ∧
    find true (lit "</div>") (c ++ close ++ post) = Some (length c).
Proof.
  unfold match1. intros (m & Hs & ->)%fmap_Some_inv.
  apply search_Some in Hs as (Hhtml & He & _). unfold exec_at in He.
  simpl rx_ci in He. simpl rx_items in He. unfold f_text in Hhtml.
  apply exec_items_cons_inv in He as (s0 & segs0 & r0 & Esegs & Hr0 & _ & He).
  apply exec_items_cons_inv in He as (s1 & segs1 & r1 & -> & -> & _ & He).
  apply exec_items_cons_inv in He as (s2 & segs2 & r2 & -> & -> & _ & He).
  pose proof He as Hlazy.
  apply exec_items_cons_inv in He as (s3 & segs3 & r3 & -> & -> & _ & He).
  apply exec_items_cons_inv in He as (s4 & segs4 & r4 & -> & -> & Hclose & ->%exec_items_nil_inv).
  rewrite Esegs in *. change (group re_page_content 1 [s0; s1; s2; s3; s4]) with s3.
  unfold f_text in Hr0. rewrite Esegs in Hr0. simpl in Hr0.
  rewrite !app_nil_r, <-!app_assoc in Hr0. do 5 apply app_inv_head in Hr0. subst r4.
  exists (f_pre m), (s0 ++ s1 ++ s2), s4, (f_post m). split_and!.
  - rewrite Hhtml. simpl. by rewrite !app_nil_r, <-!app_assoc.
  - done.
  - apply find_Some. split_and!.
    + rewrite drop_app_length.
      by rewrite (proj2 (strip_prefix_Some true _ (s4 ++ f_post m) s4 (f_post m)) (conj eq_refl Hclose)).
    + rewrite length_app. lia.
    + intros j Hj. eapply exec_rep_lazy_minimal; [done|lia|done].
Qed.

Lemma content_cut_witness :
  ∃ pre open close post,
    qlit "<div class='notion-page-content'><div><p>a</p></div><p>b</p></div>"
      = pre ++ open ++ lit "<div><p>a</p>" ++ close ++ post ∧
    lit_ok true (lit "</div>") close ∧
    find true (lit "</div>") (lit "<div><p>a</p>" ++ close ++ post)
      = Some (length (lit "<div><p>a</p>")).
Proof. apply content_cut. reflexivity. Defined.

(** * The white space rule *)

Lemma squeeze_words x s b :
  all_b not_space x = true → x ≠ [] → squeeze b (x ++ s) = x ++ squeeze false s.
Proof.
  revert b. induction x as [|c x IH]; intros b Hx Hne; [done|]. simpl in *.
  apply andb_true_iff in Hx as [Hc Hx]. unfold not_space in Hc.
  apply negb_true_iff in Hc. rewrite Hc. f_equal.
  destruct x as [|c' x']; [done|]. by apply IH.
Qed.

Lemma squeeze_true_spaces w s :
  all_b is_space w = true → squeeze true (w ++ s) = squeeze true s.
Proof.
  induction w as [|c w IH]; intros Hw; [done|]. simpl in *.
  apply andb_true_iff in Hw as [-> Hw]. by apply IH.
Qed.

Lemma squeeze_false_spaces w s :
  all_b is_space w = true → w ≠ [] → squeeze false (w ++ s) = 32%N :: squeeze true s.
Proof.
  destruct w as [|c w]; [done|]. simpl. intros [-> Hw]%andb_true_iff _.
  f_equal. by apply squeeze_true_spaces.
Qed.

Lemma squeeze_true_word s :
  (∀ c s', s = c :: s' → is_space c = false) → squeeze true s = squeeze false s.
Proof. destruct s as [|c s]; [done|]. intros H. simpl. by rewrite (H c s). Qed.

(** The matcher on the white space rule: the longest run of white space at
    the start of the subject, which must not be empty. *)
Lemma exec_spaces s :
  exec_at re_spaces s =
  match take_while is_space s with
  | [] => None
  | w => Some [w]
  end.
Proof.
  unfold exec_at. simpl rx_ci. simpl rx_items. rewrite exec_items_cons.
  destruct (take_while is_space s) as [|c w] eqn:E.
  - apply fmap_None. destruct (rep _ _ _ _ _) as [[t segs]|] eqn:Er; [exfalso|done].
    apply rep_Some in Er as (s' & -> & Ht & Hmin & _).
    destruct t as [|c t]; [simpl in Hmin; lia|]. simpl in *.
    apply andb_true_iff in Ht as [Hc _]. by rewrite Hc in E.
  - rewrite <-(take_drop_while is_space s), E.
    erewrite rep_greedy_run; [done|by rewrite <-E; apply take_while_all|simpl; lia| |done].
    intros c' s'. apply drop_while_head.
Qed.

Lemma exec_spaces_None c s : is_space c = false → exec_at re_spaces (c :: s) = None.
Proof. intros H. rewrite exec_spaces. simpl. by rewrite H. Qed.

Lemma search_spaces x w s :
  all_b not_space x = true → all_b is_space w = true → w ≠ [] →
  (∀ c s', s = c :: s' → is_space c = false) →
  search re_spaces (x ++ w ++ s) = Some (Found x [w] s).
Proof.
  intros Hx Hw Hne Hs.
  assert (take_while is_space (w ++ s) = w ∧ drop_while is_space (w ++ s) = s) as [Ht Hd].
  { rewrite take_while_app_all, drop_while_app_all by done.
    destruct s as [|c s']; [by rewrite app_nil_r|].
    rewrite take_while_stop, drop_while_stop, app_nil_r by eauto. done. }
  rewrite (search_at re_spaces x (w ++ s) [w]).
  - simpl. by rewrite app_nil_r, drop_app_length.
  - intros j Hj. destruct (lookup_lt_is_Some_2 x j Hj) as [c Hc].
    rewrite drop_app_le by lia. rewrite (drop_S x c j Hc). simpl.
    apply exec_spaces_None. apply negb_true_iff.
    apply (all_b_elem not_space x); [done|]. by eapply list_elem_of_lookup_2.
  - rewrite exec_spaces, Ht. by destruct w.
Qed.

Lemma search_spaces_none x :
  all_b not_space x = true → search re_spaces x = None.
Proof.
  intros Hx. apply search_None. intros j Hj.
  destruct (decide (j < length x)) as [Hlt|Hge].
  - destruct (lookup_lt_is_Some_2 x j Hlt) as [c Hc]. rewrite (drop_S x c j Hc).
    apply exec_spaces_None, negb_true_iff.
    apply (all_b_elem not_space x); [done|]. by eapply list_elem_of_lookup_2.
  - rewrite drop_ge by lia. by rewrite exec_spaces.
Qed.

(** Every string splits into words and runs of white space. *)
Lemma split_word s :
  ∃ x rest, s = x ++ rest ∧ all_b not_space x = true ∧
            (∀ c s', rest = c :: s' → is_space c = true).
Proof.
  exists (take_while not_space s), (drop_while not_space s).
  split_and!; [by rewrite take_drop_while|apply take_while_all|].
  intros c s' H%drop_while_head. by apply negb_false_iff in H.
Qed.

Lemma split_run s :
  ∃ w rest, s = w ++ rest ∧ all_b is_space w = true ∧
            (∀ c s', rest = c :: s' → is_space c = false).
Proof.
  exists (take_while is_space s), (drop_while is_space s).
  split_and!; [by rewrite take_drop_while|apply take_while_all|].
  intros c s'. apply drop_while_head.
Qed.

Lemma replace_spaces_squeeze_aux n s :
  length s < n → replace_all re_spaces [RText (lit " ")] s = squeeze false s.
Proof.
  revert s. induction n as [|n IH]; intros s Hn; [lia|].
  destruct (split_word s) as (x & rest & -> & Hx & Hrest).
  destruct rest as [|c rest].
  { rewrite app_nil_r. rewrite replace_all_nomatch by by apply search_spaces_none.
    destruct x as [|c x]; [done|]. rewrite <-(app_nil_r (c :: x)) at 2.
    rewrite squeeze_words by done. simpl. by rewrite app_nil_r. }
  destruct (split_run (c :: rest)) as (w & s & Hw & Hwsp & Hs).
  assert (w ≠ []) as Hne.
  { intros ->. simpl in Hw. subst s. pose proof (Hrest c rest eq_refl) as H1.
    by rewrite (Hs c rest) in H1. }
  rewrite Hw in *. rewrite replace_all_unfold. unfold replace_step.
  rewrite search_spaces by done. unfold f_text. simpl f_pre. simpl f_segs. simpl f_post.
  simpl concat. rewrite app_nil_r. destruct w as [|c' w']; [done|].
  rewrite IH by (rewrite !length_app in Hn; simpl in Hn; lia).
  change (expand re_spaces [RText (lit " ")] [c' :: w']) with [32%N].
  transitivity (x ++ squeeze false ((c' :: w') ++ s)).
  - rewrite squeeze_false_spaces by done. rewrite squeeze_true_word by exact Hs. reflexivity.
  - destruct x as [|c0 x]; [done|]. by rewrite (squeeze_words (c0 :: x)) by done.
Qed.

Lemma ws_normal_squeeze b s : ws_normal b (squeeze b s) = true.
Proof.
  revert b. induction s as [|c s IH]; intros b; [done|]. simpl.
  destruct (is_space c) eqn:E; [destruct b|]; simpl; rewrite ?E; [apply IH| |apply IH].
  change (is_space 32) with true. simpl. apply IH.
Qed.

Lemma squeeze_normal_gen b b' s :
  ws_normal b s = true → (b' = true → b = true) → squeeze b' s = s.
Proof.
  revert b b'. induction s as [|c s IH]; intros b b'; [done|]. simpl.
  destruct (is_space c) eqn:E.
  - intros [[->%N.eqb_eq Hb%negb_true_iff]%andb_true_iff H]%andb_true_iff Hbb.
    destruct b'; [by rewrite Hbb in Hb|]. f_equal. by apply (IH true).
  - intros H _. f_equal. by apply (IH false).
Qed.

(** On a string whose white space is normal the rule changes nothing. *)
Lemma squeeze_normal s : ws_normal false s = true → squeeze false s = s.
Proof. intros H. by apply (squeeze_normal_gen false). Qed.

Lemma ws_normal_app b x y : ws_normal b (x ++ y) = true → ws_normal b x = true.
Proof.
  revert b. induction x as [|c x IH]; intros b; [done|]. simpl.
  destruct (is_space c); [|apply IH].
  intros [H1 H2]%andb_true_iff. rewrite H1. by apply IH.
Qed.

Lemma ws_normal_weaken b s : ws_normal b s = true → ws_normal false s = true.
Proof.
  destruct s as [|c s]; [done|]. simpl. destruct (is_space c); [|done].
  intros [[-> _]%andb_true_iff ->]%andb_true_iff. done.
Qed.

Lemma ws_normal_drop_while b s :
  ws_normal b s = true → ws_normal false (drop_while is_space s) = true.
Proof.
  revert b. induction s as [|c s IH]; intros b; [done|]. simpl.
  destruct (is_space c) eqn:E.
  - intros [_ H]%andb_true_iff. by eapply IH.
  - intros H. simpl. by rewrite E.
Qed.

Lemma ws_normal_trim s : ws_normal false s = true → ws_normal false (trim s) = true.
Proof.
  intros H%ws_normal_drop_while. unfold trim.
  destruct (trimEnd_split (trimStart s)) as (w & Hw & _).
  unfold trimStart in *. rewrite Hw in H. by apply ws_normal_app in H.
Qed.

Lemma replace_spaces_squeeze s :
  replace_all re_spaces [RText (lit " ")] s = squeeze false s.
Proof. apply (replace_spaces_squeeze_aux (S (length s))). lia. Qed.

Lemma collapse_spaces_normal s : ws_normal false (collapse_spaces s) = true.
Proof.
  unfold collapse_spaces. rewrite replace_spaces_squeeze.
  apply ws_normal_trim, ws_normal_squeeze.
Qed.

(** * The rules of the normaliser *)

(** C15: the last two steps of cleanNotionContent, the global replacement of
    white space runs and the trim, compute the one-pass reference: each
    maximal run of white space becomes one space, and the space at either
    end is dropped. *)
Theorem collapse_spaces_reference s : collapse_spaces s = trim (squeeze false s).
Proof. unfold collapse_spaces. by rewrite replace_spaces_squeeze. Qed.

(** C14: in cleaned content every white space unit is a single space between
    two units that are not white space: no tab or line break is left, no
    two spaces are adjacent, and neither end is white space. *)
Theorem cleaned_white_space content :
  ws_normal false (cleanNotionContent content) = true ∧
  trimmed (cleanNotionContent content).
Proof. split; [apply collapse_spaces_normal|apply trim_trimmed]. Qed.

(** Collapsing white space is idempotent. *)
Lemma collapse_spaces_idempotent s :
  collapse_spaces (collapse_spaces s) = collapse_spaces s.
Proof.
  pose proof (collapse_spaces_normal s) as H. revert H.
  unfold collapse_spaces. rewrite !replace_spaces_squeeze. intros H.
  by rewrite (squeeze_normal _ H), trim_idemp.
Qed.

(** * Properties the rewriting does not have *)

(** C31: cleanNotionContent is not idempotent: removing an empty div can
    leave a div that is empty in turn, which only a second run removes. *)
Theorem cleanNotionContent_not_idempotent :
  ¬ ∀ content,
      cleanNotionContent (cleanNotionContent content) = cleanNotionContent content.
Proof.
  intros H. specialize (H (lit "<div><div></div></div>")).
  vm_compute in H. discriminate H.
Qed.

(** C32: the content of the fallback path can hold a script element: the
    removal of script elements is one pass over the body, and the text
    around a removed element can close up to a new one. *)
Theorem fallback_keeps_script :
  ¬ ∀ html,
      match1 re_page_content html = None →
      occurs true (lit "<script") (content (parseNotionPage html)) = false.
Proof.
  intros H.
  specialize (H (lit "<body><scr<script></script>ipt>alert(1)</script></body>") eq_refl).
  vm_compute in H. discriminate H.
Qed.

(** C36: what the title rule does where its description says otherwise,
    on every page whose first title element holds a text [T] without line
    terminator and [<].  When [T] is white space alone the title is
    empty: Untitled is the title of a page without a title element only.
    When [T] is [A | Notion B] with no [|] in [A], the title is [A B]
    trimmed: the suffix text is removed where it first occurs, which
    need not be the end of [T], and a later occurrence stays. *)
Theorem title_rule_divergences pre open T close post :
  lit_prefix_at true (lit "<title>") pre (T ++ close ++ post) open →
  lit_ok true (lit "</title>") close →
  all_b (cls_test Dot) T = true → LT ∉ T →
  let t := title (parseNotionPage (pre ++ open ++ T ++ close ++ post)) in
  (all_b is_space T = true → t = []) ∧
  (∀ A B, T = A ++ lit " | Notion" ++ B → 124%N ∉ A → t = trim (A ++ B)).
Proof.
  intros Hopen Hclose HT HLT. cbn [title parseNotionPage]. unfold parse_title.
  rewrite (title_search _ _ _ _ _ Hopen Hclose HT HLT). cbn zeta. split.
  - intros Hw. rewrite replace_first_absent; [by apply trim_blank|].
    apply (includes_absent _ _ 124%N); [by_decide|].
    intros H. by apply (all_b_elem _ _ _ Hw) in H.
  - intros A B -> HA. rewrite replace_first_at; [done|].
    by apply (no_start_before _ _ _ 1 124%N); [|done|by_decide].
Qed.

Lemma title_rule_divergences_witness :
  let t := title (parseNotionPage (lit "<html><head>" ++ lit "<title>"
             ++ lit "A | Notion B | Notion" ++ lit "</title>" ++ lit "</head></html>")) in
  (all_b is_space (lit "A | Notion B | Notion") = true → t = []) ∧
  (∀ A B, lit "A | Notion B | Notion" = A ++ lit " | Notion" ++ B → 124%N ∉ A →
          t = trim (A ++ B)).
Proof.
  apply title_rule_divergences; [|apply lit_ok_refl|reflexivity|by_decide].
  apply lit_prefix_at_find; reflexivity.
Defined.

(** The same on three pages. *)
Lemma title_rule_examples :
  title (parseNotionPage (lit "<title></title>")) = [] ∧
  title (parseNotionPage (lit "<title> | Notion</title>")) = [] ∧
  title (parseNotionPage (lit "<title>A | Notion B | Notion</title>"))
  = lit "A B | Notion".
Proof. split_and!; reflexivity. Qed.

(** Rules of the normaliser that fire where they should not, on three
    contents: the rule for inline code rewrites the class of a code
    block, the rule for table header cells the opening tag of a thead
    element, and the rule for links an area element with an href. *)
Lemma rules_examples :
  cleanNotionContent (qlit "<pre class='notion-code-block'>x</pre>")
  = qlit "<pre class='bg-gray-100 px-2 py-1 rounded font-mono text-sm'>x</pre>" ∧
  cleanNotionContent (lit "<thead>")
  = qlit "<th class='border border-gray-300 px-4 py-2 bg-gray-100'>" ∧
  cleanNotionContent (qlit "<area href='x'>")
  = qlit "<a href='x' class='text-blue-600 hover:underline' target='_blank' rel='noopener noreferrer'>".
Proof. split_and!; reflexivity. Qed.
