(* ===== verification/Normalizer.v ===== *)
(** * Normalizer: which rules of cleanNotionContent fire

    The rules of cleanNotionContent (src/app/api/fetch-notion/route.ts,
    lines 122 to 152) are global replacements applied one after the
    other, so a rule sees what the rules before it have left.  This file
    follows one marker through the chain.

    The rule for inline code (line 133) rewrites every class attribute
    whose value starts with notion-code, and the rule for code blocks
    (line 140) looks for a class attribute whose value starts with
    notion-code-block.  [marked] says that a string holds the text
    [class=], a double quote and [notion-code] in front of a later double
    quote, which is what either rule needs.  The rule for inline code
    leaves no such place, the rules behind it (callout, images, links)
    create none, and so the rule for code blocks finds nothing to
    rewrite, whatever the content.

    The rules for table cells match an opening tag by the first letters
    of its name: [cell_rule_overreach].

    [marked], [inert] and the definitions around them belong to the
    proofs; the rules themselves are the definitions of [Extractor]. *)

From stdpp Require Import prelude list numbers strings.
From Stdlib Require Import Lia.
From S2P Require Import Prelude JsString Regex Types Extractor.

Set Warnings "-clear-no-such-hyp".

(** * The marker *)

(** [class='notion-code], where the apostrophe stands for a double
    quote: the literal that the patterns of lines 133 and 140 share. *)
Definition code_mark : str := qlit "class='notion-code".

(** The marker occurs in front of a later double quote. *)
Definition marked (s : str) : Prop := ∃ x y, s = x ++ code_mark ++ y ∧ DQ ∈ y.

(** The ways to cut the marker in two parts that are not empty. *)
Definition splits : list (str * str) :=
  (λ k, (take k code_mark, drop k code_mark)) <$> seq 1 (length code_mark - 1).

(** A text in which no marker occurs, which no proper suffix of the
    marker can start and no proper prefix of it can end. *)
Definition no_mark (C : str) : bool := negb (occurs false code_mark C).
Definition no_start (C : str) : bool := all_b (λ ab, clash ab.2 C) splits.
Definition no_end (C : str) : bool := all_b (λ ab, clash (reverse ab.1) (reverse C)) splits.
Definition inert (C : str) : bool := no_mark C && no_start C && no_end C.

(** No proper suffix of the marker starts the string. *)
Definition fresh_start (Z : str) : Prop :=
  ∀ a b y, a ≠ [] → b ≠ [] → code_mark = a ++ b → Z ≠ b ++ y.

(** * Occurrences of the marker *)

Lemma split_in a b : a ≠ [] → b ≠ [] → code_mark = a ++ b → (a, b) ∈ splits.
Proof.
  intros Ha Hb E. apply list_elem_of_fmap. exists (length a). split.
  - by rewrite E, take_app_length, drop_app_length.
  - apply elem_of_seq. apply (f_equal length) in E. rewrite length_app in E.
    destruct a, b; simpl in *; try done; lia.
Qed.

Lemma inert_no_mark C x w : inert C = true → C ≠ x ++ code_mark ++ w.
Proof.
  intros [[H _]%andb_true_iff _]%andb_true_iff ->.
  unfold no_mark in H. by rewrite occurs_app in H.
Qed.

Lemma inert_fresh_start C z : inert C = true → fresh_start (C ++ z).
Proof.
  intros [[_ H]%andb_true_iff _]%andb_true_iff a b y Ha Hb E E'.
  pose proof (all_b_elem _ _ _ H (split_in a b Ha Hb E)) as Hc.
  by apply (clash_app _ _ y z Hc).
Qed.

Lemma inert_no_end C a b x : inert C = true → a ≠ [] → b ≠ [] → code_mark = a ++ b → C ≠ x ++ a.
Proof.
  intros [_ H]%andb_true_iff Ha Hb E ->.
  pose proof (all_b_elem _ _ _ H (split_in a b Ha Hb E)) as Hc. simpl in Hc.
  rewrite reverse_app in Hc. apply (clash_app _ _ (reverse x) [] Hc). by rewrite app_nil_r.
Qed.

(** The marker in [u ++ Z]: inside [u], inside [Z], or across the two. *)
Lemma unmarked_app u Z :
  ¬ marked Z →
  (∀ x w, u ≠ x ++ code_mark ++ w) →
  (∀ a b x y, a ≠ [] → b ≠ [] → code_mark = a ++ b → u = x ++ a → Z = b ++ y → False) →
  ¬ marked (u ++ Z).
Proof.
  intros HZ Hin Hst (x & y & E & Hy). symmetry in E.
  apply occurrence_app in E as [(w & E & _)|[(w & -> & ->)|(a & b & Ha & Hb & Hp & -> & ->)]].
  - by apply (Hin x w).
  - apply HZ. by exists w, y.
  - by apply (Hst a b x y).
Qed.

Lemma unmarked_inert C Z : inert C = true → ¬ marked Z → ¬ marked (C ++ Z).
Proof.
  intros HC HZ. apply unmarked_app; [done|by intros; apply inert_no_mark|].
  intros a b x y Ha Hb E Hu _. by apply (inert_no_end C a b x).
Qed.

(** A text without a double quote holds no marker. *)
Lemma unmarked_quoteless g Z : DQ ∉ g → fresh_start Z → ¬ marked Z → ¬ marked (g ++ Z).
Proof.
  intros Hg Hs HZ. apply unmarked_app; [done| |].
  - intros x w ->. apply Hg. rewrite !elem_of_app. right. left. by_decide.
  - intros a b x y Ha Hb E _ ->. by apply (Hs a b y).
Qed.

Lemma unmarked_nil : ¬ marked [].
Proof. intros (x & y & E & _). by destruct x. Qed.

(** * A global replace that creates no marker *)

Section Unmarked.
Context (re : regex) (tpl : list rpart) (Pre : str → Prop).
Hypothesis Hne : ∀ s m, search re s = Some m → f_text m ≠ [].
Hypothesis Hnone : ∀ s, Pre s → search re s = None → ¬ marked s.
Hypothesis Hpost : ∀ s m, Pre s → search re s = Some m → Pre (f_post m).
Hypothesis Hpre : ∀ s m x w, Pre s → search re s = Some m → f_pre m ≠ x ++ code_mark ++ w.
Hypothesis Hrep : ∀ s m out, search re s = Some m → ¬ marked out →
  ¬ marked (expand re tpl (f_segs m) ++ out) ∧
  fresh_start (expand re tpl (f_segs m) ++ out).

Lemma replace_all_unmarked s : Pre s → ¬ marked (replace_all re tpl s).
Proof.
  apply (replace_all_ind re tpl (λ s out, Pre s → ¬ marked out));
    [done|by intros s' ??; apply Hnone|].
  clear s. intros s m out E IH HP. specialize (IH (Hpost _ _ HP E)).
  destruct (Hrep _ _ _ E IH) as [H1 H2].
  apply unmarked_app; [done|by intros; eapply Hpre| ].
  intros a b x y Ha Hb Hm _ Hy. by apply (H2 a b y).
Qed.
End Unmarked.

(** * The matches of the rules *)

Ltac segments H :=
  repeat lazymatch type of H with
  | Forall2 _ (_ :: _) _ =>
      let t := fresh "t" in
      let Ht := fresh "Ht" in
      apply Forall2_cons_inv_l in H as (t & ? & Ht & H & ->)
  | Forall2 _ [] _ => apply Forall2_nil_inv_l in H as ->
  end.

Lemma notchar_all c r : all_b (cls_test (NotChar c)) r = true ↔ c ∉ r.
Proof.
  rewrite all_b_Forall, Forall_forall. simpl. split.
  - intros H Hc. specialize (H c Hc). by rewrite N.eqb_refl in H.
  - intros H x Hx. apply negb_true_iff, N.eqb_neq. by intros ->.
Qed.

(** A match is a decomposition of a part of the subject along the items. *)
Lemma search_segments re s m :
  search re s = Some m →
  Forall2 (item_ok (rx_ci re)) (rx_items re) (f_segs m) ∧
  s = f_pre m ++ f_text m ++ f_post m.
Proof.
  intros (E & Hx & _)%search_Some. by apply exec_items_sound in Hx as [HF _].
Qed.

(** A match of a rule that starts with a literal is not empty. *)
Lemma lit_match_nonempty re p r s m :
  rx_items re = Lit p :: r → p ≠ [] → search re s = Some m → f_text m ≠ [].
Proof.
  intros Hre Hp [HF _]%search_segments. rewrite Hre in HF. unfold f_text.
  apply Forall2_cons_inv_l in HF as (t & k & Ht%lit_ok_length & _ & ->).
  destruct t; [by destruct p|done].
Qed.

(** A literal of a case-sensitive rule is part of every match. *)
Lemma match_has_literal re p c s m :
  rx_ci re = false → Lit p ∈ rx_items re → c ∈ p →
  search re s = Some m → c ∈ f_text m.
Proof.
  intros Hci Hp Hc [HF _]%search_segments. rewrite Hci in HF.
  apply list_elem_of_lookup in Hp as [i Hi].
  destruct (Forall2_lookup_l _ _ _ _ _ HF Hi) as (t & Ht & ->%lit_ok_exact).
  apply elem_of_concat. exists p. split; [done|by eapply list_elem_of_lookup_2].
Qed.

(** The rule for inline code matches wherever the marker is followed by a
    double quote. *)
Lemma code_rule_fires y : DQ ∈ y → is_Some (exec_at (re_class "code") (code_mark ++ y)).
Proof.
  intros (r & rest & -> & Hr)%list_elem_of_split_l.
  apply (exec_items_complete _ _ _ [code_mark; r; [DQ]]). split.
  - constructor; [apply lit_ok_refl|].
    constructor; [split; [simpl; lia|by apply notchar_all]|].
    constructor; [apply lit_ok_refl|constructor].
  - exists rest. simpl. by rewrite <-!app_assoc.
Qed.

Lemma marked_search s : marked s → search (re_class "code") s ≠ None.
Proof.
  intros (x & y & -> & Hy) H. rewrite search_None in H.
  specialize (H (length x)). rewrite drop_app_length, length_app in H.
  destruct (code_rule_fires y Hy) as [segs E]. rewrite E in H. by specialize (H ltac:(lia)).
Qed.

(** What is left behind a match is unmarked when the subject is. *)
Lemma unmarked_post re s m : ¬ marked s → search re s = Some m → ¬ marked (f_post m).
Proof.
  intros Hs [_ E]%search_segments (x & y & Ep & Hy). apply Hs.
  exists (f_pre m ++ f_text m ++ x), y. split; [|done].
  rewrite E at 1. rewrite Ep. by rewrite <-!app_assoc.
Qed.

(** So is what a match with a double quote leaves in front of it. *)
Lemma unmarked_pre re s m x w :
  (∀ s m, search re s = Some m → DQ ∈ f_text m) →
  ¬ marked s → search re s = Some m → f_pre m ≠ x ++ code_mark ++ w.
Proof.
  intros Hq Hs E Ep. pose proof (Hq _ _ E) as Hd. apply search_segments in E as [_ E].
  apply Hs. exists x, (w ++ f_text m ++ f_post m). split; [|set_solver].
  rewrite E at 1. rewrite Ep. by rewrite <-!app_assoc.
Qed.

(** * The rules keep a content unmarked *)

Lemma expand_text re t segs : expand re [RText t] segs = t.
Proof. unfold expand. simpl. apply app_nil_r. Qed.

Lemma class_rule_quoted name s m : search (re_class name) s = Some m → DQ ∈ f_text m.
Proof.
  apply (match_has_literal _ (qlit "'")); [done| |by_decide].
  simpl. set_solver.
Qed.

Lemma class_rule_nonempty name s m : search (re_class name) s = Some m → f_text m ≠ [].
Proof.
  apply (lit_match_nonempty (re_class name) (qlit "class='notion-" ++ lit name) _ s m eq_refl).
  by destruct name.
Qed.

(** A replacement by text that takes no part in a marker. *)
Lemma unmarked_text C out :
  inert C = true → ¬ marked out → ¬ marked (C ++ out) ∧ fresh_start (C ++ out).
Proof. split; [by apply unmarked_inert|by apply inert_fresh_start]. Qed.

(** A replacement that copies a group without a double quote between two
    such texts. *)
Lemma unmarked_template R1 g R2 out :
  inert R1 = true → inert R2 = true → DQ ∉ g → ¬ marked out →
  ¬ marked (R1 ++ g ++ R2 ++ out) ∧ fresh_start (R1 ++ g ++ R2 ++ out).
Proof.
  intros H1 H2 Hg Ho. split; [|by apply inert_fresh_start].
  apply unmarked_inert; [done|]. apply unmarked_quoteless; [done| |].
  - by apply inert_fresh_start.
  - by apply unmarked_inert.
Qed.

(** The rule for inline code leaves no marker in front of a double
    quote, whatever the content. *)
Lemma set_class_code_unmarked classes s :
  inert (qlit "class='" ++ lit classes ++ qlit "'") = true →
  ¬ marked (set_class "code" classes s).
Proof.
  intros HC. apply (replace_all_unmarked _ _ (λ _, True)); [..|done].
  - apply class_rule_nonempty.
  - intros s' _ H Hm. by apply marked_search in Hm.
  - done.
  - intros s' m x w _ E Ep. pose proof (class_rule_quoted _ _ _ E) as Hd.
    apply search_Some in E as (Es & _ & Hj). specialize (Hj (length x)).
    rewrite Es, Ep, <-!app_assoc, drop_app_length, !length_app in Hj.
    destruct (code_rule_fires (w ++ f_text m ++ f_post m)) as [segs E]; [set_solver|].
    rewrite E in Hj. by specialize (Hj ltac:(simpl; lia)).
  - intros s' m out _ Ho. rewrite expand_text. by apply unmarked_text.
Qed.

(** A rule whose matches hold a double quote and whose replacement takes
    no part in a marker keeps a content unmarked. *)
Lemma set_class_unmarked name classes s :
  inert (qlit "class='" ++ lit classes ++ qlit "'") = true →
  ¬ marked s → ¬ marked (set_class name classes s).
Proof.
  intros HC. apply (replace_all_unmarked _ _ (λ s, ¬ marked s)).
  - apply class_rule_nonempty.
  - done.
  - intros s' m. apply unmarked_post.
  - intros s' m x w. apply unmarked_pre, class_rule_quoted.
  - intros s' m out _ Ho. rewrite expand_text. by apply unmarked_text.
Qed.

Lemma clean_classes_unmarked s : ¬ marked (clean_classes s).
Proof.
  unfold clean_classes. apply set_class_unmarked; [by vm_compute|].
  apply set_class_code_unmarked. by vm_compute.
Qed.

(** The replacement of an image: its texts around the source, which
    holds no double quote. *)
Lemma image_expand s m tpl :
  search re_image s = Some m →
  tpl = [RText (qlit "<img src='"); RGroup 1;
         RText (qlit "' class='max-w-full h-auto mb-4 rounded' alt='Notion image' />")] →
  ∃ g, (DQ ∉ g) ∧
    expand re_image tpl (f_segs m)
    = (qlit "<img src='" ++ g
       ++ qlit "' class='max-w-full h-auto mb-4 rounded' alt='Notion image' />").
Proof.
  intros [HF _]%search_segments ->. cbn [rx_items re_image] in HF. segments HF.
  eexists. split; [|unfold expand; simpl; by rewrite ?app_nil_r].
  apply notchar_all. by destruct Ht6.
Qed.

Lemma link_expand s m tpl :
  search re_link s = Some m →
  tpl = [RText (qlit "<a href='"); RGroup 1;
         RText (qlit "' class='text-blue-600 hover:underline' target='_blank' rel='noopener noreferrer'>")] →
  ∃ g, (DQ ∉ g) ∧
    expand re_link tpl (f_segs m)
    = (qlit "<a href='" ++ g
       ++ qlit "' class='text-blue-600 hover:underline' target='_blank' rel='noopener noreferrer'>").
Proof.
  intros [HF _]%search_segments ->. cbn [rx_items re_link] in HF. segments HF.
  eexists. split; [|unfold expand; simpl; by rewrite ?app_nil_r].
  apply notchar_all. by destruct Ht2.
Qed.

Lemma rewrite_images_unmarked s : ¬ marked s → ¬ marked (rewrite_images s).
Proof.
  assert (∀ s m, search re_image s = Some m → DQ ∈ f_text m) as Hq.
  { intros s' m. apply (match_has_literal _ (qlit "src='")); [done| |by_decide].
    simpl. set_solver. }
  apply (replace_all_unmarked _ _ (λ s, ¬ marked s)).
  - intros s' m. by apply (lit_match_nonempty re_image (lit "<img") _ s' m eq_refl).
  - done.
  - intros s' m. apply unmarked_post.
  - intros s' m x w. by apply unmarked_pre.
  - intros s' m out E Ho. destruct (image_expand _ _ _ E eq_refl) as (g & Hg & ->).
    rewrite <-!app_assoc. by apply unmarked_template; [vm_compute..| |].
Qed.

Lemma rewrite_links_unmarked s : ¬ marked s → ¬ marked (rewrite_links s).
Proof.
  assert (∀ s m, search re_link s = Some m → DQ ∈ f_text m) as Hq.
  { intros s' m. apply (match_has_literal _ (qlit "href='")); [done| |by_decide].
    simpl. set_solver. }
  apply (replace_all_unmarked _ _ (λ s, ¬ marked s)).
  - intros s' m. by apply (lit_match_nonempty re_link (lit "<a") _ s' m eq_refl).
  - done.
  - intros s' m. apply unmarked_post.
  - intros s' m x w. by apply unmarked_pre.
  - intros s' m out E Ho. destruct (link_expand _ _ _ E eq_refl) as (g & Hg & ->).
    rewrite <-!app_assoc. by apply unmarked_template; [vm_compute..| |].
Qed.

(** The rule for code blocks matches marked strings only. *)
Lemma code_block_mark : qlit "class='notion-code-block" = code_mark ++ lit "-block".
Proof. reflexivity. Qed.

Lemma code_block_marked s m : search re_code_block s = Some m → marked s.
Proof.
  intros [HF E]%search_segments. cbn [rx_items rx_ci re_code_block] in HF.
  unfold f_text in E. destruct m as [pre segs post]. cbn [f_pre f_segs f_post] in *.
  segments HF. apply lit_ok_exact in Ht1, Ht3. subst t1 t3.
  exists (pre ++ t ++ t0), (lit "-block" ++ t2 ++ qlit "'" ++ concat [t4; t5; t6; t7] ++ post).
  split; [|rewrite !elem_of_app; right; right; left; by_decide].
  rewrite E, code_block_mark. cbn [concat]. by rewrite <-!app_assoc.
Qed.

(** * Rules that cannot fire on a content without a double quote *)

(** A case-sensitive rule with a literal that holds a unit finds nothing
    in a subject without that unit. *)
Lemma search_absent re p c s :
  rx_ci re = false → Lit p ∈ rx_items re → c ∈ p → c ∉ s → search re s = None.
Proof.
  intros Hci Hp Hc Hs. destruct (search re s) as [m|] eqn:E; [|done].
  pose proof (match_has_literal _ _ _ _ _ Hci Hp Hc E) as Hm.
  apply search_segments in E as [_ E]. destruct Hs. rewrite E. set_solver.
Qed.

Ltac no_quote p :=
  intros; apply replace_all_nomatch, (search_absent _ p DQ);
    [done|simpl; set_solver|by_decide|done].

Lemma set_class_quoteless name classes s : DQ ∉ s → set_class name classes s = s.
Proof. no_quote (qlit "'"). Qed.

Lemma clean_classes_quoteless s : DQ ∉ s → clean_classes s = s.
Proof.
  intros. unfold clean_classes.
  by repeat match goal with
     | |- context [set_class ?n ?c s] => rewrite (set_class_quoteless n c s) by done
     end.
Qed.

Lemma rewrite_images_quoteless s : DQ ∉ s → rewrite_images s = s.
Proof. no_quote (qlit "src='"). Qed.

Lemma rewrite_links_quoteless s : DQ ∉ s → rewrite_links s = s.
Proof. no_quote (qlit "href='"). Qed.

Lemma rewrite_code_blocks_quoteless s : DQ ∉ s → rewrite_code_blocks s = s.
Proof. no_quote (qlit "'"). Qed.

Lemma rewrite_tables_quoteless s : DQ ∉ s → rewrite_tables s = s.
Proof. no_quote (qlit "'"). Qed.

(** * The rules for table cells *)

(** The rule for the cells [tag] rewrites the first opening tag whose
    name starts with [tag], whatever follows the name up to the closing
    angle bracket. *)
Lemma cell_rule_at tag classes pre r post :
  lit_prefix_at false (lit "<" ++ lit tag) pre (r ++ lit ">" ++ post) (lit "<" ++ lit tag) →
  GT ∉ r →
  set_cell tag classes (pre ++ (lit "<" ++ lit tag) ++ r ++ lit ">" ++ post)
  = pre ++ (lit "<" ++ lit tag ++ qlit " class='" ++ lit classes ++ qlit "'>")
    ++ set_cell tag classes post.
Proof.
  intros [_ Hpre] Hr. unfold set_cell.
  rewrite (replace_all_at _ _ pre _ [lit "<" ++ lit tag; r; lit ">"]).
  - rewrite expand_text. do 2 f_equal. cbn [concat]. rewrite app_nil_r.
    by rewrite !app_assoc, drop_app_length.
  - intros j Hj.
    by apply (exec_at_lit_None (re_open_tag tag) (lit "<" ++ lit tag) _ eq_refl), Hpre.
  - unfold exec_at. cbn [rx_ci rx_items re_open_tag].
    rewrite exec_lit by apply lit_ok_refl.
    erewrite exec_rep_greedy; [done|by apply notchar_all|lia| |by rewrite exec_lit by apply lit_ok_refl].
    by intros c s' [= <- _].
  - done.
Qed.

(** * What the chain does *)

(** C37: the rule for code blocks never fires.  Whatever the content, the
    text that the rule is applied to (the content behind the class rules
    and the rules for images and links) holds no match of its pattern:
    the rule for inline code, which runs before it, has rewritten every
    class attribute whose value starts with notion-code, the marker
    notion-code-block among them.  cleanNotionContent is the chain
    without the rule for code blocks. *)
Theorem code_block_rule_dead content :
  let s := rewrite_links (rewrite_images (clean_classes content)) in
  search re_code_block s = None ∧
  rewrite_code_blocks s = s ∧
  cleanNotionContent content
  = collapse_spaces (remove_empty
      (set_cell "td" "border border-gray-300 px-4 py-2"
         (set_cell "th" "border border-gray-300 px-4 py-2 bg-gray-100"
            (rewrite_tables s)))).
Proof.
  intros s. assert (search re_code_block s = None) as H.
  { destruct (search re_code_block s) as [m|] eqn:E; [|done].
    destruct (rewrite_links_unmarked _
                (rewrite_images_unmarked _ (clean_classes_unmarked content))).
    by eapply code_block_marked. }
  assert (rewrite_code_blocks s = s) as E by by apply replace_all_nomatch.
  split_and!; [done..|]. unfold cleanNotionContent, clean_elements. fold s. by rewrite E.
Qed.

(** C29: the rule for table header cells matches an opening tag by the
    first letters of its name.  Behind a text in which [<th] does not
    occur, a tag that starts with [<th] is rewritten to the th tag of the
    rule whatever its name and attributes are, up to the next closing
    angle bracket; and cleanNotionContent maps every such tag that holds
    no double quote, standing alone, to that th tag: the opening tag of a
    thead element is one of them. *)
Theorem cell_rule_overreach classes pre r post :
  lit_prefix_at false (lit "<th") pre (r ++ lit ">" ++ post) (lit "<th") →
  GT ∉ r →
  set_cell "th" classes (pre ++ lit "<th" ++ r ++ lit ">" ++ post)
  = pre ++ (lit "<th" ++ qlit " class='" ++ lit classes ++ qlit "'>")
    ++ set_cell "th" classes post ∧
  (DQ ∉ r →
   cleanNotionContent (lit "<th" ++ r ++ lit ">")
   = qlit "<th class='border border-gray-300 px-4 py-2 bg-gray-100'>").
Proof.
  intros Hpre Hr. split; [by apply (cell_rule_at "th")|]. intros Hq.
  assert (DQ ∉ lit "<th" ++ r ++ lit ">") as Hs.
  { rewrite !elem_of_app. intros [H|[H|H]]; [|done|]; revert H; by_decide. }
  unfold cleanNotionContent, clean_elements.
  rewrite clean_classes_quoteless, rewrite_images_quoteless, rewrite_links_quoteless,
    rewrite_code_blocks_quoteless, rewrite_tables_quoteless by done.
  change (lit "<th" ++ r ++ lit ">") with ([] ++ (lit "<" ++ lit "th") ++ r ++ lit ">" ++ []).
  rewrite cell_rule_at; [reflexivity| |done].
  split; [apply lit_ok_refl|]. intros j Hj. simpl in Hj. lia.
Qed.

Lemma cell_rule_overreach_witness :
  set_cell "th" "x" (lit "<table>" ++ lit "<th" ++ lit "ead" ++ lit ">" ++ lit "<tr>")
  = lit "<table>" ++ (lit "<th" ++ qlit " class='" ++ lit "x" ++ qlit "'>")
    ++ set_cell "th" "x" (lit "<tr>") ∧
  (DQ ∉ lit "ead" →
   cleanNotionContent (lit "<th" ++ lit "ead" ++ lit ">")
   = qlit "<th class='border border-gray-300 px-4 py-2 bg-gray-100'>").
Proof.
  apply (cell_rule_overreach "x" (lit "<table>") (lit "ead") (lit "<tr>")); [|by_decide].
  apply lit_prefix_at_find; reflexivity.
Defined.
