(* ===== verification/Routes.v ===== *)
(** * Routes: the two request handlers

    [fetch_POST] is POST of src/app/api/fetch-notion/route.ts and
    [export_POST] is POST of src/app/api/export-pdf/route.ts, written in the
    monad of [Effects].  The outside world is a parameter: the outcome of
    the URL constructor and of fetch for the first handler, the outcome of
    each call on the headless browser for the second.  The state of a
    handler is what it has done to the world: the requests it has sent, the
    calls it has made on the browser and the local variable [browser] that
    the catch block consults.

    A request body is a JSON value or a text that is not JSON.  An object
    is the list of its members as the text has them, of which JSON.parse
    keeps the last for a key that occurs twice.  A number is an integer in
    the model, zero for the number zero: the handlers only test whether a
    value is falsy, and hand it on to the outside world.

    [NextResponse_json] is NextResponse.json with a status: the
    constructor of a response throws on a status outside 200 to 599 and
    on a null body status, which matters where the status is the one the
    upstream sent. *)

From stdpp Require Import prelude list numbers strings pretty.
From Stdlib Require Import Lia.
From S2P Require Import Prelude JsString Regex Types Effects Extractor.

Set Warnings "-register-all".
Set Warnings "-clear-no-such-hyp".

(** * JSON values and the requests *)

Inductive json :=
  | JNull
  | JBool (b : bool)
  | JNum (n : Z)
  | JStr (s : str)
  | JArr (l : list json)
  | JObj (fields : list (string * json)).

#[export] Instance json_eq_dec : EqDecision json.
Proof.
  unfold EqDecision, Decision. fix IH 1. intros [] []; try (right; congruence).
  - by left.
  - destruct (decide (b = b0)); [left|right]; congruence.
  - destruct (decide (n = n0)); [left|right]; congruence.
  - destruct (decide (s = s0)); [left|right]; congruence.
  - destruct (list_eq_dec (dec := IH) l l0); [left|right]; congruence.
  - assert (EqDecision (string * json)) as Hp.
    { intros [k v] [k' v']. destruct (decide (k = k')); [|right; congruence].
      destruct (IH v v'); [left|right]; congruence. }
    destruct (list_eq_dec fields fields0); [left|right]; congruence.
Defined.

(** [!v] for a value that may be undefined. *)
Definition falsy (v : option json) : bool :=
  match v with
  | None | Some JNull | Some (JBool false) | Some (JNum 0) | Some (JStr []) => true
  | _ => false
  end.

(** The value of a property of an object; undefined on the other values.
    Of two members with the same key the parsed object holds the last. *)
Definition field (k : string) (v : json) : option json :=
  match v with
  | JObj fields => (λ x, x.2.2) <$> list_find (λ kv, kv.1 = k) (reverse fields)
  | _ => None
  end.

Inductive response :=
  | Json (status : nat) (error : str)
  | Page (status : nat) (data : NotionPageData)
  | PdfFile (status : nat) (body : str).

(** The statuses of a response that has no body. *)
Definition null_body_status (status : nat) : bool :=
  bool_decide (status ∈ [101; 103; 204; 205; 304]).

Section Handlers.
Context {S : Type}.

(** [NextResponse.json({ error }, { status })]: the constructor of the
    response throws a RangeError on a status outside 200 to 599, and a
    TypeError on a null body status, since the response has a body. *)
Definition NextResponse_json (error : str) (status : nat) : eff S exn response :=
  if negb ((200 <=? status) && (status <=? 599)) then throw RangeError
  else if null_body_status status then throw TypeError
  else mret (Json status error).

(** [await request.json()]: the parsed body, or a SyntaxError. *)
Definition request_json (request : option json) : eff S exn json :=
  match request with
  | Some v => mret v
  | None => throw SyntaxError
  end.

(** [const { k } = v]: a TypeError on null, undefined when [v] has no
    such property. *)
Definition destructure (k : string) (v : json) : eff S exn (option json) :=
  match v with
  | JNull => throw TypeError
  | _ => mret (field k v)
  end.

End Handlers.

(** * The ingestion route *)

Inductive fetched :=
  | NetworkFailure
  | Response (ok : bool) (status : nat) (statusText : str) (text : option str).

Section FetchRoute.
(** [new URL(v).hostname], None when the constructor throws; and the
    outcome of [fetch(v, ...)] followed by [response.text()]. *)
Context (hostname : json → option str) (fetch : json → fetched).

(** The state: the values fetch has been called with, in order. *)
Definition new_URL (v : json) : eff (list json) exn str :=
  match hostname v with
  | Some h => mret h
  | None => throw TypeError
  end.

Definition do_fetch (v : json) : eff (list json) exn fetched :=
  _ ← modify (λ sent, sent ++ [v]);
  match fetch v with
  | NetworkFailure => throw (Rejected "fetch")
  | r => mret r
  end.

Definition response_text (r : fetched) : eff (list json) exn str :=
  match r with
  | Response _ _ _ (Some html) => mret html
  | _ => throw (Rejected "text")
  end.

(** The inner try statement: a response when validation fails. *)
Definition validate (url : json) : eff (list json) exn (option response) :=
  try_catch
    (notionUrl ← new_URL url;
     if negb (includes (lit "notion.site") notionUrl)
     then r ← NextResponse_json (lit "Please provide a valid Notion page URL") 400;
          mret (Some r)
     else mret None)
    (λ _, r ← NextResponse_json (lit "Invalid URL format") 400; mret (Some r)).

Definition fetch_failed (status : nat) (statusText : str) : str :=
  lit "Failed to fetch page: " ++ lit (pretty status) ++ lit " " ++ statusText.

Definition fetch_body (request : option json) : eff (list json) exn response :=
  body ← request_json request;
  url ← destructure "url" body;
  if falsy url then NextResponse_json (lit "URL is required") 400 else
  let url := default JNull url in
  invalid ← validate url;
  match invalid with
  | Some r => mret r
  | None =>
      r ← do_fetch url;
      match r with
      | Response false status statusText _ =>
          NextResponse_json (fetch_failed status statusText) status
      | _ =>
          html ← response_text r;
          mret (Page 200 (parseNotionPage html))
      end
  end.

Definition fetch_POST (request : option json) : eff (list json) exn response :=
  try_catch (fetch_body request)
    (λ _, NextResponse_json
       (lit "Failed to fetch Notion page. Please check the URL and try again.") 500).

(** ** The decision table of the handler *)

(** The URL the handler fetches: the [url] property of the body when it is
    truthy and its host name contains notion.site. *)
Definition accepted_url (request : option json) : option json :=
  match request with
  | Some body =>
      match field "url" body with
      | Some url =>
          if falsy (Some url) then None else
          match hostname url with
          | Some h => if includes (lit "notion.site") h then Some url else None
          | None => None
          end
      | None => None
      end
  | None => None
  end.

Definition failed : response :=
  Json 500 (lit "Failed to fetch Notion page. Please check the URL and try again.").

(** The response to a request that is not accepted. *)
Definition rejection (request : option json) : response :=
  match request with
  | None => failed
  | Some body =>
      let url := field "url" body in
      if decide (body = JNull) then failed
      else if falsy url then Json 400 (lit "URL is required")
      else match hostname (default JNull url) with
           | None => Json 400 (lit "Invalid URL format")
           | Some _ => Json 400 (lit "Please provide a valid Notion page URL")
           end
  end.

(** The statuses that a response with a body can carry. *)
Definition sendable (status : nat) : bool :=
  bool_decide (200 ≤ status ≤ 599 ∧ status ∉ [204; 205; 304]).

(** The response once the upstream has answered. *)
Definition relay (r : fetched) : response :=
  match r with
  | Response false status statusText _ =>
      if sendable status then Json status (fetch_failed status statusText) else failed
  | Response true _ _ (Some html) => Page 200 (parseNotionPage html)
  | _ => failed
  end.

Definition fetch_spec (request : option json) (sent : list json) : response * list json :=
  match accepted_url request with
  | Some url => (relay (fetch url), sent ++ [url])
  | None => (rejection request, sent)
  end.

End FetchRoute.

(** * The export route *)

Inductive call :=
  | Launch
  | NewPage
  | SetContent (html : json)
  | PrintPdf
  | Close.

Inductive reply :=
  | Fails
  | Done (payload : str).

(** The state: the calls made on the browser with their outcomes, and the
    local variable [browser] (set when launch has returned). *)
Record ExportState := mkExport {
  calls : list (call * reply);
  browser : bool;
}.

#[export] Instance call_eq_dec : EqDecision call.
Proof. solve_decision. Defined.

#[export] Instance reply_eq_dec : EqDecision reply.
Proof. solve_decision. Defined.

Definition fresh : ExportState := mkExport [] false.

(** The browsers that are open after a sequence of calls. *)
Definition open_browsers (l : list (call * reply)) : Z :=
  foldl (λ n cr, match cr with
                 | (Launch, Done _) => n + 1
                 | (Close, Done _) => n - 1
                 | _ => n
                 end)%Z 0%Z l.

(** The five calls of a successful export, with their payloads. *)
Definition success (html : json) (a b c pdf d : str) : list (call * reply) :=
  [(Launch, Done a); (NewPage, Done b); (SetContent html, Done c);
   (PrintPdf, Done pdf); (Close, Done d)].

Definition export_failed : response :=
  Json 500 (lit "Failed to export PDF. Please try again.").

Section ExportRoute.
(** The outcome of a call, given the calls made before it. *)
Context (world : list (call * reply) → call → reply).

Definition what (c : call) : string :=
  match c with
  | Launch => "launch" | NewPage => "newPage" | SetContent _ => "setContent"
  | PrintPdf => "pdf" | Close => "close"
  end.

Definition ext (c : call) : eff ExportState exn str :=
  λ st, let r := world (calls st) c in
        let st' := mkExport (calls st ++ [(c, r)]) (browser st) in
        match r with
        | Done p => (Ret p, st')
        | Fails => (Throw (Rejected (what c)), st')
        end.

Definition set_browser (b : bool) : eff ExportState exn unit :=
  modify (λ st, mkExport (calls st) b).

Definition export_try (html : json) : eff ExportState exn response :=
  _ ← ext Launch;
  _ ← set_browser true;
  _ ← ext NewPage;
  _ ← ext (SetContent html);
  pdfBuffer ← ext PrintPdf;
  _ ← ext Close;
  mret (PdfFile 200 pdfBuffer).

Definition export_catch : eff ExportState exn response :=
  st ← get;
  _ ← when (browser st) (_ ← ext Close; mret ());
  NextResponse_json (lit "Failed to export PDF. Please try again.") 500.

Definition export_POST (request : option json) : eff ExportState exn response :=
  body ← request_json request;
  html ← destructure "html" body;
  if falsy html then NextResponse_json (lit "No HTML provided") 400 else
  _ ← set_browser false;
  try_catch (export_try (default JNull html)) (λ _, export_catch).

(** ** The calls of the try block *)

(** The calls of the try block, in the order of the source. *)
Definition steps (html : json) : list call :=
  [Launch; NewPage; SetContent html; PrintPdf; Close].

(** What becomes of a sequence of calls made one after the other behind
    the calls [l]: each is made when all before it have succeeded. *)
Fixpoint attempt (cs : list call) (l : list (call * reply)) : list (call * reply) :=
  match cs with
  | [] => l
  | c :: cs =>
      match world l c with
      | Done p => attempt cs (l ++ [(c, Done p)])
      | Fails => l ++ [(c, Fails)]
      end
  end.

End ExportRoute.

(** * Sample worlds *)

(** A request for a page of the workspace acme. *)
Definition acme_url : json := JStr (lit "https://acme.notion.site/Meeting-Notes").
Definition acme_request : option json := Some (JObj [("url", acme_url)]).

(** A URL constructor that knows two URLs, and an upstream that serves
    the page of acme and has nothing else. *)
Definition sample_hostname (v : json) : option str :=
  if decide (v = acme_url) then Some (lit "acme.notion.site")
  else if decide (v = JStr (lit "https://notion.site.evil.example/x"))
  then Some (lit "notion.site.evil.example")
  else None.

Definition sample_fetch (v : json) : fetched :=
  if decide (v = acme_url)
  then Response true 200 (lit "OK") (Some (lit "<title>Meeting Notes | Notion</title>"))
  else Response false 404 (lit "Not Found") None.

Definition html_request : option json := Some (JObj [("html", JStr (lit "<p>x</p>"))]).

(** A browser on which every call succeeds, and one that cannot load
    content. *)
Definition good_browser (l : list (call * reply)) (c : call) : reply :=
  match c with PrintPdf => Done (lit "%PDF-1.4") | _ => Done [] end.

(** A browser that launches and then fails on every call. *)
Definition stuck_browser (l : list (call * reply)) (c : call) : reply :=
  match c with Launch => Done [] | _ => Fails end.

Definition bad_content (l : list (call * reply)) (c : call) : reply :=
  match c with SetContent _ => Fails | _ => Done [] end.

(** * Running the handlers *)

(** The primitives are opaque to [simpl]; their equations drive the
    symbolic execution of a handler, one call at a time. *)
#[global] Arguments request_json : simpl never.
#[global] Arguments destructure : simpl never.
#[global] Arguments field : simpl never.
#[global] Arguments falsy : simpl never.
#[global] Arguments new_URL : simpl never.
#[global] Arguments do_fetch : simpl never.
#[global] Arguments response_text : simpl never.
#[global] Arguments ext : simpl never.
#[global] Arguments set_browser : simpl never.
#[global] Arguments sendable : simpl never.

Section Primitives.
Context {S : Type}.
Implicit Types s : S.

Lemma request_json_Some v s : request_json v s = (from_option Ret (Throw SyntaxError) v, s).
Proof. by destruct v. Qed.

Lemma destructure_null k s : destructure k JNull s = (Throw TypeError, s).
Proof. done. Qed.

Lemma destructure_field k v s : v ≠ JNull → destructure k v s = (Ret (field k v), s).
Proof. by destruct v. Qed.

Lemma field_Some k body v : field k body = Some v → body ≠ JNull.
Proof. by destruct body. Qed.

Lemma falsy_None : falsy None = true.
Proof. done. Qed.

Lemma sendable_spec status :
  sendable status
  = (200 <=? status) && (status <=? 599) && negb (null_body_status status).
Proof.
  unfold sendable, null_body_status.
  destruct (Nat.leb_spec 200 status), (Nat.leb_spec status 599); simpl;
    try (apply bool_decide_eq_false; lia).
  rewrite <-bool_decide_not. apply bool_decide_ext.
  rewrite !not_elem_of_cons. pose proof (not_elem_of_nil status). intuition lia.
Qed.

(** NextResponse.json returns on the statuses a response with a body can
    carry, and throws on the others. *)
Lemma NextResponse_json_eq error status s :
  NextResponse_json error status s
  = (if sendable status then Ret (Json status error)
     else Throw (if (200 <=? status) && (status <=? 599) then TypeError else RangeError), s).
Proof.
  rewrite sendable_spec. unfold NextResponse_json.
  destruct (_ && _); [|done]. by destruct (null_body_status status).
Qed.

End Primitives.

Section FetchFacts.
Context (hostname : json → option str) (fetch : json → fetched).
Implicit Types (request : option json) (sent : list json).

Lemma new_URL_eq v sent :
  new_URL hostname v sent = (from_option Ret (Throw TypeError) (hostname v), sent).
Proof. unfold new_URL. by destruct (hostname v). Qed.

Lemma do_fetch_eq v sent :
  do_fetch fetch v sent
  = (match fetch v with NetworkFailure => Throw (Rejected "fetch") | r => Ret r end,
     sent ++ [v]).
Proof. unfold do_fetch. rewrite bind_unfold. simpl. by destruct (fetch v). Qed.

(** Validation: the three outcomes of the inner try statement. *)
Lemma validate_eq v sent :
  validate hostname v sent
  = (Ret match hostname v with
         | None => Some (Json 400 (lit "Invalid URL format"))
         | Some h =>
             if includes (lit "notion.site") h then None
             else Some (Json 400 (lit "Please provide a valid Notion page URL"))
         end, sent).
Proof.
  unfold validate, try_catch. rewrite bind_unfold, new_URL_eq.
  destruct (hostname v) as [h|]; simpl; [|done]. by destruct (includes _ h).
Qed.

Lemma fetch_POST_returns request sent : returns (fetch_POST hostname fetch request) sent.
Proof. apply try_catch_returns. intros e s'. by eexists _, _. Qed.

Lemma accepted_url_Some request url :
  accepted_url hostname request = Some url ↔
  ∃ body h, request = Some body ∧ field "url" body = Some url ∧
    falsy (Some url) = false ∧ hostname url = Some h ∧
    includes (lit "notion.site") h = true.
Proof.
  unfold accepted_url. split.
  - intros H. repeat case_match; simplify_eq. eauto 10.
  - intros (body & h & -> & -> & -> & -> & ->). done.
Qed.

(** The handler computes its decision table, and never throws. *)
Lemma fetch_POST_eq request sent :
  fetch_POST hostname fetch request sent
  = (Ret (fetch_spec hostname fetch request sent).1,
     (fetch_spec hostname fetch request sent).2).
Proof.
  unfold fetch_POST, fetch_body, fetch_spec, accepted_url, rejection, try_catch.
  rewrite bind_unfold, request_json_Some. destruct request as [body|]; simpl; [|done].
  rewrite bind_unfold. destruct (decide (body = JNull)) as [->|Hb]; [done|].
  rewrite destructure_field by done.
  destruct (field "url" body) as [url|]; simpl; [|done].
  destruct (falsy (Some url)); [done|].
  rewrite bind_unfold, validate_eq.
  destruct (hostname url) as [h|]; [|done]. destruct (includes _ h); [|done].
  rewrite bind_unfold, do_fetch_eq. unfold relay.
  destruct (fetch url) as [|[] status ? []]; try done;
    cbn [fst snd]; rewrite NextResponse_json_eq; by destruct (sendable status).
Qed.

End FetchFacts.

Lemma open_browsers_snoc l c r :
  open_browsers (l ++ [(c, r)])
  = (open_browsers l + match c, r with
                       | Launch, Done _ => 1
                       | Close, Done _ => -1
                       | _, _ => 0
                       end)%Z.
Proof.
  unfold open_browsers. rewrite foldl_snoc.
  destruct c, r; lia.
Qed.

Section ExportFacts.
Context (world : list (call * reply) → call → reply).

Lemma ext_eq c st :
  ext world c st
  = (match world (calls st) c with
     | Done p => Ret p
     | Fails => Throw (Rejected (what c))
     end,
     mkExport (calls st ++ [(c, world (calls st) c)]) (browser st)).
Proof. unfold ext. by destruct (world _ c). Qed.

Ltac export_step :=
  rewrite ?bind_unfold, ?ext_eq; cbn [calls browser app];
  try match goal with
  | |- context [world ?l ?c] => destruct (world l c) eqn:?
  end.

Lemma export_try_cases html :
  ∃ r l, export_try world html fresh = (r, mkExport l (bool_decide (world [] Launch ≠ Fails))) ∧
    match r with
    | Ret resp => ∃ a b c pdf d, resp = PdfFile 200 pdf ∧ l = success html a b c pdf d
    | Throw _ =>
        ∃ c l', l = l' ++ [(c, Fails)] ∧
          open_browsers l = (if bool_decide (world [] Launch ≠ Fails) then 1 else 0)%Z
    end.
Proof.
  unfold export_try, fresh, set_browser, modify.
  export_step. 1:{ eexists _, _. split; [done|]. by exists Launch, []. }
  export_step. export_step. 1:{ eexists _, _. split; [done|]. by eexists NewPage, [_]. }
  export_step. 1:{ eexists _, _. split; [done|]. by eexists (SetContent _), [_; _]. }
  export_step. 1:{ eexists _, _. split; [done|]. by eexists PrintPdf, [_; _; _]. }
  export_step. 1:{ eexists _, _. split; [done|]. by eexists Close, [_; _; _; _]. }
  eexists _, _. split; [done|]. by eexists _, _, _, _, _.
Qed.

Lemma export_catch_eq st :
  export_catch world st
  = if browser st
    then (match world (calls st) Close with
          | Done _ => Ret export_failed
          | Fails => Throw (Rejected "close")
          end, mkExport (calls st ++ [(Close, world (calls st) Close)]) true)
    else (Ret export_failed, st).
Proof.
  unfold export_catch, get, when. rewrite bind_unfold. destruct st as [l []]; [|done].
  cbn [browser]. rewrite !bind_unfold, ext_eq. simpl. by destruct (world l Close).
Qed.

(** The try block makes the calls of [steps] up to the first that fails,
    and throws exactly when one fails. *)
Lemma export_try_attempt html :
  ∃ r, export_try world html fresh
       = (r, mkExport (attempt world (steps html) [])
               (bool_decide (world [] Launch ≠ Fails))) ∧
    match r with
    | Ret _ => ∀ c l', attempt world (steps html) [] ≠ l' ++ [(c, Fails)]
    | Throw _ => ∃ c l', attempt world (steps html) [] = l' ++ [(c, Fails)]
    end.
Proof.
  unfold export_try, fresh, set_browser, modify, steps, attempt.
  export_step. 1:{ eexists. split; [done|]. by exists Launch, []. }
  export_step. export_step. 1:{ eexists. split; [done|]. by eexists NewPage, [_]. }
  export_step. 1:{ eexists. split; [done|]. by eexists (SetContent _), [_; _]. }
  export_step. 1:{ eexists. split; [done|]. by eexists PrintPdf, [_; _; _]. }
  export_step. 1:{ eexists. split; [done|]. by eexists Close, [_; _; _; _]. }
  eexists. split; [done|]. intros c l' E. apply (f_equal last) in E.
  by rewrite last_snoc in E.
Qed.

(** The handler before the try statement. *)
Lemma export_POST_eq request st :
  export_POST world request st
  = match request with
    | None => (Throw SyntaxError, st)
    | Some body =>
        if decide (body = JNull) then (Throw TypeError, st)
        else if falsy (field "html" body)
        then (Ret (Json 400 (lit "No HTML provided")), st)
        else try_catch (export_try world (default JNull (field "html" body)))
               (λ _, export_catch world) (mkExport (calls st) false)
    end.
Proof.
  unfold export_POST. rewrite bind_unfold, request_json_Some.
  destruct request as [body|]; simpl; [|done]. rewrite bind_unfold.
  destruct (decide (body = JNull)) as [->|Hb]; [done|].
  rewrite destructure_field by done. by destruct (falsy _).
Qed.

(** The outcomes of the try statement with its catch block. *)
Lemma export_statement_cases html r st :
  try_catch (export_try world html) (λ _, export_catch world) fresh = (r, st) →
  (∃ a b c pdf d, r = Ret (PdfFile 200 pdf) ∧ calls st = success html a b c pdf d) ∨
  (r = Ret export_failed ∧ open_browsers (calls st) = 0%Z ∧
   ∃ c l k, calls st = l ++ (c, Fails) :: k ∧ length k ≤ 1) ∨
  (r = Throw (Rejected "close") ∧ open_browsers (calls st) = 1%Z ∧
   ∃ l, calls st = l ++ [(Close, Fails)] ∧ l ≠ []).
Proof.
  unfold try_catch. destruct (export_try_cases html) as (r0 & l & -> & H).
  destruct r0 as [resp|e].
  - destruct H as (a & b & c & pdf & d & -> & ->). intros [= <- <-]. left. by eexists a, b, c, pdf, d.
  - destruct H as (c & l' & -> & Ho). rewrite export_catch_eq. cbn [browser calls].
    revert Ho. destruct (bool_decide _); intros Ho;
      [|intros [= <- <-]; right; left; split_and!; [done|done|exists c, l', []; split; [done|simpl; lia]]].
    destruct (world _ Close) eqn:Hc; intros [= <- <-]; right; cbn [calls].
    + right. split_and!; [done|rewrite open_browsers_snoc; lia|].
      eexists. split; [done|]. by destruct l'.
    + left. split_and!; [done|rewrite open_browsers_snoc; lia|].
      exists c, l', [(Close, Done payload)]. rewrite <-app_assoc. split; [done|simpl; lia].
Qed.

End ExportFacts.

(** * The ingestion route: what the handler guarantees *)

Section FetchClaims.
Context (hostname : json → option str) (fetch : json → fetched).

(** C18: the ingestion handler never throws and computes its decision
    table: on every request, whatever the URL constructor and the upstream
    do, it returns the response of [fetch_spec] and has sent the requests
    of [fetch_spec]. *)
Theorem fetch_POST_refines request sent :
  ∃ r sent', fetch_POST hostname fetch request sent = (Ret r, sent') ∧
             (r, sent') = fetch_spec hostname fetch request sent.
Proof. eexists _, _. split; [apply fetch_POST_eq|]. by destruct (fetch_spec _ _ _ _). Qed.

(** C7: the handler sends at most one request, and only to the truthy
    [url] of the body when the URL constructor accepts it and its host name
    contains notion.site. *)
Theorem fetch_POST_validates request sent r sent' :
  fetch_POST hostname fetch request sent = (r, sent') →
  sent' = sent ∨
  ∃ body url h, sent' = sent ++ [url] ∧ request = Some body ∧
    field "url" body = Some url ∧ falsy (Some url) = false ∧
    hostname url = Some h ∧ includes (lit "notion.site") h = true.
Proof.
  rewrite fetch_POST_eq. unfold fetch_spec.
  destruct (accepted_url hostname request) as [url|] eqn:E; intros [= _ <-]; [|by left].
  apply accepted_url_Some in E as (body & h & ?). right. exists body, url, h. tauto.
Qed.

(** The handler answers with the page data exactly when the request is
    accepted, the upstream answers with an ok status and its text can be
    read; the page data is then the extraction of that text, with status
    200. *)
Lemma fetch_POST_page request sent sent' n data :
  fetch_POST hostname fetch request sent = (Ret (Page n data), sent') ↔
  ∃ url status statusText html,
    accepted_url hostname request = Some url ∧
    fetch url = Response true status statusText (Some html) ∧
    n = 200 ∧ data = parseNotionPage html ∧ sent' = sent ++ [url].
Proof.
  rewrite fetch_POST_eq. unfold fetch_spec, rejection, relay, failed.
  destruct (accepted_url hostname request) as [url|] eqn:E; cbn [fst snd].
  - split.
    + intros H. exists url. revert H.
      destruct (fetch url) as [|[] status ? []]; try destruct (sendable status);
        intros H; simplify_eq; eauto 10.
    + intros (? & ? & ? & ? & [= <-] & -> & -> & -> & ->). done.
  - split; [|by intros (? & ? & ? & ? & ? & _)].
    intros H. repeat case_match; simplify_eq.
Qed.

(** The test on the host name is a test for a substring: a host name
    that merely contains notion.site, in any position, is accepted and
    the request is sent to it. *)
Lemma fetch_POST_host_substring url x y sent :
  hostname url = Some (x ++ lit "notion.site" ++ y) → falsy (Some url) = false →
  (fetch_POST hostname fetch (Some (JObj [("url", url)])) sent).2 = sent ++ [url].
Proof.
  intros Hh Hf. rewrite fetch_POST_eq. unfold fetch_spec.
  assert (accepted_url hostname (Some (JObj [("url", url)])) = Some url) as ->; [|done].
  apply accepted_url_Some. eexists _, _. split_and!; [done..|apply includes_app].
Qed.

End FetchClaims.

Lemma fetch_POST_validates_witness :
  [acme_url] = [] ∨
  ∃ body url h, [acme_url] = [] ++ [url] ∧ acme_request = Some body ∧
    field "url" body = Some url ∧ falsy (Some url) = false ∧
    sample_hostname url = Some h ∧ includes (lit "notion.site") h = true.
Proof.
  apply (fetch_POST_validates sample_hostname sample_fetch acme_request []
           (Ret (Page 200 (parseNotionPage (lit "<title>Meeting Notes | Notion</title>"))))).
  reflexivity.
Defined.

Lemma fetch_POST_host_substring_witness :
  (fetch_POST sample_hostname sample_fetch
     (Some (JObj [("url", JStr (lit "https://notion.site.evil.example/x"))])) []).2
  = [] ++ [JStr (lit "https://notion.site.evil.example/x")].
Proof.
  apply (fetch_POST_host_substring sample_hostname sample_fetch _ [] (lit ".evil.example"));
    reflexivity.
Defined.

(** * The export route: what the handler guarantees *)

Section ExportClaims.
Context (world : list (call * reply) → call → reply).

(** C5: when the export handler returns a response, every browser it has
    launched is closed; when it throws, either it has made no call (the
    body is not JSON or is null) or its last call is a close that failed,
    and one browser is left open. *)
Theorem export_POST_releases request r st :
  export_POST world request fresh = (r, st) →
  match r with
  | Ret _ => open_browsers (calls st) = 0%Z
  | Throw _ =>
      calls st = [] ∨
      (open_browsers (calls st) = 1%Z ∧ last (calls st) = Some (Close, Fails))
  end.
Proof.
  rewrite export_POST_eq. destruct request as [body|]; [|intros [= <- <-]; by left].
  case_decide; [intros [= <- <-]; by left|].
  destruct (falsy _); [by intros [= <- <-]|].
  intros [(a & b & c & pdf & d & -> & ->)|[(-> & ? & _)|(-> & Ho & l & E & _)]]%export_statement_cases;
    [done|done|].
  right. split; [done|]. by rewrite E, last_snoc.
Qed.

(** C19: the handler answers with a PDF exactly when the five calls launch,
    newPage, setContent, pdf and close have been made in this order on the
    [html] of the body and all have succeeded; the PDF is the buffer the
    print call returned. *)
Theorem export_POST_pdf body r st pdf :
  export_POST world (Some body) fresh = (r, st) →
  r = Ret (PdfFile 200 pdf) ↔
  ∃ a b c d, calls st = success (default JNull (field "html" body)) a b c pdf d.
Proof.
  rewrite export_POST_eq. case_decide; [intros [= <- <-]; by split; [|intros (?&?&?&?&?)]|].
  destruct (falsy _); [intros [= <- <-]; by split; [|intros (?&?&?&?&?)]|].
  intros [(a & b & c & pdf' & d & -> & E)|[(-> & _ & c & l & k & E & Hk)|(-> & _ & l & E & _)]]%export_statement_cases;
    rewrite E; (split; [intros [= <-]|intros (a' & b' & c' & d' & E')]).
  - by exists a, b, c, d.
  - by injection E' as <- <- <- <- <-.
  - apply (f_equal reverse) in E'. rewrite reverse_app in E'.
    destruct k as [|? [|]]; simpl in Hk; [..|lia]; by simplify_eq/=.
  - apply (f_equal reverse) in E'. rewrite reverse_app in E'. by simplify_eq/=.
Qed.

(** C39: when the export handler throws.  It throws a SyntaxError on a
    body that is not JSON and a TypeError on the body null, both before
    any call.  On every other body it throws exactly when the [html] of
    the body is truthy, the browser has been launched, one of the calls
    after the launch has failed and the close of the catch block fails
    too: the exception is then the rejection of that close, and the calls
    made are those of the try block up to the failure, followed by the
    close.  In every other case it answers. *)
Theorem export_POST_throws request e st :
  export_POST world request fresh = (Throw e, st) ↔
  match request with
  | None => e = SyntaxError ∧ st = fresh
  | Some body =>
      if decide (body = JNull) then e = TypeError ∧ st = fresh
      else
        let l := attempt world (steps (default JNull (field "html" body))) [] in
        falsy (field "html" body) = false ∧ world [] Launch ≠ Fails ∧
        (∃ c l', l = l' ++ [(c, Fails)]) ∧ world l Close = Fails ∧
        e = Rejected "close" ∧ st = mkExport (l ++ [(Close, Fails)]) true
  end.
Proof.
  rewrite export_POST_eq. destruct request as [body|]; [|naive_solver].
  case_decide; [naive_solver|]. cbn zeta.
  destruct (falsy _); [naive_solver|]. unfold try_catch.
  change (mkExport (calls fresh) false) with fresh.
  destruct (export_try_attempt world (default JNull (field "html" body))) as (r & -> & Hr).
  destruct r as [resp|e0]; [naive_solver|]. rewrite export_catch_eq. cbn [browser calls].
  case_bool_decide; [|naive_solver].
  destruct (world (attempt _ _ _) Close) eqn:Hc; naive_solver.
Qed.

End ExportClaims.

Lemma export_POST_releases_witness :
  open_browsers
    [(Launch, Done []); (NewPage, Done []);
     (SetContent (JStr (lit "<p>x</p>")), Fails); (Close, Done [])] = 0%Z.
Proof.
  apply (export_POST_releases bad_content html_request (Ret export_failed)
           (mkExport _ true)).
  reflexivity.
Defined.

Lemma export_POST_pdf_witness :
  Ret (E := exn) (PdfFile 200 (lit "%PDF-1.4")) = Ret (PdfFile 200 (lit "%PDF-1.4")) ↔
  ∃ a b c d,
    success (JStr (lit "<p>x</p>")) [] [] [] (lit "%PDF-1.4") []
    = success (JStr (lit "<p>x</p>")) a b c (lit "%PDF-1.4") d.
Proof.
  apply (export_POST_pdf good_browser (JObj [("html", JStr (lit "<p>x</p>"))]) _
           (mkExport _ true)).
  reflexivity.
Defined.

(** The export handler can throw instead of answering: on a body that is
    not JSON, and on a browser on which every call after the launch
    fails. *)
Lemma export_POST_can_throw :
  throws (export_POST good_browser None) fresh ∧
  throws (export_POST stuck_browser html_request) fresh.
Proof. split; by eexists _, _. Qed.
