(* ===== verification/DomExtractor.v ===== *)
(** * DomExtractor: the structural strategy

    [fetchNotionPage] of src/app/actions/notion.ts: the server action
    validates the URL, fetches the page, has it parsed (JSDOM) and reads
    the page data off the document with selectors.  The outside world is a
    parameter ([Web]): the URL constructor, the upstream, the parser, the
    serialiser behind innerHTML and the [src] property of an image.  The
    state is the list of URLs requested and the number of lines written to
    the error console.  What is thrown is an Error with its message or a
    value that is not an Error ([thrown]): the catch block throws a new
    Error with the message of the one it caught, or with a fixed message
    when what it caught is not an Error. *)

From stdpp Require Import prelude list numbers strings.
From Stdlib Require Import Lia.
From S2P Require Import Prelude JsString Regex Types Dom Effects.

(** * The world *)

(** A parsed document: the children of the document node, and its body
    element (the parser creates one when the markup has none). *)
Record Document := mkDocument {
  doc_nodes : list node;
  doc_body : node;
}.

(** What a throw statement or a rejected promise carries. *)
Inductive thrown :=
  | AnError (message : str)                   (* error instanceof Error *)
  | NotError.

Inductive upstream :=
  | Down (reason : thrown)                    (* fetch rejects *)
  | Up (ok : bool) (statusText : str) (text : thrown + str).
                                              (* inl: text() rejects *)

Record Web := mkWeb {
  hostname : str → str + str;      (* new URL(url).hostname, or the message of the TypeError *)
  fetch : str → upstream;
  jsdom : str → Document;          (* new JSDOM(html).window.document *)
  innerHTML : node → str;          (* the serialisation of the children *)
  img_src : node → str;            (* the src property of an image element *)
}.

Record Trace := mkTrace {
  requested : list str;
  logged : nat;
}.

(** * The selectors and the pattern of the source *)

Definition sel_title : selector := Selector None (ByTag "title").
Definition sel_icon : selector := Selector None (ByAttr "data-icon-role" (lit "page_icon")).
Definition sel_img : selector := Selector None (ByTag "img").
Definition sel_cover : selector :=
  Selector (Some (ByClass (lit "notion-header-block"))) (ByTag "img").
Definition sel_content : selector := Selector None (ByClass (lit "notion-page-content")).

(** [background(-color)?:\s*([^;]+)] without flags *)
Definition re_body_background : regex :=
  Regex false
    [Lit (lit "background"); Opt (lit "-color"); Lit (lit ":"); Rep true 0 Space;
     Rep true 1 (NotChar 59%N)] [1; 4].

Section Extract.
Context (w : Web).

(** * Reading the page data off the document *)

Definition dom_title (doc : Document) : str :=
  match querySelector sel_title (doc_nodes doc) with
  | Some e =>
      match replace_first (lit " | Notion") [] (textContent e) with
      | [] => lit "Untitled"
      | r => r
      end
  | None => lit "Untitled"
  end.

Definition dom_icon (doc : Document) : option Icon :=
  match querySelector sel_icon (doc_nodes doc) with
  | Some iconElement =>
      match textContent iconElement with
      | [] =>
          match querySelector sel_img (children iconElement) with
          | Some iconImg =>
              match img_src w iconImg with
              | [] => None
              | src => Some (mkIcon Image src)
              end
          | None => None
          end
      | emoji => Some (mkIcon Emoji emoji)
      end
  | None => None
  end.

Definition dom_cover (doc : Document) : option str :=
  match querySelector sel_cover (doc_nodes doc) with
  | Some coverElement =>
      match getAttribute "src" coverElement with
      | Some (c :: src) => Some (c :: src)
      | _ => None
      end
  | None => None
  end.

Definition dom_content (doc : Document) : str :=
  match querySelector sel_content (doc_nodes doc) with
  | Some contentElement => innerHTML w contentElement
  | None => []
  end.

Definition dom_background (doc : Document) : option str :=
  match getAttribute "style" (doc_body doc) with
  | Some bodyStyle =>
      if truthy (Some bodyStyle) && includes (lit "background") bodyStyle then
        match search re_body_background bodyStyle with
        | Some m =>
            match group re_body_background 2 (f_segs m) with
            | [] => None
            | g => Some (trim g)
            end
        | None => None
        end
      else None
  | None => None
  end.

Definition extract (html : str) : NotionPageData :=
  let document := jsdom w html in {|
    title := dom_title document;
    icon := dom_icon document;
    coverImage := dom_cover document;
    content := dom_content document;
    backgroundColor := dom_background document;
    originalHtml := html;
    author := None;
  |}.

(** * The action *)

Definition invalid_url : str :=
  lit "Invalid Notion URL. Please provide a published Notion page URL.".

Definition action_failed (statusText : str) : str :=
  lit "Failed to fetch Notion page: " ++ statusText.

Definition url_host (url : str) : eff Trace thrown str :=
  match hostname w url with
  | inl message => throw (AnError message)
  | inr host => mret host
  end.

Definition request (url : str) : eff Trace thrown upstream :=
  _ ← modify (λ t, mkTrace (requested t ++ [url]) (logged t));
  match fetch w url with
  | Down reason => throw reason
  | r => mret r
  end.

Definition read_text (r : upstream) : eff Trace thrown str :=
  match r with
  | Up _ _ (inr html) => mret html
  | Up _ _ (inl reason) => throw reason
  | Down reason => throw reason
  end.

(** The try block. *)
Definition fetch_and_extract (url : str) : eff Trace thrown NotionPageData :=
  host ← url_host url;
  if negb (includes (lit "notion.site") host) then throw (AnError invalid_url) else
  response ← request url;
  match response with
  | Up false statusText _ => throw (AnError (action_failed statusText))
  | _ =>
      html ← read_text response;
      mret (extract html)
  end.

(** [error instanceof Error ? error.message : ...] *)
Definition message_of (error : thrown) : str :=
  match error with
  | AnError message => message
  | NotError => lit "Failed to fetch Notion page"
  end.

(** The catch block: a line on the console, and a new Error. *)
Definition rethrow (error : thrown) : eff Trace thrown NotionPageData :=
  _ ← modify (λ t, mkTrace (requested t) (S (logged t)));
  throw (AnError (message_of error)).

Definition fetchNotionPage (url : str) : eff Trace thrown NotionPageData :=
  try_catch (fetch_and_extract url) rethrow.

End Extract.

(** * A sample page *)

Definition sample_page_tree : list node :=
  [Element "html" [] []
     [Element "head" [] [] [Element "title" [] [] [Text (lit " Notes | Notion")]];
      Element "body" [("style", lit "background: #fff; color: black")] []
        [Element "div" [("data-icon-role", lit "page_icon")] [] [Text [55356; 57225]%N];
         Element "div" [("class", lit "notion-page-content wide")] []
           [Element "p" [("class", lit "notion-text")] [] [Text (lit "x")]]]]].

Definition sample_body : node :=
  Element "body" [("style", lit "background: #fff; color: black")] [] [].

Definition sample_web : Web := {|
  hostname := λ url,
    if bool_decide (url = lit "https://acme.notion.site/p") then inr (lit "acme.notion.site")
    else if bool_decide (url = lit "https://example.org/") then inr (lit "example.org")
    else inl (lit "Invalid URL");
  fetch := λ _, Up true (lit "OK") (inr (lit "<html>...</html>"));
  jsdom := λ _, mkDocument sample_page_tree sample_body;
  innerHTML := λ _, qlit "<p class='notion-text'>x</p>";
  img_src := λ _, [];
|}.

(** * Lemmas *)

Section ExtractFacts.
Context (w : Web).
Implicit Types (t : Trace) (url : str).

Lemma url_host_eq url t :
  url_host w url t
  = (match hostname w url with inl m => Throw (AnError m) | inr h => Ret h end, t).
Proof. unfold url_host. by destruct (hostname w url). Qed.

Lemma request_eq url t :
  request w url t
  = (match fetch w url with Down m => Throw m | r => Ret r end,
     mkTrace (requested t ++ [url]) (logged t)).
Proof. unfold request. rewrite bind_unfold. simpl. by destruct (fetch w url). Qed.

(** The try block as a decision table. *)
Lemma fetch_and_extract_eq url t :
  fetch_and_extract w url t
  = match hostname w url with
    | inl m => (Throw (AnError m), t)
    | inr host =>
        if includes (lit "notion.site") host then
          (match fetch w url with
           | Down m => Throw m
           | Up false statusText _ => Throw (AnError (action_failed statusText))
           | Up true _ (inl m) => Throw m
           | Up true _ (inr html) => Ret (extract w html)
           end, mkTrace (requested t ++ [url]) (logged t))
        else (Throw (AnError invalid_url), t)
    end.
Proof.
  unfold fetch_and_extract. rewrite bind_unfold, url_host_eq.
  destruct (hostname w url) as [m|host]; [done|].
  destruct (includes _ host); [|done]. simpl. rewrite bind_unfold, request_eq.
  by destruct (fetch w url) as [m|[] st [m|html]].
Qed.

Lemma dom_title_nonempty doc : dom_title doc ≠ [].
Proof. unfold dom_title. repeat case_match; done. Qed.

Lemma dom_icon_nonempty doc i : dom_icon w doc = Some i → icon_content i ≠ [].
Proof. unfold dom_icon. intros H. repeat case_match; by simplify_eq. Qed.

Lemma dom_cover_nonempty doc c : dom_cover doc = Some c → c ≠ [].
Proof. unfold dom_cover. intros H. repeat case_match; by simplify_eq. Qed.

(** The content is the serialisation of an element of the page that has
    the class of the content container. *)
Lemma dom_content_source doc :
  dom_content w doc = [] ∨
  ∃ e, e ∈ concat (elements <$> doc_nodes doc) ∧
       lit "notion-page-content" ∈ tokens (default [] (getAttribute "class" e)) ∧
       dom_content w doc = innerHTML w e.
Proof.
  unfold dom_content. destruct (querySelector _ _) as [e|] eqn:E; [|by left].
  apply querySelector_Some in E as [He Hm]. right. exists e. split_and!; [done| |done].
  by apply bool_decide_eq_true in Hm.
Qed.

End ExtractFacts.

(** * What the action guarantees *)

(** C27: the outcome of the server action.  It returns page data only when
    the host name of the URL contains notion.site, the upstream answers ok
    and its text can be read; the data is then the extraction of that
    text, one request has been sent and nothing is logged.  Otherwise it
    throws an Error, after one line on the console, having sent no
    request unless the URL passed the validation. *)
Theorem fetchNotionPage_outcome w url t r t' :
  fetchNotionPage w url t = (r, t') →
  match r with
  | Ret d =>
      ∃ host statusText html,
        hostname w url = inr host ∧ includes (lit "notion.site") host = true ∧
        fetch w url = Up true statusText (inr html) ∧ d = extract w html ∧
        requested t' = requested t ++ [url] ∧ logged t' = logged t
  | Throw e =>
      (∃ message, e = AnError message) ∧
      logged t' = S (logged t) ∧
      (requested t' = requested t ∨
       requested t' = requested t ++ [url] ∧
       ∃ host, hostname w url = inr host ∧ includes (lit "notion.site") host = true)
  end.
Proof.
  unfold fetchNotionPage, try_catch. rewrite fetch_and_extract_eq.
  destruct (hostname w url) as [m|host] eqn:Hh; [intros [= <- <-]; eauto|].
  destruct (includes _ host) eqn:Hi; [|intros [= <- <-]; eauto].
  destruct (fetch w url) as [m|[] st [m|html]] eqn:Hf; intros [= <- <-]; simpl; eauto 10.
Qed.

Lemma fetchNotionPage_outcome_witness :
  ∃ host statusText html,
    hostname sample_web (lit "https://acme.notion.site/p") = inr host ∧
    includes (lit "notion.site") host = true ∧
    fetch sample_web (lit "https://acme.notion.site/p") = Up true statusText (inr html) ∧
    extract sample_web (lit "<html>...</html>") = extract sample_web html ∧
    [lit "https://acme.notion.site/p"] = [] ++ [lit "https://acme.notion.site/p"] ∧ 0 = 0.
Proof.
  apply (fetchNotionPage_outcome sample_web (lit "https://acme.notion.site/p") (mkTrace [] 0)
           (Ret (extract sample_web (lit "<html>...</html>")))
           (mkTrace [lit "https://acme.notion.site/p"] 0)).
  reflexivity.
Defined.

(** C28: the page data of the structural strategy is well formed for every
    document: the title is not empty, an icon and a cover image are not
    empty when present, the original text is kept, and the content is
    empty or the serialisation of an element that carries the class of the
    content container, as the serialiser gives it. *)
Theorem extract_well_formed w html :
  let d := extract w html in
  title d ≠ [] ∧
  (∀ i, icon d = Some i → icon_content i ≠ []) ∧
  (∀ c, coverImage d = Some c → c ≠ []) ∧
  originalHtml d = html ∧
  (content d = [] ∨
   ∃ e, e ∈ concat (elements <$> doc_nodes (jsdom w html)) ∧
        lit "notion-page-content" ∈ tokens (default [] (getAttribute "class" e)) ∧
        content d = innerHTML w e).
Proof.
  simpl. split_and!; [apply dom_title_nonempty|apply dom_icon_nonempty|
    apply dom_cover_nonempty|done|apply dom_content_source].
Qed.
