(* ===== verification/PdfGenerator.v ===== *)
(** * PdfGenerator: generatePDF of src/lib/pdf-generator.ts

    The function attaches a temporary container to the document, fills it
    with the markup of the page, adjusts the tree (page break hints, removal
    of images), has the container rendered to a canvas, cuts the canvas
    into strips of one page each, places each strip on a page of the PDF
    with a page number, and detaches the container in a finally block.

    The outside world is a parameter ([World]): the printing of a number in
    a template literal, the HTML parser behind innerHTML, html2canvas, the
    2d context of a page canvas, the image data of a strip (toDataURL can
    refuse), and whether jsPDF accepts a page format and an image.  The
    state is the number of temporary containers attached to the document
    and the trees handed to html2canvas; the PDF under construction is a
    local value.

    Lengths are rationals: the model computes the geometry exactly, where
    the code rounds to doubles.  A canvas has a positive width.  Under that
    assumption the bound of the page loop is never infinite in the code:
    when the height of a page in pixels is not positive, the quotient that
    the code rounds up is negative, a zero, negative infinity or not a
    number, and the loop makes no iteration; [totalPages] is 0 then. *)

From stdpp Require Import prelude list numbers strings pretty.
From Stdlib Require Import QArith Qround Qminmax Lia Lqa.
From S2P Require Import Prelude JsString Types Effects Dom.

#[local] Open Scope Q_scope.

(** * Page dimensions *)

Definition pageWidth (settings : ExportSettings) : Q :=
  if bool_decide (pageSize settings = lit "a4") then 210
  else if bool_decide (pageSize settings = lit "letter") then 215.9 else 215.9.

Definition pageHeight (settings : ExportSettings) : Q :=
  if bool_decide (pageSize settings = lit "a4") then 297
  else if bool_decide (pageSize settings = lit "letter") then 279.4 else 355.6.

(** The width and the height of the printable area. *)
Definition innerWidth (settings : ExportSettings) : Q :=
  pageWidth settings - margins settings * 2.

Definition innerHeight (settings : ExportSettings) : Q :=
  pageHeight settings - margins settings * 2.

(** * The PDF under construction *)

Record canvas := mkCanvas {
  c_width : positive;
  c_height : N;
}.

(** An image placed on a page: its data, position and size in mm. *)
Record Placed := mkPlaced {
  p_data : str;
  p_x : Q;
  p_y : Q;
  p_w : Q;
  p_h : Q;
}.

Record Label := mkLabel {
  l_text : str;
  l_size : Q;
  l_x : Q;
  l_y : Q;
}.

Record PdfPage := mkPdfPage {
  image : option Placed;
  label : option Label;
}.

Definition blank : PdfPage := mkPdfPage None None.

(** [pdf.addPage()] *)
Definition addPage (pdf : list PdfPage) : list PdfPage := pdf ++ [blank].

(** Drawing goes to the current page, the last one. *)
Definition on_current (f : PdfPage → PdfPage) (pdf : list PdfPage) : list PdfPage :=
  match reverse pdf with
  | [] => []
  | p :: ps => reverse (f p :: ps)
  end.

(** [pdf.addImage(...)] and [pdf.text(...)] *)
Definition addImage (i : Placed) (pdf : list PdfPage) : list PdfPage :=
  on_current (λ p, mkPdfPage (Some i) (label p)) pdf.

Definition text (l : Label) (pdf : list PdfPage) : list PdfPage :=
  on_current (λ p, mkPdfPage (image p) (Some l)) pdf.

(** * The strips *)

Definition pageHeightPx (settings : ExportSettings) (cv : canvas) : Q :=
  (innerHeight settings * inject_Z (Zpos (c_width cv))) / innerWidth settings.

Definition contentHeight (cv : canvas) : Q := inject_Z (Z.of_N (c_height cv)).

(** [Math.ceil(contentHeight / pageHeightPx)] as the bound of the loop. *)
Definition totalPages (settings : ExportSettings) (cv : canvas) : nat :=
  if Qlt_le_dec 0 (pageHeightPx settings cv)
  then Z.to_nat (Qceiling (contentHeight cv / pageHeightPx settings cv))
  else 0%nat.

Definition srcY (settings : ExportSettings) (cv : canvas) (i : nat) : Q :=
  inject_Z (Z.of_nat i) * pageHeightPx settings cv.

Definition srcHeight (settings : ExportSettings) (cv : canvas) (i : nat) : Q :=
  Qmin (pageHeightPx settings cv) (contentHeight cv - srcY settings cv i).

(** * The world *)

Record World := mkWorld {
  show : Q → str;                          (* a number in a template literal *)
  parse : str → list node;                 (* the setter of innerHTML *)
  html2canvas : list node → option canvas; (* None: the promise rejects *)
  getContext : nat → bool;                 (* is the context of page [i] non-null *)
  toDataURL : nat → Q → Q → option str;    (* the data of the strip of page [i];
                                              None: the canvas refuses to export *)
  accepts : str → bool;                    (* does addImage take the data *)
  formats : str → bool;                    (* does jsPDF know the page format *)
}.

(** The state: the temporary containers attached to the document body and
    the trees html2canvas has been given. *)
Record GenState := mkGen {
  attached : nat;
  rendered : list (list node);
}.

Section Generate.
Context (w : World).

(** * The markup of the container *)

(** A line break of a template literal and the indentation behind it. *)
Definition nl (indent : nat) : str := 10%N :: replicate indent 32%N.

Definition background (pageData : NotionPageData) (settings : ExportSettings) : str :=
  if includeBackground settings && truthy (backgroundColor pageData)
  then default [] (backgroundColor pageData) else lit "white".

Definition container_open (pageData : NotionPageData) (settings : ExportSettings) : str :=
  nl 6 ++ qlit "<div style='"
  ++ nl 8 ++ lit "width: " ++ show w (innerWidth settings) ++ lit "mm;"
  ++ nl 8 ++ lit "padding: " ++ show w (margins settings) ++ lit "mm;"
  ++ nl 8 ++ lit "font-size: " ++ show w (fontScale settings) ++ lit "rem;"
  ++ nl 8 ++ lit "background-color: " ++ background pageData settings ++ lit ";"
  ++ nl 6 ++ qlit "'>" ++ nl 4.

Definition cover_block (pageData : NotionPageData) (settings : ExportSettings) : str :=
  if includeCover settings && truthy (coverImage pageData) then
    let m := show w (margins settings) in
    nl 8 ++ qlit "<div style='margin: -" ++ m ++ lit "mm -" ++ m ++ lit "mm 20px -" ++ m
    ++ qlit "mm; height: 100px; overflow: hidden;'>"
    ++ nl 10 ++ qlit "<img src='" ++ default [] (coverImage pageData)
    ++ qlit "' style='width: 100%; height: 100%; object-fit: cover;' />"
    ++ nl 8 ++ lit "</div>" ++ nl 6
  else [].

Definition icon_block (pageData : NotionPageData) (settings : ExportSettings) : str :=
  match icon pageData with
  | Some i =>
      if includeIcon settings then
        match icon_type i with
        | Emoji =>
            qlit "<span style='font-size: 2rem; margin-right: 10px;'>"
            ++ icon_content i ++ lit "</span>"
        | Image =>
            qlit "<span style='font-size: 2rem; margin-right: 10px;'><img src='"
            ++ icon_content i
            ++ qlit "' style='height: 2rem; width: 2rem; object-fit: contain;' /></span>"
        end
      else []
  | None => []
  end.

Definition containerHTML (pageData : NotionPageData) (settings : ExportSettings) : str :=
  container_open pageData settings
  ++ cover_block pageData settings
  ++ qlit "<div style='display: flex; align-items: center; margin-bottom: 20px;'>"
  ++ icon_block pageData settings
  ++ qlit "<h1 style='font-size: 2rem; font-weight: bold;'>" ++ title pageData
  ++ lit "</h1></div>"
  ++ qlit "<div class='notion-content'>" ++ content pageData ++ lit "</div></div>".

(** * The tree of the container *)

Definition blocks : list string :=
  ["p"; "h1"; "h2"; "h3"; "h4"; "h5"; "h6"; "ul"; "ol"; "table"].

Definition prepare (settings : ExportSettings) (children : list node) : list node :=
  let children :=
    if smartPageBreaks settings
    then set_style blocks "pageBreakInside" (lit "avoid") <$> children
    else children in
  if negb (preserveImages settings) then remove_all ["img"] children else children.

(** * The pages *)

Definition page_label (settings : ExportSettings) (i n : nat) : Label := {|
  l_text := lit "Page " ++ lit (pretty (i + 1)%nat) ++ lit " of " ++ lit (pretty n);
  l_size := 8;
  l_x := pageWidth settings - margins settings - 20;
  l_y := pageHeight settings - margins settings - 5;
|}.

(** [pageCanvas.toDataURL(...)] after the strip has been drawn. *)
Definition strip_data (settings : ExportSettings) (cv : canvas) (i : nat) : option str :=
  toDataURL w i (srcY settings cv i) (srcHeight settings cv i).

Definition strip_image (settings : ExportSettings) (cv : canvas) (i : nat) : Placed := {|
  p_data := default [] (strip_data settings cv i);
  p_x := margins settings;
  p_y := margins settings;
  p_w := innerWidth settings;
  p_h := (innerWidth settings * srcHeight settings cv i) / inject_Z (Zpos (c_width cv));
|}.

(** The body of the loop for page [i]. *)
Definition add_strip (settings : ExportSettings) (cv : canvas) (pdf : list PdfPage)
    (i : nat) : eff GenState exn (list PdfPage) :=
  let pdf := if decide (0 < i)%nat then addPage pdf else pdf in
  if getContext w i then
    match strip_data settings cv i with
    | Some _ =>
        let img := strip_image settings cv i in
        if accepts w (p_data img)
        then mret (text (page_label settings i (totalPages settings cv)) (addImage img pdf))
        else throw (Rejected "addImage")
    | None => throw (Rejected "toDataURL")
    end
  else mret pdf.

(** The loop over the pages [from], [from + 1], ..., [from + count - 1]. *)
Fixpoint add_strips (settings : ExportSettings) (cv : canvas) (pdf : list PdfPage)
    (from count : nat) : eff GenState exn (list PdfPage) :=
  match count with
  | O => mret pdf
  | S count' =>
      pdf' ← add_strip settings cv pdf from;
      add_strips settings cv pdf' (S from) count'
  end.

(** The page the loop builds for index [i] when it can draw. *)
Definition strip_page (settings : ExportSettings) (cv : canvas) (i : nat) : PdfPage :=
  mkPdfPage (Some (strip_image settings cv i))
    (Some (page_label settings i (totalPages settings cv))).

(** Every page of the canvas can be drawn and placed. *)
Definition drawable (settings : ExportSettings) (cv : canvas) : Prop :=
  ∀ i, (i < totalPages settings cv)%nat →
    getContext w i = true ∧ is_Some (strip_data settings cv i) ∧
    accepts w (p_data (strip_image settings cv i)) = true.

(** The document of a canvas: the page of each strip, and one blank page
    when there is no strip. *)
Definition document_of (settings : ExportSettings) (cv : canvas) : list PdfPage :=
  match totalPages settings cv with
  | O => [blank]
  | S _ as n => strip_page settings cv <$> seq 0 n
  end.

(** [await html2canvas(container, ...)] *)
Definition render (children : list node) : eff GenState exn canvas :=
  _ ← modify (λ st, mkGen (attached st) (rendered st ++ [children]));
  match html2canvas w children with
  | Some cv => mret cv
  | None => throw (Rejected "html2canvas")
  end.

Definition appendChild : eff GenState exn unit :=
  modify (λ st, mkGen (S (attached st)) (rendered st)).

Definition removeChild : eff GenState exn unit :=
  modify (λ st, mkGen (pred (attached st)) (rendered st)).

(** [new jsPDF({ unit, format, orientation })]: a document of one page. *)
Definition new_jsPDF (settings : ExportSettings) : eff GenState exn (list PdfPage) :=
  if formats w (pageSize settings) then mret [blank] else throw (Rejected "jsPDF").

(** The try block. *)
Definition generate (pageData : NotionPageData) (settings : ExportSettings)
    : eff GenState exn (list PdfPage) :=
  pdf ← new_jsPDF settings;
  let children := prepare settings (parse w (containerHTML pageData settings)) in
  cv ← render children;
  add_strips settings cv pdf 0 (totalPages settings cv).

Definition generatePDF (pageData : NotionPageData) (settings : ExportSettings)
    : eff GenState exn (list PdfPage) :=
  _ ← appendChild;
  try_finally (generate pageData settings) removeChild.

End Generate.

(** * A sample world *)

(** Numbers print as their integer part, the parser finds a paragraph and
    an image whatever the markup, the canvas is 340 by 1000 pixels, every
    context is there, and every image and format is accepted. *)
Definition sample_tree : list node :=
  [Element "div" [] [] [Element "p" [] [] [Text (lit "x")]; Element "img" [] [] []]].

Definition sample_canvas : canvas := mkCanvas 340 1000.

Definition sample_world : World := {|
  show := λ q, lit (pretty (Qfloor q));
  parse := λ _, sample_tree;
  html2canvas := λ _, Some sample_canvas;
  getContext := λ _, true;
  toDataURL := λ i _ _, Some (lit ("strip" +:+ pretty i));
  accepts := λ _, true;
  formats := λ _, true;
|}.

Definition sample_data : NotionPageData :=
  mkPage (lit "T") None None (lit "<p>x</p>") None [] None.

Definition no_images : ExportSettings :=
  mkSettings (lit "a4") 20 false true true true true true 1.

(** * Geometry of the strips *)

(** Rounding up a quotient: the least number of parts of size [h] that
    cover [x]. *)
Lemma ceiling_cover (x h : Q) :
  0 < h → 0 <= x →
  let k := Z.to_nat (Qceiling (x / h)) in
  (inject_Z (Z.of_nat k) - 1) * h < x ∧ x <= inject_Z (Z.of_nat k) * h.
Proof.
  intros Hh Hx k. assert (x == (x / h) * h) as E by (field; lra).
  assert (0 <= x / h) as Hq by (apply Qle_shift_div_l; lra).
  pose proof (Qle_ceiling (x / h)) as Hc. pose proof (Qceiling_lt (x / h)) as Hl.
  assert (0 <= Qceiling (x / h))%Z as Hz.
  { rewrite Zle_Qle. change (inject_Z 0) with 0. lra. }
  unfold k. rewrite Z2Nat.id by done.
  unfold Z.sub in Hl. rewrite inject_Z_plus, inject_Z_opp in Hl. change (inject_Z 1) with 1 in Hl.
  split.
  - rewrite E at 2. apply Qmult_lt_r; [done|lra].
  - rewrite E at 1. apply Qmult_le_r; [done|lra].
Qed.

Lemma inject_nat_S (i : nat) : inject_Z (Z.of_nat (S i)) == inject_Z (Z.of_nat i) + 1.
Proof. rewrite Nat2Z.inj_succ, <-Z.add_1_r, inject_Z_plus. reflexivity. Qed.

Lemma inject_nat_le (i j : nat) : (i <= j)%nat → inject_Z (Z.of_nat i) <= inject_Z (Z.of_nat j).
Proof. intros. rewrite <-Zle_Qle. lia. Qed.

Section Strips.
Context (settings : ExportSettings) (cv : canvas).
#[local] Abbreviation h := (pageHeightPx settings cv).
#[local] Abbreviation n := (totalPages settings cv).
#[local] Abbreviation H := (contentHeight cv).
Hypothesis Hh : 0 < h.

Lemma contentHeight_nonneg : 0 <= H.
Proof. unfold contentHeight. change 0 with (inject_Z 0). rewrite <-Zle_Qle. lia. Qed.

Lemma totalPages_cover :
  (inject_Z (Z.of_nat n) - 1) * h < H ∧ H <= inject_Z (Z.of_nat n) * h.
Proof.
  unfold totalPages. destruct (Qlt_le_dec 0 h) as [_|?]; [|lra].
  apply ceiling_cover; [done|apply contentHeight_nonneg].
Qed.

Lemma srcY_S i : srcY settings cv (S i) == srcY settings cv i + h.
Proof. unfold srcY. rewrite inject_nat_S. ring. Qed.

Lemma srcY_le i j : (i <= j)%nat → srcY settings cv i <= srcY settings cv j.
Proof. intros Hij. unfold srcY. apply Qmult_le_r; [done|]. by apply inject_nat_le. Qed.

(** A strip that is not the last one is a full page. *)
Lemma srcHeight_full i : (S i < n)%nat → srcHeight settings cv i == h.
Proof.
  intros Hi. unfold srcHeight. apply Q.min_l.
  pose proof totalPages_cover as [Hl _].
  pose proof (inject_nat_le (S (S i)) n Hi) as Hle. rewrite !inject_nat_S in Hle.
  unfold srcY. nra.
Qed.

(** The last strip is what is left. *)
Lemma srcHeight_last i : S i = n → srcHeight settings cv i == H - srcY settings cv i.
Proof.
  intros Hi. unfold srcHeight. apply Q.min_r.
  pose proof totalPages_cover as [_ Hr]. rewrite <-Hi, inject_nat_S in Hr.
  unfold srcY. lra.
Qed.

Lemma srcHeight_pos i : (i < n)%nat → 0 < srcHeight settings cv i.
Proof.
  intros Hi. destruct (decide (S i = n)) as [E|E].
  - rewrite srcHeight_last by done. pose proof totalPages_cover as [Hl _].
    rewrite <-E, inject_nat_S in Hl. unfold srcY. lra.
  - rewrite srcHeight_full by lia. done.
Qed.

Lemma srcHeight_le i : srcHeight settings cv i <= h.
Proof. apply Q.le_min_l. Qed.

End Strips.

Lemma page_portrait settings : pageWidth settings < pageHeight settings.
Proof. unfold pageWidth, pageHeight. repeat case_bool_decide; reflexivity. Qed.

Lemma pageHeightPx_pos settings cv :
  margins settings * 2 < pageWidth settings → 0 < pageHeightPx settings cv.
Proof.
  intros Hm. pose proof (page_portrait settings). unfold pageHeightPx, innerHeight, innerWidth.
  apply Qlt_shift_div_l; [lra|]. rewrite Qmult_0_l.
  apply Qmult_lt_0_compat; [lra|]. reflexivity.
Qed.

(** * Running generatePDF *)

Lemma on_current_snoc f pdf p : on_current f (pdf ++ [p]) = pdf ++ [f p].
Proof. unfold on_current. by rewrite reverse_snoc, reverse_cons, reverse_involutive. Qed.

Section Run.
Context (w : World) (settings : ExportSettings).
Implicit Types (st : GenState) (pdf : list PdfPage).

Lemma add_strip_state cv pdf i st r st' :
  add_strip w settings cv pdf i st = (r, st') → st' = st.
Proof.
  unfold add_strip. destruct (getContext w i); [|by intros [= _ <-]].
  destruct (strip_data _ _ _ _); [|by intros [= _ <-]].
  destruct (accepts w _); by intros [= _ <-].
Qed.

Lemma add_strips_state cv pdf from count st r st' :
  add_strips w settings cv pdf from count st = (r, st') → st' = st.
Proof.
  revert pdf from st. induction count as [|count IH]; intros pdf from st; simpl.
  - by intros [= _ <-].
  - rewrite bind_unfold. destruct (add_strip _ _ _ _ _ st) as [[pdf'|e] st1] eqn:E.
    + apply add_strip_state in E as ->. apply IH.
    + apply add_strip_state in E as ->. by intros [= _ <-].
Qed.

Lemma add_strip_ok cv pdf p i st :
  getContext w i = true → is_Some (strip_data w settings cv i) →
  accepts w (p_data (strip_image w settings cv i)) = true →
  add_strip w settings cv (pdf ++ [p]) i st
  = (Ret (if decide (0 < i)%nat then pdf ++ [p; strip_page w settings cv i]
          else pdf ++ [mkPdfPage (Some (strip_image w settings cv i))
                         (Some (page_label settings i (totalPages settings cv)))]), st).
Proof.
  intros Hc [d Hd] Ha. unfold add_strip. rewrite Hc, Hd, Ha. unfold text, addImage, addPage.
  case_decide.
  - by rewrite <-app_assoc, (assoc _ pdf [p] [blank]), !on_current_snoc, <-app_assoc.
  - by rewrite !on_current_snoc.
Qed.

Lemma add_strips_ok cv pdf p from count st :
  (0 < from)%nat →
  (∀ i, (from <= i < from + count)%nat →
     getContext w i = true ∧ is_Some (strip_data w settings cv i) ∧
     accepts w (p_data (strip_image w settings cv i)) = true) →
  add_strips w settings cv (pdf ++ [p]) from count st
  = (Ret (pdf ++ [p] ++ (strip_page w settings cv <$> seq from count)), st).
Proof.
  revert pdf p from. induction count as [|count IH]; intros pdf p from Hf Hok; simpl.
  - done.
  - destruct (Hok from ltac:(lia)) as (Hc & Hd & Ha).
    rewrite bind_unfold, add_strip_ok by done. rewrite decide_True by done.
    rewrite (cons_middle p pdf), (assoc _ pdf [p]), IH; [by rewrite <-!app_assoc|lia|].
    intros i Hi. apply Hok. lia.
Qed.

End Run.

Section Outcome.
Context (w : World) (pageData : NotionPageData) (settings : ExportSettings).
Implicit Types (st : GenState).

#[local] Abbreviation tree := (prepare settings (parse w (containerHTML w pageData settings))).

(** The try block changes the state by handing one tree to html2canvas, or
    not at all. *)
Lemma generate_state st r st' :
  generate w pageData settings st = (r, st') →
  attached st' = attached st ∧
  (rendered st' = rendered st ∨ rendered st' = rendered st ++ [tree]).
Proof.
  unfold generate, new_jsPDF, render. rewrite bind_unfold.
  destruct (formats w _); [|intros [= _ <-]; auto]. simpl.
  rewrite !bind_unfold. simpl.
  destruct (html2canvas w _) as [cv|]; simpl; [|intros [= _ <-]; auto].
  intros ->%add_strips_state. auto.
Qed.

Lemma generatePDF_eq st :
  generatePDF w pageData settings st
  = let '(r, st') := generate w pageData settings (mkGen (S (attached st)) (rendered st)) in
    (r, mkGen (pred (attached st')) (rendered st')).
Proof. unfold generatePDF. rewrite bind_unfold. simpl. unfold try_finally. by destruct (generate _ _ _ _). Qed.

Lemma generate_ok st cv :
  formats w (pageSize settings) = true →
  html2canvas w tree = Some cv →
  drawable w settings cv →
  generate w pageData settings st
  = (Ret (document_of w settings cv), mkGen (attached st) (rendered st ++ [tree])).
Proof.
  intros Hf Hc Hd. unfold generate, new_jsPDF, render. rewrite Hf, !bind_unfold. simpl.
  rewrite !bind_unfold. simpl. rewrite Hc. simpl. unfold document_of.
  destruct (totalPages settings cv) as [|n] eqn:En; [done|]. simpl.
  rewrite bind_unfold. destruct (Hd 0%nat ltac:(lia)) as (H0 & Hs & Ha).
  rewrite (add_strip_ok w settings cv [] blank 0) by done. simpl.
  etransitivity; [apply (add_strips_ok w settings cv [] _ 1 n); [lia|]|reflexivity].
  intros i Hi. apply Hd. lia.
Qed.
End Outcome.

(** * What generatePDF guarantees *)

(** C6: generatePDF leaves the document as it found it: whether it returns
    the PDF or throws (an unknown format, a rendering that fails, an image
    that is refused), the temporary container it attached is detached
    again, and html2canvas has been called at most once, on the prepared
    tree. *)
Theorem generatePDF_releases w pageData settings st r st' :
  generatePDF w pageData settings st = (r, st') →
  attached st' = attached st ∧
  (rendered st' = rendered st ∨
   rendered st' = rendered st
     ++ [prepare settings (parse w (containerHTML w pageData settings))]).
Proof.
  rewrite generatePDF_eq.
  destruct (generate _ _ _ _) as [r0 st0] eqn:E. intros [= _ <-].
  apply generate_state in E as [-> E]. simpl. auto.
Qed.

Lemma generatePDF_releases_witness :
  attached (generatePDF sample_world sample_data no_images (mkGen 0 [])).2 = 0%nat ∧
  (rendered (generatePDF sample_world sample_data no_images (mkGen 0 [])).2 = [] ∨
   rendered (generatePDF sample_world sample_data no_images (mkGen 0 [])).2
   = [] ++ [prepare no_images
              (parse sample_world (containerHTML sample_world sample_data no_images))]).
Proof.
  apply (generatePDF_releases sample_world sample_data no_images (mkGen 0 [])
           (generatePDF sample_world sample_data no_images (mkGen 0 [])).1).
  by destruct (generatePDF _ _ _ _).
Defined.

(** C20: when the format is known, the rendering succeeds and every strip
    can be drawn and placed, generatePDF returns the document of the
    canvas: one page per strip, in order, each with the image of its strip
    placed inside the margins at the width of the printable area and with
    its page number; one blank page when the canvas has no height. *)
Theorem generatePDF_document w pageData settings st cv :
  formats w (pageSize settings) = true →
  html2canvas w (prepare settings (parse w (containerHTML w pageData settings))) = Some cv →
  drawable w settings cv →
  (generatePDF w pageData settings st).1 = Ret (document_of w settings cv).
Proof.
  intros Hf Hc Hd. rewrite generatePDF_eq.
  by rewrite (generate_ok w pageData settings _ cv Hf Hc Hd).
Qed.

Lemma generatePDF_document_witness :
  (generatePDF sample_world sample_data no_images (mkGen 0 [])).1
  = Ret (document_of sample_world no_images sample_canvas).
Proof. by apply generatePDF_document. Defined.

(** C8: the strips cut the canvas into pages with no gap and no overlap:
    when the height of a page in pixels is positive, every strip has a
    positive height of at most one page, a strip starts where the one
    before it ends, the first starts at the top and the last ends at the
    bottom of the canvas. *)
Theorem strips_partition settings cv i :
  0 < pageHeightPx settings cv → (i < totalPages settings cv)%nat →
  0 < srcHeight settings cv i ∧
  srcHeight settings cv i <= pageHeightPx settings cv ∧
  srcY settings cv 0 == 0 ∧
  srcY settings cv i + srcHeight settings cv i
  == (if decide (S i = totalPages settings cv) then contentHeight cv
      else srcY settings cv (S i)).
Proof.
  intros Hh Hi. split_and!.
  - by apply srcHeight_pos.
  - apply srcHeight_le.
  - unfold srcY. ring.
  - case_decide.
    + rewrite srcHeight_last by done. ring.
    + rewrite srcHeight_full, srcY_S by (done || lia). ring.
Qed.

Lemma strips_partition_witness :
  0 < srcHeight no_images sample_canvas 1 ∧
  srcHeight no_images sample_canvas 1 <= pageHeightPx no_images sample_canvas ∧
  srcY no_images sample_canvas 0 == 0 ∧
  srcY no_images sample_canvas 1 + srcHeight no_images sample_canvas 1
  == (if decide (2 = totalPages no_images sample_canvas)%nat then contentHeight sample_canvas
      else srcY no_images sample_canvas 2).
Proof.
  apply (strips_partition no_images sample_canvas 1); [reflexivity|].
  by_decide.
Defined.

(** C21: the tree handed to html2canvas: when preserveImages is off it holds
    no img element, and when smartPageBreaks is on each of its paragraphs,
    headings, lists and tables carries the declaration that avoids a page
    break inside. *)
Theorem rendered_tree w pageData settings st r st' t x :
  generatePDF w pageData settings st = (r, st') →
  rendered st' = rendered st ++ [t] →
  (preserveImages settings = false → querySelectorAll ["img"] t = []) ∧
  (smartPageBreaks settings = true → x ∈ querySelectorAll blocks t →
   ("pageBreakInside", lit "avoid") ∈ style_of x).
Proof.
  intros [_ [E|E]]%generatePDF_releases Ht; rewrite E in Ht.
  { apply (f_equal length) in Ht. rewrite length_app in Ht. simpl in Ht. lia. }
  apply app_inv_head in Ht as [= <-]. unfold prepare. split.
  - intros ->. simpl. apply remove_all_query.
  - intros -> [Hm Hx]%list_elem_of_filter.
    destruct (preserveImages settings); simpl in Hx.
    + by eapply set_style_marks_all.
    + apply remove_all_elements in Hx as (y & Hy & Htag & ->).
      eapply set_style_marks_all; [done|]. by rewrite <-(matches_tags_tag _ x y).
Qed.

Lemma rendered_tree_witness :
  (preserveImages no_images = false →
   querySelectorAll ["img"] (prepare no_images sample_tree) = []) ∧
  (smartPageBreaks no_images = true →
   Element "p" [] [("pageBreakInside", lit "avoid")] [Text (lit "x")]
     ∈ querySelectorAll blocks (prepare no_images sample_tree) →
   ("pageBreakInside", lit "avoid")
     ∈ style_of (Element "p" [] [("pageBreakInside", lit "avoid")] [Text (lit "x")])).
Proof.
  apply (rendered_tree sample_world sample_data no_images (mkGen 0 [])
           (generatePDF sample_world sample_data no_images (mkGen 0 [])).1
           (generatePDF sample_world sample_data no_images (mkGen 0 [])).2).
  - by destruct (generatePDF _ _ _ _).
  - vm_compute. reflexivity.
Defined.

Lemma add_strips_ext w s1 s2 cv pdf from count :
  (∀ pdf i, add_strip w s1 cv pdf i = add_strip w s2 cv pdf i) →
  add_strips w s1 cv pdf from count ≡ add_strips w s2 cv pdf from count.
Proof.
  intros H. revert pdf from. induction count as [|count IH]; intros pdf from st; [done|].
  simpl. rewrite !bind_unfold, H. destruct (add_strip _ _ _ _ _ _) as [[?|?] ?]; [apply IH|done].
Qed.

(** C40: the setting preserveFormatting has no effect on generatePDF: two
    settings that differ in it alone give the same outcome and the same
    state. *)
Theorem preserveFormatting_ignored w pageData ps m pi pf pf' sp ii ic ib fs :
  generatePDF w pageData (mkSettings ps m pi pf sp ii ic ib fs)
  ≡ generatePDF w pageData (mkSettings ps m pi pf' sp ii ic ib fs).
Proof.
  intros st. rewrite !generatePDF_eq. unfold generate. rewrite !bind_unfold.
  change (new_jsPDF w (mkSettings ps m pi pf sp ii ic ib fs))
    with (new_jsPDF w (mkSettings ps m pi pf' sp ii ic ib fs)).
  destruct (new_jsPDF _ _ _) as [[pdf|?] st1]; [|done]. rewrite !bind_unfold.
  change (prepare (mkSettings ps m pi pf sp ii ic ib fs)
            (parse w (containerHTML w pageData (mkSettings ps m pi pf sp ii ic ib fs))))
    with (prepare (mkSettings ps m pi pf' sp ii ic ib fs)
            (parse w (containerHTML w pageData (mkSettings ps m pi pf' sp ii ic ib fs)))).
  destruct (render _ _ _) as [[cv|?] st2]; [|done].
  change (totalPages (mkSettings ps m pi pf sp ii ic ib fs) cv)
    with (totalPages (mkSettings ps m pi pf' sp ii ic ib fs) cv).
  by rewrite (add_strips_ext w _ (mkSettings ps m pi pf' sp ii ic ib fs)).
Qed.
