(* ===== verification/Exporter.v ===== *)
(** * Exporter: the upload and export component

    The state and the handlers of NotionExporter in
    src/components/notion-exporter.tsx.  A handler that awaits is split at
    its await: the first half runs when the event arrives and leaves a
    task, the second half runs when the task settles.  Tasks settle in any
    order, so that the interleavings of several pending handlers are
    traces of the machine.  The two awaits of the export handler (the
    response, then its body) are one task: the handler changes no state
    between them.

    The outside world is a parameter: what the DOM parser finds as the
    text of the title element of a file, and what the export route
    answers.  The actions are those the rendered page can produce: the
    export button exists only while a file is loaded and is disabled
    while an export is running. *)

From stdpp Require Import prelude list numbers strings.
From Stdlib Require Import Lia.
From S2P Require Import Prelude JsString Types.

Set Warnings "-clear-no-such-hyp".

(** * State *)

(** An uploaded file: its name, and its text unless reading it fails. *)
Record File := mkFile {
  name : str;
  contents : option str;
}.

(** A handler suspended at its await. *)
Inductive task :=
  | Reading (f : File)          (* handleFile at [await file.text()] *)
  | Exporting (html : str).     (* handleExportPDF at [await fetch(...)] *)

Record ExporterState := mkExporter {
  htmlContent : option str;
  pageData : option NotionPageData;
  error : option str;
  exportSettings : ExportSettings;
  exporting : bool;
  aboutOpen : bool;
  isLoading : bool;
  tasks : list task;
  downloads : list str;      (* the files the browser has been told to save *)
  objectURLs : nat;          (* object URLs created and not revoked *)
}.

Definition initial : ExporterState :=
  mkExporter None None None defaultSettings false false false [] [] 0.

(** The answer of the export route to a request. *)
Inductive api_reply :=
  | Unreachable                 (* fetch rejects *)
  | NotOk                       (* a response that is not ok *)
  | Ok (blob : option str).     (* an ok response; None: its body cannot be read *)

Inductive action :=
  | Drop (files : list File)       (* onDrop of the drop zone *)
  | Change (file : option File)    (* onChange of the file input *)
  | Settle (i : nat)               (* the promise that task [i] awaits settles *)
  | Click                          (* onClick of the export button *)
  | SetAbout (open : bool).        (* onOpenChange of the dialog *)

(** Setters of single state variables. *)
Definition setError (e : option str) (st : ExporterState) : ExporterState :=
  mkExporter (htmlContent st) (pageData st) e (exportSettings st) (exporting st)
    (aboutOpen st) (isLoading st) (tasks st) (downloads st) (objectURLs st).

Definition setIsLoading (b : bool) (st : ExporterState) : ExporterState :=
  mkExporter (htmlContent st) (pageData st) (error st) (exportSettings st) (exporting st)
    (aboutOpen st) b (tasks st) (downloads st) (objectURLs st).

Definition setPageData (d : option NotionPageData) (st : ExporterState) : ExporterState :=
  mkExporter (htmlContent st) d (error st) (exportSettings st) (exporting st)
    (aboutOpen st) (isLoading st) (tasks st) (downloads st) (objectURLs st).

Definition setHtmlContent (h : option str) (st : ExporterState) : ExporterState :=
  mkExporter h (pageData st) (error st) (exportSettings st) (exporting st)
    (aboutOpen st) (isLoading st) (tasks st) (downloads st) (objectURLs st).

Definition setExporting (b : bool) (st : ExporterState) : ExporterState :=
  mkExporter (htmlContent st) (pageData st) (error st) (exportSettings st) b
    (aboutOpen st) (isLoading st) (tasks st) (downloads st) (objectURLs st).

Definition setAboutOpen (b : bool) (st : ExporterState) : ExporterState :=
  mkExporter (htmlContent st) (pageData st) (error st) (exportSettings st) (exporting st)
    b (isLoading st) (tasks st) (downloads st) (objectURLs st).

Definition setTasks (l : list task) (st : ExporterState) : ExporterState :=
  mkExporter (htmlContent st) (pageData st) (error st) (exportSettings st) (exporting st)
    (aboutOpen st) (isLoading st) l (downloads st) (objectURLs st).

(** [window.URL.createObjectURL(blob)], [a.click()] on a link to that URL
    and [window.URL.revokeObjectURL(url)].  The three are calls of one
    synchronous block (lines 105 to 112): no await stands between them,
    so no other handler runs in between. *)
Definition createObjectURL (st : ExporterState) : ExporterState :=
  mkExporter (htmlContent st) (pageData st) (error st) (exportSettings st) (exporting st)
    (aboutOpen st) (isLoading st) (tasks st) (downloads st) (S (objectURLs st)).

Definition click (blob : str) (st : ExporterState) : ExporterState :=
  mkExporter (htmlContent st) (pageData st) (error st) (exportSettings st) (exporting st)
    (aboutOpen st) (isLoading st) (tasks st) (downloads st ++ [blob]) (objectURLs st).

Definition revokeObjectURL (st : ExporterState) : ExporterState :=
  mkExporter (htmlContent st) (pageData st) (error st) (exportSettings st) (exporting st)
    (aboutOpen st) (isLoading st) (tasks st) (downloads st) (pred (objectURLs st)).

Definition download (blob : str) (st : ExporterState) : ExporterState :=
  revokeObjectURL (click blob (createObjectURL st)).

Definition await (t : task) (st : ExporterState) : ExporterState :=
  setTasks (tasks st ++ [t]) st.

Definition not_html : str := lit "Please upload a .html file exported from Notion.".
Definition not_parsed : str :=
  lit "Failed to parse Notion HTML file. Please make sure you exported from Notion as HTML.".
Definition not_exported : str := lit "Failed to export PDF".

Section Handlers.
(** The text of the first title element of a document, if it has one; and
    the answer of the export route to an HTML text. *)
Context (title_text : str → option str) (export_api : str → api_reply).

(** * handleFile *)

Definition handleFile_start (file : File) (st : ExporterState) : ExporterState :=
  await (Reading file)
    (setHtmlContent None (setPageData None (setIsLoading true (setError None st)))).

(** [doc.querySelector(title)?.textContent?.replace(...) || Untitled] *)
Definition file_title (text : str) : str :=
  match title_text text with
  | Some t =>
      match replace_first (lit " | Notion") [] t with
      | [] => lit "Untitled"
      | r => r
      end
  | None => lit "Untitled"
  end.

Definition handleFile_settle (file : File) (st : ExporterState) : ExporterState :=
  setIsLoading false
    match contents file with
    | Some text =>
        setPageData
          (Some (mkPage (file_title text) None None [] None text None))
          (setHtmlContent (Some text) st)
    | None => setError (Some not_parsed) st
    end.

(** * handleDrop and handleFileInput *)

Definition handleDrop (files : list File) (st : ExporterState) : ExporterState :=
  match files with
  | file :: _ =>
      if endsWith (lit ".html") (name file) then handleFile_start file st
      else setError (Some not_html) st
  | [] => st
  end.

Definition handleFileInput (file : option File) (st : ExporterState) : ExporterState :=
  match file with
  | Some f =>
      if endsWith (lit ".html") (name f) then handleFile_start f st
      else setError (Some not_html) st
  | None => setError (Some not_html) st
  end.

(** * handleExportPDF *)

Definition handleExportPDF_start (st : ExporterState) : ExporterState :=
  if truthy (htmlContent st)
  then await (Exporting (default [] (htmlContent st))) (setError None (setExporting true st))
  else st.

Definition handleExportPDF_settle (html : str) (st : ExporterState) : ExporterState :=
  setExporting false
    match export_api html with
    | Ok (Some blob) => download blob st
    | _ => setError (Some not_exported) st
    end.

(** * The machine *)

(** The export button is rendered while a file is loaded, and is disabled
    while an export is running. *)
Definition can_click (st : ExporterState) : bool :=
  truthy (htmlContent st) && negb (exporting st).

Definition dispatch (e : action) (st : ExporterState) : ExporterState :=
  match e with
  | Drop files => handleDrop files st
  | Change file => handleFileInput file st
  | Settle i =>
      match tasks st !! i with
      | Some (Reading f) => handleFile_settle f (setTasks (delete i (tasks st)) st)
      | Some (Exporting html) =>
          handleExportPDF_settle html (setTasks (delete i (tasks st)) st)
      | None => st
      end
  | Click => if can_click st then handleExportPDF_start st else st
  | SetAbout b => setAboutOpen b st
  end.

Definition run (es : list action) (st : ExporterState) : ExporterState :=
  foldl (λ s e, dispatch e s) st es.

Inductive reachable (st : ExporterState) : ExporterState → Prop :=
  | reachable_refl : reachable st st
  | reachable_step st' e : reachable st st' → reachable st (dispatch e st').

End Handlers.

(** * Invariant *)

Definition is_reading (t : task) : bool :=
  match t with Reading _ => true | Exporting _ => false end.

Definition is_exporting (t : task) : bool := negb (is_reading t).

(** What every reachable state satisfies: the page data belongs to the
    file shown and carries only a title; the loading flag is on only while
    a file is being read; the export flag is on exactly while one export is
    pending; no object URL is left. *)
Record exporter_ok (st : ExporterState) : Prop := {
  ok_page : ∀ d, pageData st = Some d →
    htmlContent st = Some (originalHtml d) ∧ content d = [] ∧ icon d = None ∧
    coverImage d = None ∧ backgroundColor d = None ∧ title d ≠ [];
  ok_loading : isLoading st = true → ∃ t, t ∈ tasks st ∧ is_reading t = true;
  ok_exporting :
    length (filter (λ t, is_exporting t = true) (tasks st)) = (if exporting st then 1 else 0);
  ok_urls : objectURLs st = 0;
}.

(** * Sample files *)

Definition file_a : File := mkFile (lit "a.html") (Some (lit "<title>A</title>")).
Definition file_b : File := mkFile (lit "b.html") (Some (lit "<title>B</title>")).
Definition sample_title (text : str) : option str :=
  if bool_decide (text = lit "<title>A</title>") then Some (lit "A")
  else if bool_decide (text = lit "<title>B</title>") then Some (lit "B") else None.
Definition sample_api (html : str) : api_reply := Ok (Some (lit "%PDF")).

(** * Lemmas *)

Lemma filter_delete_length {A} (P : A → Prop) `{!∀ x, Decision (P x)} (l : list A) i x :
  l !! i = Some x →
  length (filter P l) = ((if decide (P x) then 1 else 0) + length (filter P (delete i l)))%nat.
Proof.
  revert i. induction l as [|y l IH]; intros [|i] Hi; simplify_eq/=.
  - rewrite filter_cons. by destruct (decide (P x)).
  - rewrite !filter_cons. destruct (decide (P y)); simpl; rewrite (IH i Hi); lia.
Qed.

Lemma elem_of_delete_ne {A} (l : list A) i x y :
  l !! i = Some x → y ∈ l → y ≠ x → y ∈ delete i l.
Proof.
  revert i. induction l as [|z l IH]; intros [|i] Hi Hy Hne; simplify_eq/=.
  - apply elem_of_cons in Hy as [?|?]; done.
  - apply elem_of_cons in Hy as [->|?]; [by left|right; eauto].
Qed.

Section Facts.
Context (title_text : str → option str) (export_api : str → api_reply).

Lemma file_title_nonempty text : file_title title_text text ≠ [].
Proof. unfold file_title. repeat case_match; done. Qed.

Ltac unfold_exporter :=
  unfold handleDrop, handleFileInput, handleFile_start, handleFile_settle,
    handleExportPDF_start, handleExportPDF_settle, can_click, await, download,
    setError, setIsLoading, setPageData, setHtmlContent, setExporting, setAboutOpen,
    setTasks in *.

Lemma setError_ok e st : exporter_ok st → exporter_ok (setError e st).
Proof. intros []. by split. Qed.

Lemma setAboutOpen_ok b st : exporter_ok st → exporter_ok (setAboutOpen b st).
Proof. intros []. by split. Qed.

Lemma handleFile_start_ok f st : exporter_ok st → exporter_ok (handleFile_start f st).
Proof.
  intros [Hp Hl He Hu]. unfold_exporter. split; simpl; [done| |by rewrite filter_app, length_app, He|done].
  intros _. exists (Reading f). split; [set_solver|done].
Qed.

Lemma handleFile_settle_ok i f st :
  tasks st !! i = Some (Reading f) → exporter_ok st →
  exporter_ok (handleFile_settle title_text f (setTasks (delete i (tasks st)) st)).
Proof.
  intros Hi [Hp Hl He Hu]. rewrite (filter_delete_length _ _ _ _ Hi) in He. simpl in He.
  unfold_exporter. destruct (contents f) as [text|]; split; simpl; try done.
  intros d [= <-]. simpl. split_and!; try done. apply file_title_nonempty.
Qed.

Lemma handleExportPDF_settle_ok i html st :
  tasks st !! i = Some (Exporting html) → exporter_ok st →
  exporter_ok (handleExportPDF_settle export_api html (setTasks (delete i (tasks st)) st)).
Proof.
  intros Hi [Hp Hl He Hu]. rewrite (filter_delete_length _ _ _ _ Hi) in He. simpl in He.
  assert (length (filter (λ t, is_exporting t = true) (delete i (tasks st))) = 0) as He'
    by (destruct (exporting st); lia).
  assert (isLoading st = true → ∃ t, t ∈ delete i (tasks st) ∧ is_reading t = true) as Hl'.
  { intros (t & Ht & Hr)%Hl. exists t. split; [|done].
    eapply elem_of_delete_ne; [done..|]. by intros ->. }
  unfold_exporter. destruct (export_api html) as [| |[blob|]]; split; simpl; done.
Qed.

Lemma dispatch_ok e st : exporter_ok st → exporter_ok (dispatch title_text export_api e st).
Proof.
  intros Hok. destruct e as [[|f fs]|[f|]|i| |b]; simpl.
  - done.
  - destruct (endsWith _ _); [by apply handleFile_start_ok|by apply setError_ok].
  - destruct (endsWith _ _); [by apply handleFile_start_ok|by apply setError_ok].
  - by apply setError_ok.
  - destruct (tasks st !! i) as [[f|html]|] eqn:Hi;
      [by apply handleFile_settle_ok|by apply handleExportPDF_settle_ok|done].
  - destruct (can_click st) eqn:Hc; [|done]. unfold can_click in Hc.
    apply andb_true_iff in Hc as [Hh Hx%negb_true_iff]. destruct Hok as [Hp Hl He Hu].
    unfold_exporter. rewrite Hh. rewrite Hx in He. split; simpl; try done.
    + intros (t & Ht & Hr)%Hl. exists t. split; [set_solver|done].
    + rewrite filter_app, length_app, He. done.
  - by apply setAboutOpen_ok.
Qed.

Lemma initial_ok : exporter_ok initial.
Proof. by split. Qed.

Lemma reachable_ok st st' :
  exporter_ok st → reachable title_text export_api st st' → exporter_ok st'.
Proof. intros Hok. induction 1; [done|]. by apply dispatch_ok. Qed.

Lemma reachable_run es st : reachable title_text export_api st (run title_text export_api es st).
Proof.
  induction es as [|e es IH] using rev_ind; [constructor|].
  unfold run. rewrite foldl_snoc. by constructor.
Qed.
End Facts.

(** * What the component guarantees *)

(** C10: every state the component reachable from its initial state, through
    any sequence of drops, selections, clicks and settlements in any order,
    satisfies the invariant: the page data belongs to the file shown and
    carries a non-empty title and nothing else, the loading flag is on only
    while a file is being read, the export flag is on exactly while one
    export is pending, and no object URL is left. *)
Theorem exporter_invariant title_text export_api st :
  reachable title_text export_api initial st → exporter_ok st.
Proof. apply reachable_ok, initial_ok. Qed.

Lemma exporter_invariant_witness :
  exporter_ok (run sample_title sample_api [Drop [file_a]; Settle 0; Click; Settle 0] initial).
Proof. apply (exporter_invariant sample_title sample_api), reachable_run. Defined.

(** Settling an export finishes it: the export flag goes off, and
    either the route has answered with a PDF, which is downloaded as it
    is, or the error of a failed export is shown and nothing is
    downloaded; the file shown stays. *)
Lemma export_settles title_text export_api st i html :
  tasks st !! i = Some (Exporting html) →
  let st' := dispatch title_text export_api (Settle i) st in
  exporting st' = false ∧ htmlContent st' = htmlContent st ∧
  tasks st' = delete i (tasks st) ∧
  match export_api html with
  | Ok (Some blob) => downloads st' = downloads st ++ [blob] ∧ error st' = error st
  | _ => downloads st' = downloads st ∧ error st' = Some not_exported
  end.
Proof.
  intros Hi. simpl. rewrite Hi. unfold handleExportPDF_settle.
  by destruct (export_api html) as [| |[blob|]].
Qed.

Lemma export_settles_witness :
  let st := run sample_title sample_api [Drop [file_a]; Settle 0; Click] initial in
  let st' := dispatch sample_title sample_api (Settle 0) st in
  exporting st' = false ∧ htmlContent st' = htmlContent st ∧
  tasks st' = delete 0 (tasks st) ∧
  match sample_api (lit "<title>A</title>") with
  | Ok (Some blob) => downloads st' = downloads st ++ [blob] ∧ error st' = error st
  | _ => downloads st' = downloads st ∧ error st' = Some not_exported
  end.
Proof.
  apply (export_settles sample_title sample_api
           (run sample_title sample_api [Drop [file_a]; Settle 0; Click] initial) 0).
  reflexivity.
Defined.

(** C22: two uploads race.  When a second file is dropped while the first
    is still being read and the second read settles first, the loading
    flag goes off while the first read is pending, and when that read
    settles the page shows the file that was dropped first, not the last
    one. *)
Theorem upload_race title_text export_api a b ta tb :
  endsWith (lit ".html") (name a) = true → endsWith (lit ".html") (name b) = true →
  contents a = Some ta → contents b = Some tb →
  let st := run title_text export_api [Drop [a]; Drop [b]; Settle 1] initial in
  isLoading st = false ∧ tasks st = [Reading a] ∧ htmlContent st = Some tb ∧
  htmlContent (dispatch title_text export_api (Settle 0) st) = Some ta.
Proof.
  intros Ha Hb Hta Htb. unfold run. simpl. unfold handleDrop. rewrite Ha. simpl. rewrite Hb.
  simpl. unfold handleFile_settle. simpl. rewrite Htb. simpl. by rewrite Hta.
Qed.

Lemma upload_race_witness :
  let st := run sample_title sample_api [Drop [file_a]; Drop [file_b]; Settle 1] initial in
  isLoading st = false ∧ tasks st = [Reading file_a] ∧
  htmlContent st = Some (lit "<title>B</title>") ∧
  htmlContent (dispatch sample_title sample_api (Settle 0) st) = Some (lit "<title>A</title>").
Proof. by apply (upload_race sample_title sample_api file_a file_b). Defined.
