(* ===== verification/Paginator.v ===== *)
(** * Paginator: the live preview of src/components/pdf-preview.tsx

    The effect that splits the content into pages of an estimated length
    ([split_pages], the length-estimate strategy), the state of the
    component, the navigation and zoom handlers, and what [pageContent]
    shows for the current page.  A pagination strategy is an instance of the
    class [Paginator]; the invariants of the component are proved from the
    laws of the class.  Zoom levels are in tenths: the code keeps them at
    one decimal by rounding after every step. *)

From stdpp Require Import prelude list numbers strings.
From Stdlib Require Import Lia.
From S2P Require Import Prelude JsString Types.

Set Warnings "-clear-no-such-hyp".

(** * Splitting the content *)

Definition estimatedCharsPerPage : nat := 4000.

(** [Math.ceil(a / b)] on natural numbers. *)
Definition ceil_div (a b : nat) : nat := (a + (b - 1)) / b.

(** [Math.max(1, Math.ceil(contentLength / estimatedCharsPerPage))] *)
Definition estimatedPages (w contentLength : nat) : nat :=
  1 `max` ceil_div contentLength w.

(** The body of the loop for page [i]. *)
Definition page_at (w : nat) (content : str) (i : nat) : str :=
  let start := i * w in
  let end_ := (start + w) `min` length content in
  substring start end_ content.

(** The pages for a window of [w] units. *)
Definition split_window (w : nat) (content : str) : list str :=
  page_at w content <$> seq 0 (estimatedPages w (length content)).

Definition split_pages (content : str) : list str :=
  split_window estimatedCharsPerPage content.

(** * The interface of a pagination strategy *)

(** What every strategy promises: at least one page, and the pages in
    order make up the content with no loss or duplication. *)
Class Paginator (paginate : str → list str) := {
  paginate_nonempty : ∀ content, paginate content ≠ [];
  paginate_concat : ∀ content, concat (paginate content) = content;
}.

(** * The component *)

Record PreviewState := mkPreview {
  currentPage : nat;
  totalPages : nat;
  zoomLevel : Z;          (* in tenths *)
  pages : list str;
}.

(** The initial values of the four [useState] calls. *)
Definition initialPreview : PreviewState := mkPreview 1 1 7 [].

(** The effect on [pageData] and [settings], for a strategy [paginate]. *)
Definition paginate_effect (paginate : str → list str) (pageData : NotionPageData)
    (st : PreviewState) : PreviewState :=
  let pagesArray := paginate (content pageData) in
  mkPreview 1 (length pagesArray) (zoomLevel st) pagesArray.

(** The effect of the component: the length-estimate strategy. *)
Definition useEffect (pageData : NotionPageData) (st : PreviewState) : PreviewState :=
  paginate_effect split_pages pageData st.

Definition nextPage (st : PreviewState) : PreviewState :=
  if decide (currentPage st < totalPages st)
  then mkPreview (currentPage st + 1) (totalPages st) (zoomLevel st) (pages st)
  else st.

Definition prevPage (st : PreviewState) : PreviewState :=
  if decide (1 < currentPage st)
  then mkPreview (currentPage st - 1) (totalPages st) (zoomLevel st) (pages st)
  else st.

Definition zoomIn (st : PreviewState) : PreviewState :=
  if decide (zoomLevel st < 12)%Z
  then mkPreview (currentPage st) (totalPages st) (zoomLevel st + 1) (pages st)
  else st.

Definition zoomOut (st : PreviewState) : PreviewState :=
  if decide (3 < zoomLevel st)%Z
  then mkPreview (currentPage st) (totalPages st) (zoomLevel st - 1) (pages st)
  else st.

(** The events of the component. *)
Inductive event :=
| Load (pageData : NotionPageData)   (* pageData or settings changed *)
| Next | Prev | ZoomIn | ZoomOut.

Definition handle (paginate : str → list str) (e : event) (st : PreviewState)
    : PreviewState :=
  match e with
  | Load pageData => paginate_effect paginate pageData st
  | Next => nextPage st
  | Prev => prevPage st
  | ZoomIn => zoomIn st
  | ZoomOut => zoomOut st
  end.

(** The states the component reaches from [st] by a sequence of events. *)
Inductive reaches (paginate : str → list str) (st : PreviewState)
    : PreviewState → Prop :=
| reaches_refl : reaches paginate st st
| reaches_step e st' : reaches paginate st st' →
    reaches paginate st (handle paginate e st').

(** * What pageContent shows *)

Record PageView := mkView {
  v_width : str;
  v_height : str;
  v_scale : Z;                (* [scale(zoomLevel)], in tenths *)
  v_fontSize : QArith_base.Q;             (* in rem *)
  v_cover : option str;       (* the cover image shown, if any *)
  v_title : option str;       (* the title block shown, if any *)
  v_icon : option Icon;       (* the icon shown in the title block *)
  v_background : str;
  v_color : str;
  v_html : str;               (* the content of the page *)
  v_label : nat * nat;        (* Page [currentPage] of [totalPages] *)
}.

Definition pageContent (pageData : NotionPageData) (settings : ExportSettings)
    (st : PreviewState) : option PageView :=
  match pages st with
  | [] => None
  | _ :: _ =>
    let a4 := bool_decide (pageSize settings = lit "a4") in
    let first := bool_decide (currentPage st = 1) in
    let bg := includeBackground settings && truthy (backgroundColor pageData) in
    Some {|
      v_width := if a4 then lit "210mm" else lit "8.5in";
      v_height := if a4 then lit "297mm" else lit "11in";
      v_scale := zoomLevel st;
      v_fontSize := fontScale settings;
      v_cover :=
        if includeCover settings && truthy (coverImage pageData) && first
        then coverImage pageData else None;
      v_title := if first then Some (title pageData) else None;
      v_icon :=
        if first && includeIcon settings then icon pageData else None;
      v_background := if bg then default [] (backgroundColor pageData) else lit "white";
      v_color :=
        if includeBackground settings &&
           bool_decide (backgroundColor pageData = Some (lit "#191919"))
        then lit "white" else lit "black";
      v_html := default [] (pages st !! (currentPage st - 1));
      v_label := (currentPage st, totalPages st);
    |}
  end.

(** * The page slices of the specification *)

(** A page with its ordinal and whether it carries the title block. *)
Record PageSlice := mkSlice {
  index : nat;
  html : str;
  isFirst : bool;
}.

Definition slices (ps : list str) : list PageSlice :=
  imap (λ i h, mkSlice (S i) h (bool_decide (S i = 1))) ps.

(** The invariant of the component once content is loaded. *)
Definition preview_ok (st : PreviewState) : Prop :=
  1 ≤ currentPage st ∧ currentPage st ≤ totalPages st ∧
  totalPages st = length (pages st) ∧ (3 ≤ zoomLevel st ≤ 12)%Z.

(** * Sample data for the concrete instances of the theorems *)

Definition sample_page : NotionPageData :=
  mkPage (lit "T") None (Some (lit "c.png")) (replicate 5000 120%N) None [] None.

Definition sample_view (width height : string) : PageView := {|
  v_width := lit width;
  v_height := lit height;
  v_scale := 7;
  v_fontSize := fontScale defaultSettings;
  v_cover := Some (lit "c.png");
  v_title := Some (lit "T");
  v_icon := None;
  v_background := lit "white";
  v_color := lit "black";
  v_html := replicate 4000 120%N;
  v_label := (1, 2);
|}.

Definition legalSettings : ExportSettings :=
  handleExportSettings defaultSettings
    (mkPartial (Some (lit "legal")) None None None None None None None None).

(** Images switched off, and a page whose content is an image. *)
Definition noImagesSettings : ExportSettings :=
  handleExportSettings defaultSettings
    (mkPartial None None (Some false) None None None None None None).

Definition image_page : NotionPageData :=
  mkPage (lit "T") None None (qlit "<img src='a.png'>") None [] None.

(** * The window arithmetic *)

Section Window.
Context (w : nat) (Hw : 0 < w).

Lemma ceil_div_spec a n : ceil_div a w ≤ n ↔ a ≤ n * w.
Proof.
  unfold ceil_div.
  pose proof (Nat.div_mod_eq (a + (w - 1)) w).
  pose proof (Nat.mod_upper_bound (a + (w - 1)) w ltac:(lia)).
  split; intros; nia.
Qed.

Lemma ceil_div_cover a : a ≤ ceil_div a w * w.
Proof. by apply ceil_div_spec. Qed.

Lemma ceil_div_tight a : 0 < a → (ceil_div a w - 1) * w < a.
Proof.
  intros Ha. destruct (ceil_div a w) as [|n] eqn:E.
  - simpl. lia.
  - assert (¬ ceil_div a w ≤ n) as H by lia. rewrite ceil_div_spec in H. simpl. lia.
Qed.

Lemma ceil_div_0 : ceil_div 0 w = 0.
Proof. unfold ceil_div. apply Nat.div_small. lia. Qed.

Lemma page_at_take_drop s i : page_at w s i = take w (drop (i * w) s).
Proof.
  unfold page_at, substring.
  destruct (decide (i * w + w ≤ length s)); [|destruct (decide (i * w ≤ length s))];
    minmax_simpl.
  - f_equal. lia.
  - rewrite !take_ge; [done|rewrite length_drop; lia..].
  - rewrite !drop_ge by lia. by rewrite !take_nil.
Qed.

Lemma concat_pages s n :
  concat (page_at w s <$> seq 0 n) = take (n * w) s.
Proof.
  induction n as [|n IH]; [done|].
  rewrite seq_S, fmap_app, concat_app, IH. simpl. rewrite app_nil_r.
  rewrite page_at_take_drop. rewrite take_take_drop. f_equal. lia.
Qed.

Lemma estimatedPages_cover a : a ≤ estimatedPages w a * w.
Proof. unfold estimatedPages. pose proof (ceil_div_cover a). nia. Qed.

Lemma estimatedPages_pos a : 1 ≤ estimatedPages w a.
Proof. unfold estimatedPages. lia. Qed.

Lemma estimatedPages_tight a : (estimatedPages w a - 1) * w < a ∨ a = 0.
Proof.
  unfold estimatedPages. destruct a as [|a]; [by right|left].
  pose proof (ceil_div_tight (S a) ltac:(lia)).
  assert (1 ≤ ceil_div (S a) w); [|lia].
  destruct (ceil_div (S a) w) eqn:E; [|lia].
  pose proof (ceil_div_cover (S a)). rewrite E in *. lia.
Qed.

Lemma length_split_window s :
  length (split_window w s) = estimatedPages w (length s).
Proof. unfold split_window. by rewrite length_fmap, length_seq. Qed.

Lemma split_window_lookup s i :
  i < estimatedPages w (length s) →
  split_window w s !! i = Some (take w (drop (i * w) s)).
Proof.
  intros Hi. unfold split_window. rewrite list_lookup_fmap, lookup_seq_lt by done.
  simpl. by rewrite page_at_take_drop.
Qed.

Lemma concat_split_window s : concat (split_window w s) = s.
Proof.
  unfold split_window. rewrite concat_pages. apply take_ge, estimatedPages_cover.
Qed.

Lemma length_split_window_iff s n :
  length (split_window w s) = n ↔
  1 ≤ n ∧ length s ≤ n * w ∧ ((n - 1) * w < length s ∨ n = 1).
Proof.
  rewrite length_split_window.
  pose proof (estimatedPages_cover (length s)).
  pose proof (estimatedPages_pos (length s)).
  pose proof (estimatedPages_tight (length s)).
  split.
  - intros <-. split_and!; [done|done|].
    destruct H1 as [|H1]; [by left|right]. rewrite H1. unfold estimatedPages.
    rewrite ceil_div_0. done.
  - intros (Hn & Hc & Ht). unfold estimatedPages in *.
    destruct Ht as [Ht| ->].
    + assert (ceil_div (length s) w ≤ n) by (by apply ceil_div_spec).
      assert (¬ ceil_div (length s) w ≤ n - 1) by (rewrite ceil_div_spec; lia). lia.
    + assert (ceil_div (length s) w ≤ 1) by (by apply ceil_div_spec). lia.
Qed.

Lemma split_window_page s i p :
  split_window w s !! i = Some p →
  length p ≤ w ∧
  (S i < length (split_window w s) → length p = w) ∧
  (s ≠ [] → 0 < length p).
Proof.
  intros Hp. pose proof (lookup_lt_Some _ _ _ Hp) as Hi.
  rewrite length_split_window in *. rewrite split_window_lookup in Hp by done.
  injection Hp as <-. rewrite length_take, length_drop.
  pose proof (estimatedPages_tight (length s)) as Ht.
  split_and!; [lia| |].
  - intros HS. destruct Ht as [Ht|Ht]; [nia|]. rewrite Ht in *.
    unfold estimatedPages in HS. rewrite ceil_div_0 in HS. lia.
  - intros Hs. destruct s; [done|]. simpl in *. destruct Ht as [Ht|Ht]; [nia|lia].
Qed.
End Window.

(** * The length-estimate strategy is a pagination strategy *)

#[export] Instance split_pages_paginator : Paginator split_pages.
Proof.
  split.
  - intros s H%(f_equal length). unfold split_pages in H.
    rewrite length_split_window in H. unfold estimatedPages in H. simpl in H. lia.
  - intros s. apply concat_split_window. unfold estimatedCharsPerPage. lia.
Qed.

Ltac unfold_handlers :=
  unfold nextPage, prevPage, zoomIn, zoomOut, paginate_effect, preview_ok in *;
  repeat case_decide; simpl in *.

Section Component.
Context (paginate : str → list str) `{!Paginator paginate}.

Lemma paginate_length_pos s : 1 ≤ length (paginate s).
Proof.
  pose proof (paginate_nonempty s). destruct (paginate s); [done|simpl; lia].
Qed.

Lemma paginate_effect_ok pageData st :
  (3 ≤ zoomLevel st ≤ 12)%Z → preview_ok (paginate_effect paginate pageData st).
Proof.
  intros Hz. pose proof (paginate_length_pos (content pageData)).
  unfold_handlers. lia.
Qed.

Lemma handle_ok e st : preview_ok st → preview_ok (handle paginate e st).
Proof.
  intros Hok. destruct e; simpl; [apply paginate_effect_ok, Hok|..];
    unfold_handlers; lia.
Qed.

Lemma reaches_ok st st' : preview_ok st → reaches paginate st st' → preview_ok st'.
Proof. intros Hok. induction 1; [done|]. by apply handle_ok. Qed.

Lemma preview_ok_lookup st :
  preview_ok st → is_Some (pages st !! (currentPage st - 1)).
Proof. intros (H1 & H2 & H3 & _). apply lookup_lt_is_Some. lia. Qed.

Lemma nextPage_walk k st :
  1 ≤ currentPage st ≤ totalPages st →
  currentPage (Nat.iter k nextPage st) = (currentPage st + k) `min` totalPages st ∧
  totalPages (Nat.iter k nextPage st) = totalPages st ∧
  pages (Nat.iter k nextPage st) = pages st.
Proof.
  intros (H1 & H2). induction k as [|k (IH1 & IH2 & IH3)]; simpl.
  - split_and!; [lia|done|done].
  - revert IH1 IH2 IH3. generalize (Nat.iter k nextPage st). intros X IH1 IH2 IH3.
    unfold nextPage. case_decide; simpl; split_and!; try done; lia.
Qed.

Lemma reaches_iter (f : PreviewState → PreviewState) e st k :
  (∀ st, handle paginate e st = f st) → reaches paginate st (Nat.iter k f st).
Proof.
  intros Hf. induction k as [|k IH]; simpl; [constructor|].
  rewrite <-Hf. by constructor.
Qed.
End Component.

(** * Properties of the length-estimate strategy *)

(** C3: the number of pages of the length-estimate strategy is the least
    number of windows of [w] units that cover the content, and one for an
    empty content: [max(1, ceil(length / w))]. *)
Theorem split_window_count (w : nat) (s : str) (n : nat) :
  0 < w →
  (length (split_window w s) = n ↔
   1 ≤ n ∧ length s ≤ n * w ∧ ((n - 1) * w < length s ∨ n = 1)).
Proof. intros Hw. by apply length_split_window_iff. Qed.

Lemma split_window_count_witness :
  length (split_window 4 (lit "<p>hello</p>")) = 3.
Proof. apply (split_window_count 4 (lit "<p>hello</p>") 3); [lia|simpl; lia]. Defined.

(** C2: concatenating the pages in order gives back the content, with no
    loss and no duplication. *)
Theorem split_window_roundtrip (w : nat) (s : str) :
  0 < w → concat (split_window w s) = s.
Proof. intros Hw. by apply concat_split_window. Qed.

Lemma split_window_roundtrip_witness :
  concat (split_window 4 (lit "<p>hello</p>")) = lit "<p>hello</p>".
Proof. apply split_window_roundtrip. lia. Defined.

(** Page [i] is the window of the content that starts at [i * w]; it
    holds at most [w] units, exactly [w] unless it is the last page, and at
    least one unit unless the content is empty. *)
Lemma split_window_pages (w : nat) (s : str) (i : nat) (p : str) :
  0 < w → split_window w s !! i = Some p →
  p = take w (drop (i * w) s) ∧ length p ≤ w ∧
  (S i < length (split_window w s) → length p = w) ∧
  (s ≠ [] → 0 < length p).
Proof.
  intros Hw Hp. split; [|by eapply split_window_page].
  pose proof (lookup_lt_Some _ _ _ Hp) as Hi. rewrite length_split_window in Hi.
  rewrite split_window_lookup in Hp by done. by injection Hp.
Qed.

Lemma split_window_pages_witness :
  lit "</p>" = take 4 (drop (2 * 4) (lit "<p>hello</p>")) ∧ length (lit "</p>") ≤ 4 ∧
  (3 < length (split_window 4 (lit "<p>hello</p>")) → length (lit "</p>") = 4) ∧
  (lit "<p>hello</p>" ≠ [] → 0 < length (lit "</p>")).
Proof. apply (split_window_pages 4 (lit "<p>hello</p>") 2); [lia|reflexivity]. Defined.

(** The page slices built from a non-empty list of pages carry the
    ordinals 1, 2, ... and the pages in order, and exactly the first one is
    marked [isFirst]. *)
Lemma slices_first_only (s : str) :
  let sl := slices (split_pages s) in
  html <$> sl = split_pages s ∧
  index <$> sl = seq 1 (length (split_pages s)) ∧
  isFirst <$> sl = true :: replicate (length (split_pages s) - 1) false.
Proof.
  pose proof (paginate_nonempty (paginate := split_pages) s) as Hne.
  simpl. unfold slices. rewrite !fmap_imap. destruct (split_pages s) as [|p ps]; [done|].
  split_and!.
  - rewrite (imap_ext _ (const id)) by done. by rewrite imap_const, list_fmap_id.
  - rewrite (imap_ext _ (λ j _, S j)) by done.
    rewrite (imap_seq_0 _ S). by rewrite fmap_S_seq.
  - rewrite (imap_ext _ (λ j _, bool_decide (S j = 1))) by done.
    rewrite (imap_seq_0 _ (λ j, bool_decide (S j = 1))). simpl. f_equal.
    etrans; [apply (fmap_replicate_const _ false)|by rewrite length_seq, Nat.sub_0_r].
    intros j [Hj _]%elem_of_seq. apply bool_decide_eq_false. lia.
Qed.

(** * Properties of the component *)

(** C9: once content is loaded, whatever the user does (next, previous,
    zoom, new content), the current page stays between 1 and the number of
    pages, the zoom between 30% and 120%, and the page shown exists.  This
    holds for every pagination strategy. *)
Theorem preview_invariant (paginate : str → list str) `{!Paginator paginate}
    (pageData : NotionPageData) (st0 st : PreviewState) :
  (3 ≤ zoomLevel st0 ≤ 12)%Z →
  reaches paginate (paginate_effect paginate pageData st0) st →
  preview_ok st ∧ is_Some (pages st !! (currentPage st - 1)).
Proof.
  intros Hz Hr.
  assert (preview_ok st) as Hok.
  { eapply reaches_ok; [done| |done]. by apply paginate_effect_ok. }
  split; [done|]. by apply preview_ok_lookup.
Qed.

Lemma preview_invariant_witness :
  preview_ok (prevPage (nextPage (useEffect sample_page initialPreview))) ∧
  is_Some (pages (prevPage (nextPage (useEffect sample_page initialPreview)))
             !! (currentPage (prevPage (nextPage (useEffect sample_page initialPreview))) - 1)).
Proof.
  apply (preview_invariant split_pages sample_page initialPreview); [simpl; lia|].
  apply (reaches_step _ _ Prev), (reaches_step _ _ Next), reaches_refl.
Defined.

(** Every page can be reached: from freshly loaded content, [i]
    clicks on next show page [i + 1], for every [i] below the number of
    pages, and the content shown is that page of the strategy. *)
Lemma every_page_reachable (paginate : str → list str) `{!Paginator paginate}
    (pageData : NotionPageData) (settings : ExportSettings) (st0 : PreviewState)
    (i : nat) (p : str) :
  paginate (content pageData) !! i = Some p →
  let st := Nat.iter i nextPage (paginate_effect paginate pageData st0) in
  reaches paginate (paginate_effect paginate pageData st0) st ∧
  currentPage st = i + 1 ∧
  v_html <$> pageContent pageData settings st = Some p.
Proof.
  intros Hp st. pose proof (lookup_lt_Some _ _ _ Hp) as Hi.
  destruct (nextPage_walk i (paginate_effect paginate pageData st0)) as (Hc & Ht & Hpages).
  { simpl. pose proof (paginate_length_pos paginate (content pageData)). lia. }
  fold st in Hc, Ht, Hpages. cbn [paginate_effect currentPage totalPages pages] in Hc, Ht, Hpages.
  rewrite Nat.min_l in Hc by lia.
  split_and!; [by apply (reaches_iter _ _ Next)|lia|].
  unfold pageContent. rewrite Hpages. replace (currentPage st - 1) with i by lia.
  revert Hp. destruct (paginate (content pageData)) as [|p0 ps]; [done|].
  intros Hp. simpl. by rewrite Hp.
Qed.

Lemma every_page_reachable_witness :
  let st := Nat.iter 1 nextPage (paginate_effect split_pages sample_page initialPreview) in
  reaches split_pages (paginate_effect split_pages sample_page initialPreview) st ∧
  currentPage st = 1 + 1 ∧
  v_html <$> pageContent sample_page defaultSettings st = Some (replicate 1000 120%N).
Proof.
  apply (every_page_reachable split_pages sample_page defaultSettings initialPreview 1).
  vm_compute. reflexivity.
Defined.

(** The title block, the icon and the cover image are shown on the
    first page only; the cover needs [includeCover] and a non-empty cover
    URL, the icon needs [includeIcon]. *)
Lemma first_page_only (pageData : NotionPageData) (settings : ExportSettings)
    (st : PreviewState) (v : PageView) :
  pageContent pageData settings st = Some v →
  (∀ t, v_title v = Some t ↔ currentPage st = 1 ∧ t = title pageData) ∧
  (∀ c, v_cover v = Some c ↔
     currentPage st = 1 ∧ includeCover settings = true ∧
     coverImage pageData = Some c ∧ c ≠ []) ∧
  (∀ ic, v_icon v = Some ic ↔
     currentPage st = 1 ∧ includeIcon settings = true ∧ icon pageData = Some ic).
Proof.
  unfold pageContent. destruct (pages st) as [|p ps]; [done|]. intros [= <-]. simpl.
  destruct (includeCover settings), (includeIcon settings),
    (coverImage pageData) as [[|c0 cover]|]; simpl; case_bool_decide;
    split_and!; intros; split; intros; destruct_and?; simplify_eq; done.
Qed.

Lemma first_page_only_witness :
  let st := useEffect sample_page initialPreview in
  let v := sample_view "210mm" "297mm" in
  (∀ t, v_title v = Some t ↔ currentPage st = 1 ∧ t = title sample_page) ∧
  (∀ c, v_cover v = Some c ↔
     currentPage st = 1 ∧ includeCover defaultSettings = true ∧
     coverImage sample_page = Some c ∧ c ≠ []) ∧
  (∀ ic, v_icon v = Some ic ↔
     currentPage st = 1 ∧ includeIcon defaultSettings = true ∧ icon sample_page = Some ic).
Proof.
  apply (first_page_only sample_page defaultSettings
           (useEffect sample_page initialPreview) (sample_view "210mm" "297mm")).
  vm_compute. reflexivity.
Defined.

(** The preview frame has the A4 dimensions for the page size a4 and
    the Letter dimensions for every other page size, Legal included. *)
Lemma preview_frame (pageData : NotionPageData) (settings : ExportSettings)
    (st : PreviewState) (v : PageView) :
  pageContent pageData settings st = Some v →
  (pageSize settings = lit "a4" → v_width v = lit "210mm" ∧ v_height v = lit "297mm") ∧
  (pageSize settings ≠ lit "a4" → v_width v = lit "8.5in" ∧ v_height v = lit "11in").
Proof.
  unfold pageContent. destruct (pages st) as [|p ps]; [done|]. intros [= <-]. simpl.
  case_bool_decide; split; intros; done.
Qed.

Lemma preview_frame_witness :
  let v := sample_view "8.5in" "11in" in
  (pageSize legalSettings = lit "a4" → v_width v = lit "210mm" ∧ v_height v = lit "297mm") ∧
  (pageSize legalSettings ≠ lit "a4" → v_width v = lit "8.5in" ∧ v_height v = lit "11in").
Proof.
  apply (preview_frame sample_page legalSettings
           (useEffect sample_page initialPreview) (sample_view "8.5in" "11in")).
  vm_compute. reflexivity.
Defined.

(** * The settings the preview reads *)

(** C35: the preview reads the page size, the font scale and the three
    include switches, and nothing else of the settings: two settings that
    agree on these show the same page, whatever [preserveImages],
    [preserveFormatting], [smartPageBreaks] and [margins] are. *)
Theorem preview_reads_five (pageData : NotionPageData) (s s' : ExportSettings)
    (st : PreviewState) :
  pageSize s = pageSize s' → fontScale s = fontScale s' →
  includeCover s = includeCover s' → includeIcon s = includeIcon s' →
  includeBackground s = includeBackground s' →
  pageContent pageData s st = pageContent pageData s' st.
Proof. unfold pageContent. by intros -> -> -> -> ->. Qed.

(** With [preserveImages] off the preview still shows the image tags of
    the content. *)
Lemma preview_reads_five_witness :
  preserveImages noImagesSettings = false ∧
  pageContent image_page noImagesSettings (useEffect image_page initialPreview) =
    pageContent image_page defaultSettings (useEffect image_page initialPreview) ∧
  v_html <$> pageContent image_page defaultSettings (useEffect image_page initialPreview)
    = Some (qlit "<img src='a.png'>").
Proof.
  split_and!; [reflexivity| |vm_compute; reflexivity].
  apply (preview_reads_five image_page noImagesSettings defaultSettings); reflexivity.
Defined.
