(* ===== verification/View.v ===== *)
(** * View: the trees the components render

    What a React component returns, as far as the sources determine it: a
    tree of elements with a tag, properties, event handlers and children,
    whose leaves are texts and numbers.  The files [PreviewToolbar],
    [SettingsForm] and [ExporterView] translate the JSX of the components
    into such trees, one element per JSX element in document order; a
    block of the form [cond && (...)] is [show_if].  Class names and
    constant style objects carry no behaviour and are left out.

    The type [H] of the handlers is chosen by each component.  The
    operations are the queries the theorems need: the subtrees of a view,
    the element with a given id, the value of a property, and the handlers
    a user can reach, which are those of the elements that are neither
    disabled nor below a disabled one. *)

From stdpp Require Import prelude list strings.
From S2P Require Import Prelude JsString Types.

Set Warnings "-deprecated-lookup-elim-by-name".

(** The value of a property: a string, a number, a boolean or an array of
    numbers. *)
Inductive value :=
  | VStr (s : str)
  | VNum (q : QArith_base.Q)
  | VBool (b : bool)
  | VNums (l : list QArith_base.Q).

#[export] Instance value_eq_dec : EqDecision value.
Proof. solve_decision. Defined.

Section nested_ind.
#[local] Unset Elimination Schemes.
Context {H : Type}.

Inductive vnode :=
  | Txt (s : str)
  | Num (q : QArith_base.Q)
  | El (tag : string) (props : list (string * value)) (on : list (string * H))
      (kids : list vnode).

Variable P : vnode → Prop.
Hypothesis case_Txt : ∀ s, P (Txt s).
Hypothesis case_Num : ∀ q, P (Num q).
Hypothesis case_El : ∀ tag props on kids, Forall P kids → P (El tag props on kids).

Fixpoint vnode_ind (n : vnode) : P n :=
  match n with
  | Txt s => case_Txt s
  | Num q => case_Num q
  | El t p o c =>
      case_El t p o c
        ((fix fold (xs : list vnode) : Forall P xs :=
            match xs with
            | [] => List.Forall_nil _
            | x :: xs => List.Forall_cons _ x xs (vnode_ind x) (fold xs)
            end) c)
  end.
End nested_ind.
Arguments vnode H : clear implicits.

(** [cond && (<block/>)] among the children of an element. *)
Definition show_if {H} (cond : bool) (block : vnode H) : list (vnode H) :=
  if cond then [block] else [].

(** The same for a function that returns a block or null. *)
Definition show_opt {H} (block : option (vnode H)) : list (vnode H) :=
  match block with
  | Some b => [b]
  | None => []
  end.

Section Queries.
Context {H : Type}.
Implicit Types n : vnode H.

(** The node and its descendants, in document order. *)
Fixpoint subtrees (n : vnode H) : list (vnode H) :=
  match n with
  | El _ _ _ c => n :: concat (subtrees <$> c)
  | _ => [n]
  end.

Definition tag_name n : option string :=
  match n with
  | El t _ _ _ => Some t
  | _ => None
  end.

(** The tags of the elements of a view, in document order. *)
Definition tags n : list string := omap tag_name (subtrees n).

Definition prop (k : string) n : option value :=
  match n with
  | El _ p _ _ => snd <$> List.find (λ kv, bool_decide (kv.1 = k)) p
  | _ => None
  end.

(** A boolean property that is present and true. *)
Definition flag (k : string) n : bool :=
  match prop k n with
  | Some (VBool b) => b
  | _ => false
  end.

Definition own_handlers n : list (string * H) :=
  match n with
  | El _ _ o _ => o
  | _ => []
  end.

(** The first element with the given id. *)
Definition by_id (id : string) n : option (vnode H) :=
  List.find (λ e, bool_decide (prop "id" e = Some (VStr (lit id)))) (subtrees n).

(** The handlers a user can reach: those of the elements that are not
    disabled and not below a disabled element. *)
Fixpoint handlers (n : vnode H) : list (string * H) :=
  match n with
  | El _ _ o c =>
      if flag "disabled" n then [] else o ++ concat (handlers <$> c)
  | _ => []
  end.

End Queries.

(** * Lemmas *)

Section Lemmas.
Context {H : Type}.
Implicit Types n : vnode H.

Lemma subtrees_self n : n ∈ subtrees n.
Proof. destruct n; simpl; by left. Qed.

Lemma subtrees_kid tag props on kids k n :
  k ∈ kids → n ∈ subtrees k → n ∈ subtrees (El tag props on kids).
Proof.
  intros Hk Hn. simpl. right. apply elem_of_concat_fmap. eauto.
Qed.

Lemma subtrees_trans n m k : m ∈ subtrees n → k ∈ subtrees m → k ∈ subtrees n.
Proof.
  revert m k. induction n as [s|q|t p o c IH]; intros m k.
  1,2: by intros ->%list_elem_of_singleton.
  simpl. intros [->|Hm]%elem_of_cons Hk; [done|].
  apply elem_of_concat_fmap in Hm as (x & Hx & Hm). right.
  apply elem_of_concat_fmap. exists x. split; [done|].
  rewrite Forall_forall in IH. by eapply IH.
Qed.

Lemma handlers_El tag props on kids :
  flag "disabled" (El tag props on kids) = false →
  handlers (El (H:=H) tag props on kids) = on ++ concat (handlers <$> kids).
Proof. simpl. by intros ->. Qed.

Lemma handlers_disabled tag props on kids :
  flag "disabled" (El tag props on kids) = true →
  handlers (El (H:=H) tag props on kids) = [].
Proof. simpl. by intros ->. Qed.

(** A handler that can be reached belongs to an element of the view that
    is not disabled. *)
Lemma handlers_own n h :
  h ∈ handlers n →
  ∃ e, e ∈ subtrees n ∧ h ∈ own_handlers e ∧ flag "disabled" e = false.
Proof.
  induction n as [s|q|t p o c IH]; simpl; [by intros ?%elem_of_nil..|].
  destruct (flag "disabled" (El t p o c)) eqn:Hd; [by intros ?%elem_of_nil|].
  intros [Ho|Hc]%elem_of_app.
  - exists (El t p o c). split_and!; [by left|done|done].
  - apply elem_of_concat_fmap in Hc as (k & Hk & Hh).
    rewrite Forall_forall in IH. destruct (IH k Hk Hh) as (e & He & ?).
    exists e. split; [|done]. right. apply elem_of_concat_fmap. eauto.
Qed.

End Lemmas.
