(* ===== verification/PreviewToolbar.v ===== *)
(** * PreviewToolbar: what PDFPreview renders, and its zoom on doubles

    The tree that PDFPreview of src/components/pdf-preview.tsx returns:
    the toolbar with the zoom and navigation buttons and their [disabled]
    conditions, the page that [pageContent] shows, and the caption.  The
    theorems relate the buttons a user can press to the handlers of
    [Paginator]: a button is enabled exactly when its handler changes the
    state.

    The zoom level of the component is a JavaScript number.  [Paginator]
    keeps it in tenths; here the handlers, the [disabled] conditions and
    the percentage label are written on binary64 floating-point numbers as
    in the source, with [Math.round] computed exactly, and shown to agree
    with the model in tenths on every level the component reaches. *)

From stdpp Require Import prelude list numbers strings.
From Stdlib Require Import Lia ZArith PrimFloat SpecFloat FloatOps Uint63.
From S2P Require Import Prelude JsString Types Paginator View.

Set Warnings "-inexact-float".
Set Warnings "-clear-no-such-hyp".

(** * Doubles *)

(** The double of an integer below 2^53 in absolute value. *)
Definition float_of_Z (z : Z) : float :=
  match z with
  | Z0 => PrimFloat.zero
  | Zpos _ => PrimFloat.of_uint63 (Uint63.of_Z z)
  | Zneg p => PrimFloat.opp (PrimFloat.of_uint63 (Uint63.of_Z (Zpos p)))
  end.

(** The integer nearest to [(-1)^s * m / 2^p], the larger one on a tie. *)
Definition round_half_up (s : bool) (m p : positive) : Z :=
  let n := if s then Zneg m else Zpos m in
  ((2 * n + 2 ^ Zpos p) `div` 2 ^ (Zpos p + 1))%Z.

(** [Math.round(x)]: a double with no fractional part, an infinity or NaN
    is returned as it is; a negative number that rounds to zero gives the
    negative zero. *)
Definition Math_round (x : float) : float :=
  match Prim2SF x with
  | S754_finite s m (Zneg p) =>
      let r := round_half_up s m p in
      if bool_decide (r = 0%Z) && s then PrimFloat.opp PrimFloat.zero else float_of_Z r
  | _ => x
  end.

(** The double the component holds for a zoom level of [k] tenths. *)
Definition tenths (k : Z) : float := (float_of_Z k / 10)%float.

(** [useState(0.7)] *)
Definition initialZoom : float := 0.7%float.

Definition zoomIn_double (zoomLevel : float) : float :=
  if (zoomLevel <? 1.2)%float
  then (Math_round ((zoomLevel + 0.1) * 10) / 10)%float
  else zoomLevel.

Definition zoomOut_double (zoomLevel : float) : float :=
  if (0.3 <? zoomLevel)%float
  then (Math_round ((zoomLevel - 0.1) * 10) / 10)%float
  else zoomLevel.

(** [disabled={zoomLevel <= 0.3}] and [disabled={zoomLevel >= 1.2}] *)
Definition zoomOut_disabled_double (zoomLevel : float) : bool :=
  (zoomLevel <=? 0.3)%float.

Definition zoomIn_disabled_double (zoomLevel : float) : bool :=
  (1.2 <=? zoomLevel)%float.

(** [Math.round(zoomLevel * 100)] of the percentage label. *)
Definition zoom_percent_double (zoomLevel : float) : float :=
  Math_round (zoomLevel * 100)%float.

(** A click on a zoom button: [true] for zoom in, [false] for zoom out. *)
Definition click_double (zoomLevel : float) (zoom_in : bool) : float :=
  if zoom_in then zoomIn_double zoomLevel else zoomOut_double zoomLevel.

Definition click_tenths (st : PreviewState) (zoom_in : bool) : PreviewState :=
  if zoom_in then zoomIn st else zoomOut st.

(** The levels the component can be at, in tenths. *)
Definition zoom_levels : list Z := (λ i, 3 + Z.of_nat i)%Z <$> seq 0 10.

(** * The tree *)

(** The handlers of the tree: a button fires an event of the component;
    an image that fails to load hides itself. *)
Inductive preview_handler :=
  | Fire (e : event)
  | HideImage.

Definition of_nat (n : nat) : QArith_base.Q := QArith_base.inject_Z (Z.of_nat n).

(** A number of tenths as a number. *)
Definition of_tenths (k : Z) : QArith_base.Q := QArith_base.Qmake k 10.

(** [<Button variant=outline size=icon onClick={h} disabled={d}><Icon/></Button>] *)
Definition icon_button (h : event) (d : bool) (icon : string) : vnode preview_handler :=
  El "Button" [("variant", VStr (lit "outline")); ("size", VStr (lit "icon"));
               ("disabled", VBool d)]
    [("onClick", Fire h)] [El icon [] [] []].

(** [<img src={src} alt={alt} onError={...}/>] *)
Definition image_node (src : str) (alt : string) : vnode preview_handler :=
  El "img" [("src", VStr src); ("alt", VStr (lit alt))] [("onError", HideImage)] [].

Definition icon_node (ic : Icon) : vnode preview_handler :=
  El "span" [] []
    [match icon_type ic with
     | Emoji => Txt (icon_content ic)
     | Image => image_node (icon_content ic) "Page icon"
     end].

(** The tree of [pageContent], from what it shows. *)
Definition page_node (v : PageView) : vnode preview_handler :=
  El "div" [("style.width", VStr (v_width v)); ("style.height", VStr (v_height v));
            ("style.transform.scale", VNum (of_tenths (v_scale v)));
            ("style.transformOrigin", VStr (lit "top center"))] []
    (show_opt ((λ c, El "div" [] [] [image_node c "Cover"]) <$> v_cover v) ++
     [El "div" [("style.fontSize.rem", VNum (v_fontSize v));
                ("style.backgroundColor", VStr (v_background v));
                ("style.paddingTop", VStr (lit "2rem"))] []
        (show_opt ((λ t, El "div" [] []
                      [El "div" [] []
                         (show_opt (icon_node <$> v_icon v) ++ [El "h1" [] [] [Txt t]])])
                   <$> v_title v) ++
         [El "div" [("style.color", VStr (v_color v));
                    ("dangerouslySetInnerHTML", VStr (v_html v))] [] []]);
      El "div" [] []
        [Txt (lit "Page "); Num (of_nat (v_label v).1); Txt (lit " of ");
         Num (of_nat (v_label v).2)]]).

(** The two groups of the toolbar. *)
Definition zoom_group (st : PreviewState) : vnode preview_handler :=
  El "div" [] []
    [icon_button ZoomOut (bool_decide (zoomLevel st ≤ 3)%Z) "ZoomOut";
     El "span" [] [] [Num (QArith_base.inject_Z (zoomLevel st * 10)); Txt (lit "%")];
     icon_button ZoomIn (bool_decide (12 ≤ zoomLevel st)%Z) "ZoomIn"].

Definition page_group (st : PreviewState) : vnode preview_handler :=
  El "div" [] []
    [icon_button Prev (bool_decide (currentPage st ≤ 1)) "ChevronLeft";
     El "span" [] []
       [Txt (lit "Page "); Num (of_nat (currentPage st)); Txt (lit " of ");
        Num (of_nat (totalPages st))];
     icon_button Next (bool_decide (totalPages st ≤ currentPage st)) "ChevronRight"].

(** What PDFPreview returns. *)
Definition PDFPreview (pageData : NotionPageData) (settings : ExportSettings)
    (st : PreviewState) : vnode preview_handler :=
  El "Card" [] []
    [El "CardContent" [] []
       [El "div" [] [] [zoom_group st; page_group st];
        El "div" [] [] (show_opt (page_node <$> pageContent pageData settings st));
        El "div" [] []
          [Txt (lit "This preview shows how your Notion page will appear in the exported PDF")]]].

(** The clicks that the buttons of a view accept. *)
Definition clickable (n : vnode preview_handler) : list event :=
  omap (λ h, match h with
             | (_, Fire e) => Some e
             | _ => None
             end) (handlers n).

(** * The zoom on doubles *)

Lemma zoom_levels_spec k : (3 ≤ k ≤ 12)%Z ↔ k ∈ zoom_levels.
Proof.
  unfold zoom_levels. rewrite list_elem_of_fmap. split.
  - intros Hk. exists (Z.to_nat (k - 3)). rewrite elem_of_seq. lia.
  - intros (i & -> & Hi%elem_of_seq). lia.
Qed.

(** A property of the zoom levels holds when it holds of each of the ten. *)
Lemma zoom_levels_all (P : Z → Prop) k :
  Forall P zoom_levels → (3 ≤ k ≤ 12)%Z → P k.
Proof. rewrite Forall_forall. intros HP Hk%zoom_levels_spec. by apply HP. Qed.

(** Decide a property of the ten levels by evaluation. *)
Ltac by_levels k :=
  pattern k; apply zoom_levels_all; [|done];
  repeat (apply List.Forall_cons; [vm_compute; reflexivity|]); apply List.Forall_nil.

Lemma initialZoom_tenths : initialZoom = tenths 7.
Proof. vm_compute. reflexivity. Qed.

Lemma zoomIn_double_tenths k :
  (3 ≤ k ≤ 12)%Z →
  zoomIn_double (tenths k) = tenths (if bool_decide (k < 12)%Z then k + 1 else k).
Proof. intros Hk. by_levels k. Qed.

Lemma zoomOut_double_tenths k :
  (3 ≤ k ≤ 12)%Z →
  zoomOut_double (tenths k) = tenths (if bool_decide (3 < k)%Z then k - 1 else k).
Proof. intros Hk. by_levels k. Qed.

Lemma zoomOut_disabled_tenths k :
  (3 ≤ k ≤ 12)%Z → zoomOut_disabled_double (tenths k) = bool_decide (k ≤ 3)%Z.
Proof. intros Hk. by_levels k. Qed.

Lemma zoomIn_disabled_tenths k :
  (3 ≤ k ≤ 12)%Z → zoomIn_disabled_double (tenths k) = bool_decide (12 ≤ k)%Z.
Proof. intros Hk. by_levels k. Qed.

Lemma zoom_percent_tenths k :
  (3 ≤ k ≤ 12)%Z → zoom_percent_double (tenths k) = float_of_Z (k * 10).
Proof. intros Hk. by_levels k. Qed.

Lemma click_tenths_range st c :
  (3 ≤ zoomLevel st ≤ 12)%Z → (3 ≤ zoomLevel (click_tenths st c) ≤ 12)%Z.
Proof.
  unfold click_tenths, zoomIn, zoomOut. destruct c; case_decide; simpl; lia.
Qed.

Lemma clicks_tenths_range clicks st :
  (3 ≤ zoomLevel st ≤ 12)%Z → (3 ≤ zoomLevel (foldl click_tenths st clicks) ≤ 12)%Z.
Proof.
  revert st. induction clicks as [|c clicks IH]; intros st Hk; [done|].
  by apply IH, click_tenths_range.
Qed.

(** One click: the double after the click is the double of the level
    after the click. *)
Lemma click_double_tenths st c :
  (3 ≤ zoomLevel st ≤ 12)%Z →
  click_double (tenths (zoomLevel st)) c = tenths (zoomLevel (click_tenths st c)).
Proof.
  intros Hk. unfold click_double, click_tenths, zoomIn, zoomOut. destruct c.
  - rewrite zoomIn_double_tenths by done. by case_bool_decide; case_decide.
  - rewrite zoomOut_double_tenths by done. by case_bool_decide; case_decide.
Qed.

Lemma clicks_double_tenths clicks st :
  (3 ≤ zoomLevel st ≤ 12)%Z →
  foldl click_double (tenths (zoomLevel st)) clicks =
    tenths (zoomLevel (foldl click_tenths st clicks)).
Proof.
  revert st. induction clicks as [|c clicks IH]; intros st Hk; [done|]. simpl.
  rewrite click_double_tenths by done. by apply IH, click_tenths_range.
Qed.

(** * The handlers of the tree *)

(** The page itself has no button. *)
Lemma clickable_page_node v : clickable (page_node v) = [].
Proof.
  unfold clickable, page_node.
  destruct (v_cover v), (v_title v), (v_icon v) as [[[] ?]|]; reflexivity.
Qed.

Lemma clickable_PDFPreview pageData settings st :
  clickable (PDFPreview pageData settings st) =
    (if bool_decide (zoomLevel st ≤ 3)%Z then [] else [ZoomOut]) ++
    (if bool_decide (12 ≤ zoomLevel st)%Z then [] else [ZoomIn]) ++
    (if bool_decide (currentPage st ≤ 1) then [] else [Prev]) ++
    (if bool_decide (totalPages st ≤ currentPage st) then [] else [Next]).
Proof.
  unfold PDFPreview.
  set (page := El "div" [] [] (show_opt (page_node <$> pageContent pageData settings st))).
  assert (clickable page = []) as Hpage.
  { subst page. destruct (pageContent pageData settings st) as [v|]; [|done].
    pose proof (clickable_page_node v) as Hv. unfold clickable in *.
    rewrite handlers_El by done. csimpl. by rewrite app_nil_r. }
  clearbody page. unfold clickable in *. csimpl.
  rewrite !app_nil_r, !omap_app, Hpage, app_nil_r.
  by repeat case_bool_decide.
Qed.

Lemma elem_of_unless {A} (b : bool) (x y : A) :
  y ∈ (if b then [] else [x]) ↔ y = x ∧ b = false.
Proof. destruct b; [rewrite elem_of_nil|rewrite list_elem_of_singleton]; naive_solver. Qed.

(** The handlers of [Paginator] that leave the state as it is. *)
Lemma zoomOut_fixed st : zoomOut st = st ↔ (zoomLevel st ≤ 3)%Z.
Proof.
  unfold zoomOut. case_decide; [|by split; [lia|]].
  split; [intros Heq%(f_equal zoomLevel); simpl in Heq|]; lia.
Qed.

Lemma zoomIn_fixed st : zoomIn st = st ↔ (12 ≤ zoomLevel st)%Z.
Proof.
  unfold zoomIn. case_decide; [|by split; [lia|]].
  split; [intros Heq%(f_equal zoomLevel); simpl in Heq|]; lia.
Qed.

Lemma prevPage_fixed st : prevPage st = st ↔ currentPage st ≤ 1.
Proof.
  unfold prevPage. case_decide; [|by split; [lia|]].
  split; [intros Heq%(f_equal currentPage); simpl in Heq|]; lia.
Qed.

Lemma nextPage_fixed st : nextPage st = st ↔ totalPages st ≤ currentPage st.
Proof.
  unfold nextPage. case_decide; [|by split; [lia|]].
  split; [intros Heq%(f_equal currentPage); simpl in Heq|]; lia.
Qed.

(** * The theorems *)

(** C13: whatever buttons are clicked, the double that the component holds
    as its zoom level is the double of the level that the model in tenths
    holds: rounding after every step keeps the doubles from drifting.  So
    the comparisons with 0.3 and 1.2 of the [disabled] conditions and the
    percentage of the label, computed on doubles as the source does, are
    those of the model in tenths. *)
Theorem zoom_double_simulation (clicks : list bool) :
  let st := foldl click_tenths initialPreview clicks in
  let z := foldl click_double initialZoom clicks in
  z = tenths (zoomLevel st) ∧
  zoomOut_disabled_double z = bool_decide (zoomLevel st ≤ 3)%Z ∧
  zoomIn_disabled_double z = bool_decide (12 ≤ zoomLevel st)%Z ∧
  zoom_percent_double z = float_of_Z (zoomLevel st * 10).
Proof.
  intros st z. assert (z = tenths (zoomLevel st)) as ->.
  { subst z. rewrite initialZoom_tenths. by apply (clicks_double_tenths clicks initialPreview). }
  assert (3 ≤ zoomLevel st ≤ 12)%Z as Hk by by apply clicks_tenths_range.
  by rewrite zoomOut_disabled_tenths, zoomIn_disabled_tenths, zoom_percent_tenths.
Qed.

(** C24: a button of the toolbar can be pressed exactly when its handler
    changes the state: the [disabled] conditions of the four buttons are
    the negations of the guards of [zoomOut], [zoomIn], [prevPage] and
    [nextPage], and nothing else in the tree is a button. *)
Theorem toolbar_buttons_effective (paginate : str → list str)
    (pageData : NotionPageData) (settings : ExportSettings) (st : PreviewState)
    (e : event) :
  e ∈ clickable (PDFPreview pageData settings st) ↔
  e ∈ [ZoomOut; ZoomIn; Prev; Next] ∧ handle paginate e st ≠ st.
Proof.
  rewrite clickable_PDFPreview, !elem_of_app, !elem_of_unless, !bool_decide_eq_false.
  rewrite <- zoomOut_fixed, <- zoomIn_fixed, <- prevPage_fixed, <- nextPage_fixed.
  rewrite !elem_of_cons, elem_of_nil. destruct e; simpl; naive_solver.
Qed.
