(* ===== verification/SettingsForm.v ===== *)
(** * SettingsForm: the settings form

    The component ExportSettings of src/components/export-settings.tsx: a
    select for the page size, two sliders for the margins and the font
    scale, and six switches.  The form keeps no state of its own: it shows
    the settings it is given and reports every change to its parent as a
    partial update, which the parent merges with [handleExportSettings].

    [ExportSettings_form] is the tree the component returns; its handlers
    are the arrow functions of the JSX, as functions from the value a
    control reports to the update passed to onSettingsChange.  What a
    control can report is the contract of the control library, fixed here
    by [emits]: a select reports the value of one of its items, a slider
    the value of its grid that the thumb is moved to, a switch the negation
    of what it shows.  [form_step] composes the three: the gesture of a user on a
    control, the update the form reports, and the merge by the parent.

    The theorems: the settings that the form can produce from the initial
    ones are exactly those with a listed page size and slider values on
    the grid; every gesture changes the field of its control and no
    other, and the form then shows what was chosen; and for all these
    settings the printable area of generatePDF is positive. *)

From stdpp Require Import prelude list numbers strings pretty finite.
From Stdlib Require Import QArith Qround Lia Lqa.
From S2P Require Import Prelude JsString Types View PdfGenerator.

Close Scope Q_scope.
Set Warnings "-clear-no-such-hyp".

(** * The handlers of the form *)

(** The callbacks that the form gives to its controls.  A slider reports
    an array of numbers and the callback takes its first element: there
    is no update when the array is empty. *)
Inductive form_handler :=
  | OnValueChange (f : str → PartialSettings)
  | OnSlide (f : list Q → option PartialSettings)
  | OnCheckedChange (f : bool → PartialSettings).

(** The nine object literals passed to onSettingsChange. *)
Definition set_pageSize (value : str) : PartialSettings :=
  mkPartial (Some value) None None None None None None None None.
Definition set_margins (value : list Q) : option PartialSettings :=
  (λ v, mkPartial None (Some v) None None None None None None None) <$> head value.
Definition set_fontScale (value : list Q) : option PartialSettings :=
  (λ v, mkPartial None None None None None None None None (Some v)) <$> head value.
Definition set_preserveImages (checked : bool) : PartialSettings :=
  mkPartial None None (Some checked) None None None None None None.
Definition set_preserveFormatting (checked : bool) : PartialSettings :=
  mkPartial None None None (Some checked) None None None None None.
Definition set_smartPageBreaks (checked : bool) : PartialSettings :=
  mkPartial None None None None (Some checked) None None None None.
Definition set_includeIcon (checked : bool) : PartialSettings :=
  mkPartial None None None None None (Some checked) None None None.
Definition set_includeCover (checked : bool) : PartialSettings :=
  mkPartial None None None None None None (Some checked) None None.
Definition set_includeBackground (checked : bool) : PartialSettings :=
  mkPartial None None None None None None None (Some checked) None.

(** * Number.prototype.toFixed(1) *)

(** The integer nearest to ten times a number that is not negative, the
    larger one on a tie. *)
Definition tenths_of (q : Q) : Z := Qfloor (q * 10 + (1 # 2))%Q.

Definition toFixed1 (q : Q) : str :=
  let digits q := let n := tenths_of q in
                  lit (pretty (n `div` 10)%Z) ++ lit "." ++ lit (pretty (n `mod` 10)%Z) in
  if Qlt_le_dec q 0 then lit "-" ++ digits (- q)%Q else digits q.

(** * The tree *)

Definition heading (text : string) : vnode form_handler :=
  El "h3" [] [] [Txt (lit text)].

(** A label and a switch. *)
Definition switch_row (id text : string) (checked : bool) (f : bool → PartialSettings)
    : vnode form_handler :=
  El "div" [] []
    [El "Label" [("htmlFor", VStr (lit id))] [] [Txt (lit text)];
     El "Switch" [("id", VStr (lit id)); ("checked", VBool checked)]
       [("onCheckedChange", OnCheckedChange f)] []].

(** A label and a slider. *)
Definition slider_row (id : string) (label : list (vnode form_handler))
    (min max step value : Q) (f : list Q → option PartialSettings) : vnode form_handler :=
  El "div" [] []
    [El "div" [] [] [El "Label" [("htmlFor", VStr (lit id))] [] label];
     El "Slider" [("id", VStr (lit id)); ("min", VNum min); ("max", VNum max);
                  ("step", VNum step); ("value", VNums [value])]
       [("onValueChange", OnSlide f)] []].

Definition select_item (value text : string) : vnode form_handler :=
  El "SelectItem" [("value", VStr (lit value))] [] [Txt (lit text)].

Definition page_size_row (settings : ExportSettings) : vnode form_handler :=
  El "div" [] []
    [El "Label" [("htmlFor", VStr (lit "page-size"))] [] [Txt (lit "Page Size")];
     El "Select" [("value", VStr (pageSize settings))]
       [("onValueChange", OnValueChange set_pageSize)]
       [El "SelectTrigger" [("id", VStr (lit "page-size"))] []
          [El "SelectValue" [("placeholder", VStr (lit "Select page size"))] [] []];
        El "SelectContent" [] []
          [select_item "a4" "A4"; select_item "letter" "Letter";
           select_item "legal" "Legal"]]].

(** What ExportSettings returns. *)
Definition ExportSettings_form (settings : ExportSettings) : vnode form_handler :=
  El "Card" [] []
    [El "CardHeader" [] []
       [El "CardTitle" [] [] [Txt (lit "Export Settings")];
        El "CardDescription" [] []
          [Txt (lit "Customize how your Notion page will be exported to PDF")]];
     El "CardContent" [] []
       [El "div" [] []
          [El "div" [] []
             [heading "Page Settings";
              page_size_row settings;
              slider_row "margins"
                [Txt (lit "Margins ("); Num (margins settings); Txt (lit "mm)")]
                10 50 1 (margins settings) set_margins;
              slider_row "font-scale"
                [Txt (lit "Font Scale ("); Txt (toFixed1 (fontScale settings));
                 Txt (lit "x)")]
                0.8 1.5 0.1 (fontScale settings) set_fontScale];
           El "Separator" [] [] [];
           El "div" [] []
             [heading "Content Settings";
              switch_row "preserve-images" "Preserve Images"
                (preserveImages settings) set_preserveImages;
              switch_row "preserve-formatting" "Preserve Formatting"
                (preserveFormatting settings) set_preserveFormatting;
              switch_row "smart-page-breaks" "Smart Page Breaks"
                (smartPageBreaks settings) set_smartPageBreaks];
           El "Separator" [] [] [];
           El "div" [] []
             [heading "Notion Elements";
              switch_row "include-icon" "Include Page Icon"
                (includeIcon settings) set_includeIcon;
              switch_row "include-cover" "Include Cover Image"
                (includeCover settings) set_includeCover;
              switch_row "include-background" "Include Background"
                (includeBackground settings) set_includeBackground]]]].

(** * The controls and what they report *)

(** The nine controls of the form, by the ids of the JSX. *)
Inductive control :=
  | PageSize | Margins | FontScale
  | PreserveImages | PreserveFormatting | SmartPageBreaks
  | IncludeIcon | IncludeCover | IncludeBackground.

#[export] Instance control_eq_dec : EqDecision control.
Proof. solve_decision. Defined.

#[export] Instance control_finite : Finite control.
Proof.
  refine {| enum := [PageSize; Margins; FontScale; PreserveImages; PreserveFormatting;
                     SmartPageBreaks; IncludeIcon; IncludeCover; IncludeBackground] |}.
  - apply (bool_decide_unpack _). vm_compute. exact I.
  - intros []; repeat constructor.
Defined.

Definition control_id (c : control) : string :=
  match c with
  | PageSize => "page-size"
  | Margins => "margins"
  | FontScale => "font-scale"
  | PreserveImages => "preserve-images"
  | PreserveFormatting => "preserve-formatting"
  | SmartPageBreaks => "smart-page-breaks"
  | IncludeIcon => "include-icon"
  | IncludeCover => "include-cover"
  | IncludeBackground => "include-background"
  end.

(** The element that handles the events of the control with the given
    id: the first element with a handler that is, or contains, the
    element with that id. *)
Definition find_control {H} (id : string) (n : vnode H) : option (vnode H) :=
  List.find (λ e, match own_handlers e with
                  | [] => false
                  | _ => is_some (by_id id e)
                  end) (subtrees n).

(** What a user does to a control. *)
Inductive gesture :=
  | Choose (value : str)      (* picks an item of a select *)
  | Slide (value : Q)         (* moves the thumb of a slider *)
  | Toggle.                   (* flips a switch *)

(** The values of the items of a select. *)
Definition item_values {H} (e : vnode H) : list str :=
  omap (λ i, match tag_name i, prop "value" i with
             | Some "SelectItem", Some (VStr v) => Some v
             | _, _ => None
             end) (subtrees e).

(** The values of a slider: the grid of its step from its minimum, up to
    its maximum. *)
Definition slider_values (min max step : Q) : list Q :=
  (λ i, Qred (min + inject_Z (Z.of_nat i) * step)%Q)
    <$> seq 0 (S (Z.to_nat (Qfloor ((max - min) / step)%Q))).

Definition slider_grid {H} (e : vnode H) : list Q :=
  match prop "min" e, prop "max" e, prop "step" e with
  | Some (VNum min), Some (VNum max), Some (VNum step) => slider_values min max step
  | _, _, _ => []
  end.

(** The update that the form reports when a control receives a gesture. *)
Definition emits (e : vnode form_handler) (g : gesture) : option PartialSettings :=
  match g, own_handlers e with
  | Choose v, [(_, OnValueChange f)] =>
      if bool_decide (v ∈ item_values e) then Some (f v) else None
  | Slide v, [(_, OnSlide f)] => List.find (Qeq_bool v) (slider_grid e) ≫= λ w, f [w]
  | Toggle, [(_, OnCheckedChange f)] => Some (f (negb (flag "checked" e)))
  | _, _ => None
  end.

Definition page_sizes : list str := [lit "a4"; lit "letter"; lit "legal"].

(** The same as a table: the update for each control and gesture. *)
Definition reported (settings : ExportSettings) (c : control) (g : gesture)
    : option PartialSettings :=
  match c, g with
  | PageSize, Choose v =>
      if bool_decide (v ∈ page_sizes) then Some (set_pageSize v) else None
  | Margins, Slide v =>
      List.find (Qeq_bool v) (slider_values 10 50 1) ≫= λ w, set_margins [w]
  | FontScale, Slide v =>
      List.find (Qeq_bool v) (slider_values 0.8 1.5 0.1) ≫= λ w, set_fontScale [w]
  | PreserveImages, Toggle =>
      Some (set_preserveImages (negb (preserveImages settings)))
  | PreserveFormatting, Toggle =>
      Some (set_preserveFormatting (negb (preserveFormatting settings)))
  | SmartPageBreaks, Toggle =>
      Some (set_smartPageBreaks (negb (smartPageBreaks settings)))
  | IncludeIcon, Toggle => Some (set_includeIcon (negb (includeIcon settings)))
  | IncludeCover, Toggle => Some (set_includeCover (negb (includeCover settings)))
  | IncludeBackground, Toggle =>
      Some (set_includeBackground (negb (includeBackground settings)))
  | _, _ => None
  end.

(** A gesture on a control of the form whose parent merges the updates
    into the settings. *)
Definition form_step (settings : ExportSettings) (c : control) (g : gesture)
    : option ExportSettings :=
  e ← find_control (control_id c) (ExportSettings_form settings);
  p ← emits e g;
  Some (handleExportSettings settings p).

(** A sequence of gestures; a gesture that a control does not offer has
    no effect. *)
Definition form_run (gs : list (control * gesture)) (settings : ExportSettings)
    : ExportSettings :=
  foldl (λ s cg, default s (form_step s cg.1 cg.2)) settings gs.

(** What a control of the form shows: the selected value, the position of
    the thumb, or the state of the switch. *)
Definition shown (c : control) (settings : ExportSettings) : option value :=
  e ← find_control (control_id c) (ExportSettings_form settings);
  match c with
  | PageSize | Margins | FontScale => prop "value" e
  | _ => prop "checked" e
  end.

(** The field of the settings behind a control. *)
Definition field_of (c : control) (settings : ExportSettings) : value :=
  match c with
  | PageSize => VStr (pageSize settings)
  | Margins => VNums [margins settings]
  | FontScale => VNums [fontScale settings]
  | PreserveImages => VBool (preserveImages settings)
  | PreserveFormatting => VBool (preserveFormatting settings)
  | SmartPageBreaks => VBool (smartPageBreaks settings)
  | IncludeIcon => VBool (includeIcon settings)
  | IncludeCover => VBool (includeCover settings)
  | IncludeBackground => VBool (includeBackground settings)
  end.

(** The value that a gesture asks a control to take; a number is kept as
    a fraction in lowest terms. *)
Definition chosen (c : control) (g : gesture) (settings : ExportSettings) : value :=
  match g with
  | Choose v => VStr v
  | Slide v => VNums [Qred v]
  | Toggle => match field_of c settings with
              | VBool b => VBool (negb b)
              | v => v
              end
  end.

(** * The settings of the form *)

(** The settings that the form produces: a listed page size, and slider
    values on the grid. *)
Definition settings_ok (settings : ExportSettings) : Prop :=
  pageSize settings ∈ page_sizes ∧
  margins settings ∈ slider_values 10 50 1 ∧
  fontScale settings ∈ slider_values 0.8 1.5 0.1.

#[export] Instance settings_ok_dec settings : Decision (settings_ok settings).
Proof. unfold settings_ok. apply _. Defined.

(** The gestures that set each field of given settings, from any
    settings: the three values, then a toggle for each switch that
    differs. *)
Definition toggles (c : control) (have want : bool) : list (control * gesture) :=
  if bool_decide (have = want) then [] else [(c, Toggle)].

Definition gestures_to (have want : ExportSettings) : list (control * gesture) :=
  [(PageSize, Choose (pageSize want)); (Margins, Slide (margins want));
   (FontScale, Slide (fontScale want))] ++
  toggles PreserveImages (preserveImages have) (preserveImages want) ++
  toggles PreserveFormatting (preserveFormatting have) (preserveFormatting want) ++
  toggles SmartPageBreaks (smartPageBreaks have) (smartPageBreaks want) ++
  toggles IncludeIcon (includeIcon have) (includeIcon want) ++
  toggles IncludeCover (includeCover have) (includeCover want) ++
  toggles IncludeBackground (includeBackground have) (includeBackground want).

(** The update that sets a switch. *)
Definition switch_update (c : control) (checked : bool) : PartialSettings :=
  match c with
  | PreserveImages => set_preserveImages checked
  | PreserveFormatting => set_preserveFormatting checked
  | SmartPageBreaks => set_smartPageBreaks checked
  | IncludeIcon => set_includeIcon checked
  | IncludeCover => set_includeCover checked
  | IncludeBackground => set_includeBackground checked
  | _ => noChange
  end.

(** Sample settings for the concrete instances. *)
Definition wide_legal : ExportSettings :=
  mkSettings (lit "legal") 50 false true false true false true (3 # 2).

(** * The form reports what the table says *)

Lemma form_reports settings c g :
  find_control (control_id c) (ExportSettings_form settings) ≫= (λ e, emits e g)
  = reported settings c g.
Proof. destruct c, g; reflexivity. Qed.

Lemma form_step_eq settings c g :
  form_step settings c g = handleExportSettings settings <$> reported settings c g.
Proof.
  unfold form_step. rewrite <- form_reports.
  by destruct (find_control _ _) as [e|]; simpl; [destruct (emits e g)|].
Qed.

(** The form shows the settings it is given. *)
Lemma shown_field c settings : shown c settings = Some (field_of c settings).
Proof. by destruct c. Qed.

(** * The grid of a slider *)

Lemma Qred_idemp q : Qred (Qred q) = Qred q.
Proof. apply Qred_complete, Qred_correct. Qed.

Lemma slider_values_red min max step v : v ∈ slider_values min max step → Qred v = v.
Proof. intros (i & -> & _)%list_elem_of_fmap. apply Qred_idemp. Qed.

Lemma slider_values_bounds min max step v :
  (0 < step)%Q → (min <= max)%Q → v ∈ slider_values min max step → (min <= v <= max)%Q.
Proof.
  intros Hs Hm (i & -> & Hi%elem_of_seq)%list_elem_of_fmap. rewrite Qred_correct.
  assert (0 <= (max - min) / step)%Q as Hq by (apply Qle_shift_div_l; lra).
  assert (0 <= Qfloor ((max - min) / step))%Z as Hz.
  { change 0%Z with (Qfloor 0). by apply Qfloor_resp_le. }
  assert (inject_Z (Z.of_nat i) <= (max - min) / step)%Q as Hle.
  { apply Qle_trans with (inject_Z (Qfloor ((max - min) / step))); [|apply Qfloor_le].
    rewrite <- Zle_Qle. lia. }
  assert (0 <= inject_Z (Z.of_nat i))%Q as Hi0.
  { change 0%Q with (inject_Z 0). rewrite <- Zle_Qle. lia. }
  apply (Qmult_le_r _ _ step) in Hle; [|done].
  assert ((max - min) / step * step == max - min)%Q as E by (field; lra).
  rewrite E in Hle. split; [nra|lra].
Qed.

(** The thumb of a slider stops on the value of the grid that is equal to
    the one asked for. *)
Lemma find_slider_value min max step v w :
  List.find (Qeq_bool v) (slider_values min max step) = Some w →
  w ∈ slider_values min max step ∧ w = Qred v.
Proof.
  intros [Hin Heq]%find_some. apply list_elem_of_In in Hin. split; [done|].
  apply Qeq_bool_iff in Heq. rewrite <- (slider_values_red _ _ _ _ Hin).
  symmetry. by apply Qred_complete.
Qed.

Lemma find_slider_self min max step v :
  v ∈ slider_values min max step →
  List.find (Qeq_bool v) (slider_values min max step) = Some v.
Proof.
  intros Hin. destruct (List.find _ _) as [w|] eqn:E.
  - apply find_slider_value in E as [_ ->]. f_equal. by eapply slider_values_red.
  - apply list_elem_of_In in Hin. apply (find_none _ _ E v) in Hin.
    by rewrite (proj2 (Qeq_bool_iff v v)) in Hin.
Qed.

(** * The settings of the form are kept *)

Lemma defaultSettings_ok : settings_ok defaultSettings.
Proof. by apply (bool_decide_unpack _). Qed.

#[local] Opaque slider_values.

Lemma form_step_ok settings c g settings' :
  settings_ok settings → form_step settings c g = Some settings' → settings_ok settings'.
Proof.
  intros (Hp & Hm & Hf). rewrite form_step_eq. unfold settings_ok.
  destruct c, g; simpl; try done; try (by intros [= <-]).
  - case_bool_decide; [|done]. by intros [= <-].
  - destruct (List.find _ _) as [w|] eqn:E; [|done].
    apply find_slider_value in E as [Hw _]. by intros [= <-].
  - destruct (List.find _ _) as [w|] eqn:E; [|done].
    apply find_slider_value in E as [Hw _]. by intros [= <-].
Qed.

Lemma form_run_ok gs settings : settings_ok settings → settings_ok (form_run gs settings).
Proof.
  revert settings. induction gs as [|[c g] gs IH]; intros s Hs; [done|].
  apply IH. simpl. destruct (form_step s c g) eqn:E; [|done]. by eapply form_step_ok.
Qed.

(** The margins of the form leave a printable area. *)
Lemma settings_ok_margins settings :
  settings_ok settings → (10 <= margins settings <= 50)%Q.
Proof. intros (_ & Hm & _). by apply slider_values_bounds in Hm. Qed.

Lemma settings_ok_fontScale settings :
  settings_ok settings → (0.8 <= fontScale settings <= 1.5)%Q.
Proof. intros (_ & _ & Hf). by apply slider_values_bounds in Hf. Qed.

Lemma settings_ok_width settings :
  settings_ok settings → (margins settings * 2 < pageWidth settings)%Q.
Proof.
  intros [_ Hm]%settings_ok_margins. unfold pageWidth. repeat case_bool_decide; lra.
Qed.

(** * A gesture changes the field of its control *)

Lemma form_step_chosen settings c g settings' :
  form_step settings c g = Some settings' → field_of c settings' = chosen c g settings.
Proof.
  rewrite form_step_eq.
  destruct c, g; simpl; try done; try (by intros [= <-]).
  - case_bool_decide; [|done]. by intros [= <-].
  - destruct (List.find _ _) as [w|] eqn:E; [|done].
    apply find_slider_value in E as [_ ->]. by intros [= <-].
  - destruct (List.find _ _) as [w|] eqn:E; [|done].
    apply find_slider_value in E as [_ ->]. by intros [= <-].
Qed.

Lemma form_step_others settings c g settings' c' :
  form_step settings c g = Some settings' → c' ≠ c →
  field_of c' settings' = field_of c' settings.
Proof.
  rewrite form_step_eq. intros Hs Hc.
  destruct c, g; simpl in Hs; try done;
    repeat case_bool_decide; try done;
    try (destruct (List.find _ _); [|done]); simpl in Hs;
    injection Hs as <-; by destruct c'.
Qed.

(** * Every setting can be reached *)

Lemma form_step_pageSize settings v :
  v ∈ page_sizes →
  form_step settings PageSize (Choose v)
  = Some (handleExportSettings settings (set_pageSize v)).
Proof. intros Hv. rewrite form_step_eq. simpl. by rewrite bool_decide_eq_true_2. Qed.

Lemma form_step_margins settings v :
  v ∈ slider_values 10 50 1 →
  form_step settings Margins (Slide v)
  = handleExportSettings settings <$> set_margins [v].
Proof. intros Hv. rewrite form_step_eq. simpl. by rewrite find_slider_self. Qed.

Lemma form_step_fontScale settings v :
  v ∈ slider_values 0.8 1.5 0.1 →
  form_step settings FontScale (Slide v)
  = handleExportSettings settings <$> set_fontScale [v].
Proof. intros Hv. rewrite form_step_eq. simpl. by rewrite find_slider_self. Qed.

Lemma form_run_app gs gs' settings :
  form_run (gs ++ gs') settings = form_run gs' (form_run gs settings).
Proof. apply foldl_app. Qed.

(** Toggling a switch when it differs from what is wanted sets it. *)
Lemma form_run_toggles c settings have want :
  field_of c settings = VBool have →
  form_run (toggles c have want) settings
  = handleExportSettings settings (switch_update c want).
Proof.
  destruct settings. by destruct c; try done; intros [= <-]; destruct want;
    match goal with |- context [toggles _ ?b _] => destruct b end.
Qed.

(** * The theorems *)

(** C12: whatever a user does to the form, the settings keep a listed page
    size, margins between 10 and 50 on the grid of the slider, and a font
    scale between 0.8 and 1.5 on the grid of the slider. *)
Theorem form_invariant (gs : list (control * gesture)) :
  let settings := form_run gs defaultSettings in
  settings_ok settings ∧
  (10 <= margins settings <= 50)%Q ∧ (0.8 <= fontScale settings <= 1.5)%Q.
Proof.
  intros settings. assert (settings_ok settings) as Hok.
  { apply form_run_ok, defaultSettings_ok. }
  split; [done|]. split; [by apply settings_ok_margins|by apply settings_ok_fontScale].
Qed.

(** C25: a gesture that a control offers changes what that control shows
    to the value chosen and leaves what every other control shows as it
    was. *)
Theorem form_shows_choice (settings : ExportSettings) (c : control) (g : gesture)
    (settings' : ExportSettings) :
  form_step settings c g = Some settings' →
  shown c settings' = Some (chosen c g settings) ∧
  ∀ c', c' ≠ c → shown c' settings' = shown c' settings.
Proof.
  intros Hs. split.
  - rewrite shown_field. f_equal. by eapply form_step_chosen.
  - intros c' Hc. rewrite !shown_field. f_equal. by eapply form_step_others.
Qed.

Lemma form_shows_choice_witness :
  let settings' := handleExportSettings defaultSettings (mkPartial None None None None None None None None (Some (4 # 5)%Q)) in
  shown FontScale settings' = Some (chosen FontScale (Slide 0.8) defaultSettings) ∧
  ∀ c', c' ≠ FontScale → shown c' settings' = shown c' defaultSettings.
Proof.
  apply (form_shows_choice defaultSettings FontScale (Slide 0.8)). reflexivity.
Defined.

(** C26: for all settings that the form produces and every canvas, the page
    loop of generatePDF is well defined: the printable width is at least
    110 mm, the height of a page in pixels is positive, and every strip has
    a positive height of at most one page. *)
Theorem form_settings_printable (gs : list (control * gesture)) (cv : canvas) (i : nat) :
  let settings := form_run gs defaultSettings in
  (110 <= innerWidth settings)%Q ∧
  (0 < pageHeightPx settings cv)%Q ∧
  (i < totalPages settings cv →
   (0 < srcHeight settings cv i <= pageHeightPx settings cv)%Q).
Proof.
  intros settings. assert (settings_ok settings) as Hok.
  { apply form_run_ok, defaultSettings_ok. }
  pose proof (settings_ok_margins _ Hok) as [_ Hm].
  assert (0 < pageHeightPx settings cv)%Q as Hh.
  { by apply pageHeightPx_pos, settings_ok_width. }
  split; [|split; [done|]].
  - unfold innerWidth, pageWidth. repeat case_bool_decide; lra.
  - intros Hi. split; [by apply srcHeight_pos|apply srcHeight_le].
Qed.

(** C34: the form reaches all the settings it is meant for: from any
    settings, choosing the page size, moving the two sliders and flipping
    the switches that differ gives exactly the settings wanted. *)
Theorem form_reaches_settings (have want : ExportSettings) :
  settings_ok want → form_run (gestures_to have want) have = want.
Proof.
  intros (Hp & Hm & Hf). unfold gestures_to. rewrite !form_run_app.
  unfold form_run at 7. simpl foldl.
  rewrite form_step_pageSize by done. simpl default.
  rewrite form_step_margins by done. simpl default.
  rewrite form_step_fontScale by done. simpl default.
  rewrite (form_run_toggles PreserveImages) by reflexivity.
  rewrite (form_run_toggles PreserveFormatting) by reflexivity.
  rewrite (form_run_toggles SmartPageBreaks) by reflexivity.
  rewrite (form_run_toggles IncludeIcon) by reflexivity.
  rewrite (form_run_toggles IncludeCover) by reflexivity.
  rewrite (form_run_toggles IncludeBackground) by reflexivity.
  by destruct have, want.
Qed.

Lemma form_reaches_settings_witness :
  form_run (gestures_to defaultSettings wide_legal) defaultSettings = wide_legal.
Proof.
  apply (form_reaches_settings defaultSettings wide_legal).
  by apply (bool_decide_unpack _).
Defined.
