(* ===== verification/ExporterView.v ===== *)
(** * ExporterView: what the page renders

    The tree that NotionExporter of src/components/notion-exporter.tsx
    returns for a state of the component and a resolved theme, the page
    around it (Home of src/app/page.tsx inside RootLayout of
    src/app/layout.tsx), and the theme switch.

    A handler of the tree is named after the function or the arrow
    function of the JSX; [run_handler] gives what it does to the state of
    the component when the event arrives.  [user_step] is an event of the
    user on the rendered page: it has an effect only when the tree of the
    current state has the handler on an element that is not disabled.
    The theorems show that the machine of [Exporter], whose guards were
    taken from the rendering, is this one; that no element of the page
    mounts the settings form or the preview, so that the export settings
    never leave their initial values; and what the page shows, or fails to
    show, after an upload.

    The theme belongs to the theme provider of next-themes.  Its state is
    the stored theme and the preference of the system; [resolvedTheme] is
    the contract of the library. *)

From stdpp Require Import prelude list numbers strings.
From Stdlib Require Import Lia.
From S2P Require Import Prelude JsString Types View Exporter.

Set Warnings "-clear-no-such-hyp".

(** * The handlers of the tree *)

Inductive exporter_handler :=
  | H_setAboutOpen         (* onOpenChange={setAboutOpen} *)
  | H_toggleTheme          (* () => setTheme(resolvedTheme === dark ? light : dark) *)
  | H_handleDrop           (* onDrop={handleDrop} *)
  | H_preventDefault       (* onDragOver={e => e.preventDefault()} *)
  | H_openFilePicker       (* () => document.getElementById(...)?.click() *)
  | H_handleFileInput      (* onChange={handleFileInput} *)
  | H_handleExportPDF.     (* onClick={handleExportPDF} *)

#[export] Instance exporter_handler_eq_dec : EqDecision exporter_handler.
Proof. solve_decision. Defined.

(** What an event carries. *)
Inductive input :=
  | Press                          (* a click *)
  | Open (b : bool)                (* the dialog asks to open or close *)
  | DropFiles (files : list File)  (* e.dataTransfer.files *)
  | DragOver
  | Pick (file : option File).     (* e.target.files?.[0] *)

(** * The tree of NotionExporter *)

Definition outline_icon (label : string) : list (string * value) :=
  [("variant", VStr (lit "outline")); ("size", VStr (lit "icon"));
   ("aria-label", VStr (lit label))].

Definition about_dialog (st : ExporterState) : vnode exporter_handler :=
  El "Dialog" [("open", VBool (aboutOpen st))] [("onOpenChange", H_setAboutOpen)]
    [El "DialogTrigger" [("asChild", VBool true)] []
       [El "Button" (outline_icon "About") [] [El "Info" [] [] []]];
     El "DialogContent" [] []
       [El "DialogHeader" [] []
          [El "DialogTitle" [] [] [Txt (lit "About Notion PDF Exporter")];
           El "DialogDescription" [] []
             [Txt (lit ("This tool allows you to export Notion documents into PDF. " +:+
                        "In Notion, use the Export option and choose HTML, then upload " +:+
                        "the resulting .html file here."));
              El "h3" [] [] [Txt (lit "How to use")];
              El "ol" [] []
                [El "li" [] []
                   [Txt (lit "In Notion, click the three dots (" ++ [8226; 8226; 8226]%N ++
                         lit ") at the top right and choose Export " ++ [8594]%N ++
                         lit " HTML")];
                 El "li" [] [] [Txt (lit "Upload the exported .html file here")];
                 El "li" [] []
                   [Txt (lit "Click Export to download your perfectly formatted PDF")]]]]]].

Definition theme_button (resolvedTheme : str) : vnode exporter_handler :=
  El "Button" (outline_icon "Toggle Theme") [("onClick", H_toggleTheme)]
    [if bool_decide (resolvedTheme = lit "dark") then El "Sun" [] [] []
     else El "Moon" [] [] []].

Definition drop_zone : vnode exporter_handler :=
  El "div" [("tabIndex", VNum (QArith_base.inject_Z 0))]
    [("onDrop", H_handleDrop); ("onDragOver", H_preventDefault);
     ("onClick", H_openFilePicker)]
    [El "UploadCloud" [] [] [];
     El "span" [] []
       [Txt (lit "Drag & drop your Notion HTML file here, or click to select")];
     El "input" [("id", VStr (lit "notion-html-input")); ("type", VStr (lit "file"));
                 ("accept", VStr (lit ".html,text/html"))]
       [("onChange", H_handleFileInput)] []].

Definition error_alert (error : str) : vnode exporter_handler :=
  El "Alert" [("variant", VStr (lit "destructive"))] []
    [El "AlertCircle" [] [] [];
     El "AlertTitle" [] [] [Txt (lit "Error")];
     El "AlertDescription" [] [] [Txt error]].

Definition loading_card : vnode exporter_handler :=
  El "Card" [] []
    [El "CardContent" [] []
       [El "div" [] []
          [El "Loader2" [] [] [];
           El "span" [] [] [Txt (lit "Processing your Notion HTML file...")]]]].

Definition export_button (exporting : bool) : vnode exporter_handler :=
  El "Button" [("disabled", VBool exporting)] [("onClick", H_handleExportPDF)]
    (if exporting then [El "Loader2" [] [] []; Txt (lit "Exporting...")]
     else [El "Download" [] [] []; Txt (lit "Export to PDF")]).

(** The block shown while a file is loaded; [pageData?.title] shows
    nothing when there is no page data. *)
Definition loaded_block (st : ExporterState) : vnode exporter_handler :=
  El "div" [] []
    [El "div" [] []
       [El "h3" [] [] [Txt (lit "File Successfully Loaded!")];
        El "p" [] [] (Txt (lit "Title: ") :: show_opt (Txt ∘ title <$> pageData st))];
     El "div" [] []
       [El "iframe" [("srcDoc", VStr (default [] (htmlContent st)));
                     ("title", VStr (lit "Notion HTML Preview"))] [] []];
     export_button (exporting st)].

(** What NotionExporter returns. *)
Definition NotionExporter (resolvedTheme : str) (st : ExporterState)
    : vnode exporter_handler :=
  El "div" [] []
    ([El "div" [] []
        [El "h1" [] [] [Txt (lit "Notion PDF Exporter")];
         about_dialog st;
         theme_button resolvedTheme];
      El "p" [] []
        [Txt (lit ("Export your Notion documents into PDF with full formatting, " +:+
                   "images, and custom settings"))];
      El "div" [] [] [El "Card" [] [] [El "CardContent" [] [] [drop_zone]]]] ++
     show_if (truthy (error st)) (error_alert (default [] (error st))) ++
     show_if (isLoading st) loading_card ++
     show_if (truthy (htmlContent st)) (loaded_block st)).

(** * The page *)

(** [metadata] of the layout. *)
Record Metadata := mkMetadata {
  m_title : str;
  m_description : str;
}.

Definition metadata : Metadata :=
  mkMetadata (lit "Notion Exporter") (lit "Export your Notion documents into PDF").

(** [Home]: the component in the frame of the page. *)
Definition Home (resolvedTheme : str) (st : ExporterState) : vnode exporter_handler :=
  El "main" [] [] [El "div" [] [] [NotionExporter resolvedTheme st]].

(** [RootLayout]: the theme provider around the children, and the footer
    with the year of the clock. *)
Definition RootLayout {H} (year : nat) (children : list (vnode H)) : vnode H :=
  El "html" [("lang", VStr (lit "en")); ("suppressHydrationWarning", VBool true)] []
    [El "body" [] []
       [El "ThemeProvider"
          [("attribute", VStr (lit "class")); ("defaultTheme", VStr (lit "light"));
           ("enableSystem", VBool true)] []
          [El "div" [] [] children;
           El "footer" [] []
             [El "p" [] []
                [Txt (lit "Created by ");
                 El "a" [("href", VStr (lit "https://alexionut.ro"));
                         ("target", VStr (lit "_blank"));
                         ("rel", VStr (lit "noopener noreferrer"))] []
                   [Txt (lit "Alex Ionu" ++ [539]%N)];
                 Txt (lit " " ++ [169]%N ++ lit " ");
                 Num (QArith_base.inject_Z (Z.of_nat year))]]]]].

(** * The theme *)

(** The state of the theme provider: the theme that is stored, and what
    the system prefers. *)
Record ThemeState := mkTheme {
  theme : str;
  systemTheme : str;
}.

(** [defaultTheme=light] *)
Definition initialTheme (systemTheme : str) : ThemeState := mkTheme (lit "light") systemTheme.

(** With [enableSystem], the theme named system stands for the preference
    of the system. *)
Definition resolvedTheme (ts : ThemeState) : str :=
  if bool_decide (theme ts = lit "system") then systemTheme ts else theme ts.

Definition setTheme (t : str) (ts : ThemeState) : ThemeState := mkTheme t (systemTheme ts).

(** The handler of the theme button. *)
Definition toggleTheme (ts : ThemeState) : ThemeState :=
  setTheme (if bool_decide (resolvedTheme ts = lit "dark") then lit "light" else lit "dark") ts.

(** * Events of the user *)

(** What a handler does to the state of the component. *)
Section Events.
Context (title_text : str → option str) (export_api : str → api_reply).

Definition run_handler (h : exporter_handler) (i : input) (st : ExporterState)
    : ExporterState :=
  match h, i with
  | H_setAboutOpen, Open b => setAboutOpen b st
  | H_handleDrop, DropFiles files => handleDrop files st
  | H_handleFileInput, Pick file => handleFileInput file st
  | H_handleExportPDF, Press => handleExportPDF_start st
  | _, _ => st
  end.

(** The state of the page: the theme and the component. *)
Definition Page : Type := ThemeState * ExporterState.

Definition App (year : nat) (p : Page) : vnode exporter_handler :=
  RootLayout year [Home (resolvedTheme p.1) p.2].

(** An event on the page: nothing happens unless the tree has the handler
    for the event on an element that is not disabled. *)
Definition user_step (year : nat) (event : string) (h : exporter_handler) (i : input)
    (p : Page) : Page :=
  if bool_decide ((event, h) ∈ handlers (App year p))
  then (match h, i with
        | H_toggleTheme, Press => toggleTheme p.1
        | _, _ => p.1
        end, run_handler h i p.2)
  else p.

(** The event behind an action of the machine of [Exporter]. *)
Definition event_of (a : action) : option (string * exporter_handler * input) :=
  match a with
  | Drop files => Some ("onDrop", H_handleDrop, DropFiles files)
  | Change file => Some ("onChange", H_handleFileInput, Pick file)
  | Click => Some ("onClick", H_handleExportPDF, Press)
  | SetAbout b => Some ("onOpenChange", H_setAboutOpen, Open b)
  | Settle _ => None
  end.

(** A step of the page: an event of the user, or the settlement of a
    pending task. *)
Inductive page_action :=
  | User (event : string) (h : exporter_handler) (i : input)
  | Settled (task : nat).

Definition page_step (year : nat) (a : page_action) (p : Page) : Page :=
  match a with
  | User event h i => user_step year event h i p
  | Settled k => (p.1, dispatch title_text export_api (Settle k) p.2)
  end.

Definition page_run (year : nat) (l : list page_action) (p : Page) : Page :=
  foldl (λ p a, page_step year a p) p l.

End Events.

(** The handlers of the tree of a state: those that are always there, and
    the export button. *)
Definition fixed_handlers : list (string * exporter_handler) :=
  [("onOpenChange", H_setAboutOpen); ("onClick", H_toggleTheme);
   ("onDrop", H_handleDrop); ("onDragOver", H_preventDefault);
   ("onClick", H_openFilePicker); ("onChange", H_handleFileInput)].

(** The tags of the elements that the page can hold. *)
Definition page_tags : list string :=
  ["html"; "body"; "ThemeProvider"; "footer"; "p"; "a"; "main"; "div"; "h1"; "h3";
   "ol"; "li"; "span"; "input"; "iframe"; "Dialog"; "DialogTrigger"; "DialogContent";
   "DialogHeader"; "DialogTitle"; "DialogDescription"; "Button"; "Info"; "Sun"; "Moon";
   "Card"; "CardContent"; "UploadCloud"; "Alert"; "AlertCircle"; "AlertTitle";
   "AlertDescription"; "Loader2"; "Download"].

(** An empty file with the extension of an export. *)
Definition empty_file : File := mkFile (lit "empty.html") (Some []).

(** The action of [Exporter] behind a step of the page that changes the
    state of the component. *)
Definition lift (a : action) : page_action :=
  match event_of a with
  | Some (event, h, i) => User event h i
  | None => match a with Settle k => Settled k | _ => Settled 0 end
  end.

(** * The handlers a user can reach *)

Lemma handlers_NotionExporter rt st :
  handlers (NotionExporter rt st) =
    fixed_handlers ++ (if can_click st then [("onClick", H_handleExportPDF)] else []).
Proof.
  unfold NotionExporter, can_click, loaded_block, theme_button.
  by destruct (truthy (error st)), (isLoading st), (truthy (htmlContent st)),
    (exporting st), (pageData st), (bool_decide (rt = lit "dark")).
Qed.

(** The frame of the page adds no handler. *)
Lemma handlers_RootLayout {H} year (n : vnode H) : handlers (RootLayout year [n]) = handlers n.
Proof. unfold RootLayout. csimpl. by rewrite !app_nil_r. Qed.

Lemma handlers_App year p :
  handlers (App year p) =
    fixed_handlers ++ (if can_click p.2 then [("onClick", H_handleExportPDF)] else []).
Proof.
  unfold App. rewrite handlers_RootLayout.
  rewrite <- (handlers_NotionExporter (resolvedTheme p.1)).
  unfold Home. generalize (NotionExporter (resolvedTheme p.1) p.2). intros n.
  csimpl. by rewrite !app_nil_r.
Qed.

Lemma fixed_handler_offered year p event h :
  (event, h) ∈ fixed_handlers → (event, h) ∈ handlers (App year p).
Proof. rewrite handlers_App. set_solver. Qed.

Lemma export_offered year p :
  ("onClick", H_handleExportPDF) ∈ handlers (App year p) ↔ can_click p.2 = true.
Proof.
  assert (("onClick", H_handleExportPDF) ∉ fixed_handlers) as Hn by by_decide.
  rewrite handlers_App, elem_of_app. destruct (can_click p.2).
  - split; [done|]. intros _. right. by left.
  - split; [|done]. by intros [Hin|Hin%elem_of_nil].
Qed.

(** * The page and the machine of the component *)

Section Page.
Context (title_text : str → option str) (export_api : str → api_reply) (year : nat).
#[local] Abbreviation step := (page_step title_text export_api year).
#[local] Abbreviation exporter := (dispatch title_text export_api).

Lemma user_step_fixed event h i p :
  (event, h) ∈ fixed_handlers →
  user_step year event h i p
  = (match h, i with H_toggleTheme, Press => toggleTheme p.1 | _, _ => p.1 end,
     run_handler h i p.2).
Proof.
  intros Hin. unfold user_step.
  by rewrite bool_decide_eq_true_2 by by apply fixed_handler_offered.
Qed.

(** Settling a task that does not exist changes nothing. *)
Lemma dispatch_no_task st : exporter (Settle (length (tasks st))) st = st.
Proof. simpl. by rewrite lookup_ge_None_2. Qed.

(** Every action of the machine is a step of the page. *)
Lemma page_step_lift a p : step (lift a) p = (p.1, exporter a p.2).
Proof.
  destruct a as [files|file|k| |b]; unfold lift; cbn [event_of page_step];
    try (by rewrite user_step_fixed by by_decide); [done|].
  unfold user_step. pose proof (export_offered year p) as Ho. simpl.
  destruct (can_click p.2).
  - by rewrite bool_decide_eq_true_2 by by apply Ho.
  - rewrite bool_decide_eq_false_2; [by destruct p|]. by intros ?%Ho.
Qed.

(** Every step of the page is an action of the machine on the component. *)
Lemma page_step_action pa p : ∃ a, (step pa p).2 = exporter a p.2.
Proof.
  destruct pa as [event h i|k]; [|by exists (Settle k)].
  cbn [page_step]. unfold user_step. case_bool_decide as Hin;
    [|exists (Settle (length (tasks p.2))); by rewrite dispatch_no_task].
  destruct h, i; cbn [run_handler snd];
    try (exists (Settle (length (tasks p.2))); by rewrite dispatch_no_task);
    [by exists (SetAbout b)|by exists (Drop files)|by exists (Change file)|].
  exists Click. rewrite handlers_App, elem_of_app in Hin. simpl.
  destruct (can_click p.2); [done|]. destruct Hin as [Hin|Hin%elem_of_nil]; [|done].
  exfalso. revert Hin. unfold fixed_handlers. rewrite !elem_of_cons, elem_of_nil. naive_solver.
Qed.

(** No action of the machine touches the export settings. *)
Lemma dispatch_settings a st : exportSettings (exporter a st) = exportSettings st.
Proof.
  destruct a as [[|f fs]|[f|]|k| |b]; simpl; try done.
  - by destruct (endsWith _ _).
  - by destruct (endsWith _ _).
  - destruct (tasks st !! k) as [[f|html]|]; [| |done].
    + unfold handleFile_settle. by destruct (contents f).
    + unfold handleExportPDF_settle. by destruct (export_api html) as [| |[blob|]].
  - destruct (can_click st); [|done]. unfold handleExportPDF_start.
    by destruct (truthy (htmlContent st)).
Qed.

Lemma page_run_settings l p :
  exportSettings (page_run title_text export_api year l p).2 = exportSettings p.2.
Proof.
  revert p. induction l as [|pa l IH]; intros p; [done|]. simpl. rewrite IH.
  destruct (page_step_action pa p) as [a ->]. apply dispatch_settings.
Qed.

(** The elements of the page, whatever its state. *)
Lemma tags_App p : tags (App year p) ⊆ page_tags.
Proof.
  unfold App, Home, NotionExporter, loaded_block, theme_button, export_button.
  destruct (truthy (error p.2)), (isLoading p.2), (truthy (htmlContent p.2)),
    (exporting p.2), (pageData p.2), (bool_decide (resolvedTheme p.1 = lit "dark"));
    by_decide.
Qed.

End Page.

(** * The theme switch *)

Lemma resolvedTheme_setTheme t ts :
  t ≠ lit "system" → resolvedTheme (setTheme t ts) = t.
Proof. intros Ht. unfold resolvedTheme, setTheme. simpl. by rewrite bool_decide_eq_false_2. Qed.

Lemma resolvedTheme_toggle ts :
  resolvedTheme (toggleTheme ts)
  = if bool_decide (resolvedTheme ts = lit "dark") then lit "light" else lit "dark".
Proof. unfold toggleTheme. by case_bool_decide; rewrite resolvedTheme_setTheme. Qed.

(** * The theorems *)

(** C11: the page implements the machine of the component.  Every action
    of the machine is a step of the page with the same effect on the
    component and none on the theme: the guard of the export click is the
    rendering of the button, which exists while a file is loaded and is
    disabled while an export runs.  And every step of the page acts on the
    component as some action of the machine. *)
Theorem page_refines_exporter (title_text : str → option str)
    (export_api : str → api_reply) (year : nat) (a : action) (pa : page_action)
    (p : Page) :
  page_step title_text export_api year (lift a) p
  = (p.1, dispatch title_text export_api a p.2) ∧
  ∃ a', (page_step title_text export_api year pa p).2
        = dispatch title_text export_api a' p.2.
Proof. split; [apply page_step_lift|apply page_step_action]. Qed.

(** C23: whatever the user does on the page, the export settings keep
    their initial values: no element of the page is the settings form or
    the preview, and no handler of the page changes the settings. *)
Theorem settings_never_change (title_text : str → option str)
    (export_api : str → api_reply) (year : nat) (systemTheme : str)
    (l : list page_action) :
  let p := page_run title_text export_api year l (initialTheme systemTheme, initial) in
  exportSettings (snd p) = defaultSettings ∧
  ("ExportSettings" ∉ tags (App year p)) ∧ ("PDFPreview" ∉ tags (App year p)).
Proof.
  intros p. split; [apply page_run_settings|].
  assert ("ExportSettings" ∉ page_tags) as H1 by by_decide.
  assert ("PDFPreview" ∉ page_tags) as H2 by by_decide.
  pose proof (tags_App year p) as Hs. split; by intros Hin%Hs.
Qed.

(** C33: an empty file with the extension html is accepted without a
    word: after it has been read the component holds its empty text, there
    is no error, and the page is the page of the initial state, with no
    confirmation, no preview and no export button. *)
Theorem empty_file_silent (title_text : str → option str)
    (export_api : str → api_reply) (year : nat) (systemTheme : str) :
  let p0 := (initialTheme systemTheme, initial) in
  let p := page_run title_text export_api year
             [User "onChange" H_handleFileInput (Pick (Some empty_file)); Settled 0] p0 in
  htmlContent (snd p) = Some [] ∧ error (snd p) = None ∧ isLoading (snd p) = false ∧
  App year p = App year p0.
Proof.
  intros p0 p. subst p. unfold page_run. cbn [foldl page_step].
  rewrite user_step_fixed by by_decide. by split_and!.
Qed.

(** The theme button switches between light and dark: a click
    leaves the component as it is; after it the resolved theme is light if
    it was dark and dark otherwise, and the theme no longer follows the
    system; a second click gives back the first of the two. *)
Lemma theme_toggle (year : nat) (p : Page) :
  let p' := user_step year "onClick" H_toggleTheme Press p in
  let p'' := user_step year "onClick" H_toggleTheme Press p' in
  snd p' = snd p ∧
  theme (fst p') = resolvedTheme (fst p') ∧
  resolvedTheme (fst p')
  = (if bool_decide (resolvedTheme p.1 = lit "dark") then lit "light" else lit "dark") ∧
  resolvedTheme (fst p'')
  = (if bool_decide (resolvedTheme p.1 = lit "dark") then lit "dark" else lit "light").
Proof.
  intros p' p''. subst p' p''. rewrite !user_step_fixed by by_decide.
  cbn [fst snd run_handler]. rewrite !resolvedTheme_toggle. split_and!; [done| | |].
  - reflexivity.
  - reflexivity.
  - by destruct (bool_decide (resolvedTheme p.1 = lit "dark")).
Qed.
