(* ===== verification/Pipeline.v ===== *)
(** * Pipeline: extraction followed by the preview

    The pipeline of the specification: the page data that the handler of
    src/app/api/fetch-notion/route.ts returns ([parseNotionPage]) is given
    to the preview component of src/components/pdf-preview.tsx, whose
    effect splits the cleaned content into pages.  The sources hold both
    ends but never connect them (the upload component shows the file in a
    frame), so the composition [preview_of] follows the specification.
    This file composes the two models and evaluates the composition on
    the scenario of the specification.

    It also compares the two extraction strategies, which the
    specification requires to agree: [parseNotionPage] works on the text
    and [extract] of src/app/actions/notion.ts on the document that the
    parser builds from the same text. *)

From stdpp Require Import prelude list numbers strings.
From Stdlib Require Import Lia.
From S2P Require Import Prelude JsString Regex Types Dom Extractor DomExtractor Paginator.

(** The preview of a page as the client shows it when the page data
    arrives: extraction, then the pagination effect on the initial state. *)
Definition preview_of (html : str) : PreviewState :=
  useEffect (parseNotionPage html) initialPreview.

(** A paragraph of [n] code units in all, markup included. *)
Definition paragraph (n : nat) : str :=
  lit "<p>" ++ replicate (n - 7) 120%N ++ lit "</p>".

(** A Notion export: a title with the suffix and one content container that
    holds [body]. *)
Definition export_of (title_text : string) (body : str) : str :=
  lit "<html><head><title>" ++ lit title_text ++ lit " | Notion</title></head>"
  ++ qlit "<body><div class='notion-page-content'>" ++ body ++ lit "</div></body></html>".

Definition meeting_notes : str := export_of "Meeting Notes" (paragraph 9000).

(** * Composition *)

Lemma preview_of_pages html :
  pages (preview_of html) = split_pages (content (parseNotionPage html)).
Proof. reflexivity. Qed.

Lemma preview_of_ok html : preview_ok (preview_of html).
Proof. apply (paginate_effect_ok split_pages). simpl. lia. Qed.

(** For every HTML text, the pages of the preview concatenate to the
    cleaned content of the extraction, their number is the least number of
    windows of 4000 units that cover it (one when it is empty), the first
    page is shown, and white space in the pages taken together is normal. *)
Lemma preview_of_extraction html :
  let st := preview_of html in
  let c := cleanNotionContent (raw_content html) in
  concat (pages st) = c ∧
  totalPages st = length (pages st) ∧
  totalPages st = estimatedPages estimatedCharsPerPage (length c) ∧
  currentPage st = 1 ∧
  ws_normal false (concat (pages st)) = true.
Proof.
  cbn zeta. rewrite preview_of_pages. cbn [content parseNotionPage].
  assert (concat (split_pages (cleanNotionContent (raw_content html)))
          = cleanNotionContent (raw_content html)) as E by apply paginate_concat.
  rewrite E. split_and!; try done.
  - apply length_split_window.
  - apply collapse_spaces_normal.
Qed.

(** * The two strategies on the title *)

(** C38: the two strategies on a page whose first title element holds
    [X | Notion], with no line terminator, [<] or [|] in [X], when the
    parser finds that element with that text.  The textual strategy gives
    [X] trimmed; the structural one gives [X] as it is, and Untitled for
    an empty [X].  The two titles are equal exactly when [X] is not empty
    and neither starts nor ends with white space. *)
Theorem strategies_title (w : Web) pre open X close post e :
  let html := pre ++ open ++ X ++ lit " | Notion" ++ close ++ post in
  lit_prefix_at true (lit "<title>") pre (X ++ lit " | Notion" ++ close ++ post) open →
  lit_ok true (lit "</title>") close →
  all_b title_char X = true →
  querySelector sel_title (doc_nodes (jsdom w html)) = Some e →
  textContent e = X ++ lit " | Notion" →
  title (parseNotionPage html) = trim X ∧
  title (extract w html) = (if X is [] then lit "Untitled" else X) ∧
  (title (parseNotionPage html) = title (extract w html) ↔ X ≠ [] ∧ trimmed X).
Proof.
  intros html Hopen Hclose HX He Ht.
  assert (title (extract w html) = if X is [] then lit "Untitled" else X) as Ed.
  { cbn [title extract]. unfold dom_title. rewrite He, Ht, suffix_stripped by done.
    by destruct X. }
  rewrite Ed. unfold html. rewrite title_suffix by done. split_and!; [done..|].
  destruct X as [|c X'].
  { rewrite trim_nil. split; [intros H; by vm_compute in H|by intros [? _]]. }
  split; [|intros [_ ?]; by apply trim_id].
  intros E. split; [done|]. rewrite <-E. apply trim_trimmed.
Qed.

Lemma strategies_title_witness :
  let html := lit "<html><head>" ++ lit "<title>" ++ lit " Notes" ++ lit " | Notion"
              ++ lit "</title>" ++ lit "</head></html>" in
  title (parseNotionPage html) = trim (lit " Notes") ∧
  title (extract sample_web html) = lit " Notes" ∧
  (title (parseNotionPage html) = title (extract sample_web html)
   ↔ lit " Notes" ≠ [] ∧ trimmed (lit " Notes")).
Proof.
  apply (strategies_title sample_web _ _ (lit " Notes") _ _
           (Element "title" [] [] [Text (lit " Notes | Notion")]));
    [|apply lit_ok_refl|reflexivity..].
  apply lit_prefix_at_find; reflexivity.
Defined.

(** The scenario of the meeting notes: a title with the Notion suffix
    and a content container with one paragraph of 9000 units give the title
    without the suffix, three pages of 4000, 4000 and 1000 units, of which
    exactly the first is marked as the first, and 9000 units in all. *)
Lemma meeting_notes_scenario :
  let page := parseNotionPage meeting_notes in
  let st := preview_of meeting_notes in
  title page = lit "Meeting Notes" ∧
  content page = paragraph 9000 ∧
  totalPages st = 3 ∧
  length <$> pages st = [4000; 4000; 1000] ∧
  isFirst <$> slices (pages st) = [true; false; false] ∧
  length (concat (pages st)) = 9000.
Proof. vm_compute. by repeat split. Qed.
